(** * Room directory and peer-connection tracker of the video-conference backend

    A shallow embedding of [models/Room.js], [services/RoomManager.js] and
    [services/WebRTCManager.js], followed by the properties of the
    specification that concern them.

    Conventions of the embedding.
    - A JavaScript [Map] whose iteration order is observable (the participants
      of a room: host succession takes the first remaining value) is an
      association list in insertion order, module [OMap].
    - A [Map] that is only looked up, updated, deleted and counted (the room
      directory, the participant-to-room index, the tracker tables) is a
      stdpp [gmap] with string keys.
    - [Room] objects are shared by reference between the directory and the
      local variables of [joinRoom]; they live in an explicit heap and the
      directory stores references. Participant records are stored by value
      in their room; an operation returns the record as it is at that point.
    - [new Date()] and [uuidv4()] are read from the environment: the clock
      reading (milliseconds, [Z]) and the generated identifier are explicit
      arguments of the operations that call them.
    - A capacity is a JavaScript number ([Number]: NaN, an infinity or a
      finite value, read as the rational it denotes); the only operations on
      it are comparisons and [Math.min], which are exact. What a client puts
      in [settings.maxUsers] is any value ([Requested]), seen through its
      truthiness and its conversion to a number. The [settings] argument of
      [createRoom] is [null] or a value whose fields can be read.
    - Identifiers, names and payloads are strings. A JavaScript string is a
      sequence of UTF-16 code units; a [string] here holds one code unit per
      character, which covers the strings whose code units are below 256
      (UUIDs and other ASCII identifiers in particular). On those,
      [slice(0, 8)] is [substring 0 8] and [===] is equality.
    - Logging is left out. *)

From Stdlib Require Import ZArith QArith String List Lia.
From stdpp Require Import base gmap strings list fin_maps.

Local Open Scope Z_scope.
Local Open Scope string_scope.

(** JavaScript truthiness of a string: only the empty string is falsy. *)
Definition truthy (s : string) : bool :=
  match s with
  | EmptyString => false
  | String _ _ => true
  end.

(** ** JavaScript numbers *)

Inductive Number : Type :=
  | NaN
  | NegInfinity
  | PosInfinity
  | Finite (q : Q).

Module Num.

Definition of_Z (z : Z) : Number := Finite (inject_Z z).

Definition of_nat (n : nat) : Number := of_Z (Z.of_nat n).

(** [a <= b]; a comparison with NaN is false. *)
Definition leb (a b : Number) : bool :=
  match a, b with
  | NaN, _ | _, NaN => false
  | NegInfinity, _ => true
  | _, PosInfinity => true
  | PosInfinity, _ => false
  | Finite _, NegInfinity => false
  | Finite p, Finite q => Qle_bool p q
  end.

(** [a >= b] *)
Definition geb (a b : Number) : bool := leb b a.

(** [Math.min(a, b)]: NaN as soon as one argument is NaN. *)
Definition min (a b : Number) : Number :=
  match a, b with
  | NaN, _ | _, NaN => NaN
  | _, _ => if leb a b then a else b
  end.

(** Truthiness of a number: [0], [-0] and NaN are falsy. *)
Definition truthy (n : Number) : bool :=
  match n with
  | NaN => false
  | Finite q => negb (Qeq_bool q 0)
  | _ => true
  end.

(** The number is the integer [z]. *)
Definition is_int (n : Number) (z : Z) : Prop :=
  match n with
  | Finite q => Qeq q (inject_Z z)
  | _ => False
  end.

End Num.

(** Outcome of a method that may [throw]. *)
Inductive result (E A : Type) : Type :=
  | Ok (a : A)
  | Err (e : E).
Arguments Ok {E A} a.
Arguments Err {E A} e.

(** ** Insertion-ordered maps (JavaScript [Map]) *)

Module OMap.
Abbreviation t V := (list (string * V)) (only parsing).

Section omap.
Context {V : Type}.
Local Abbreviation t := (list (string * V)) (only parsing).

Fixpoint get (k : string) (m : t) : option V :=
match m with
| [] => None
| (k', v) :: m' => if decide (k' = k) then Some v else get k m'
end.

Definition has (k : string) (m : t) : bool :=
match get k m with
| Some _ => true
| None => false
end.

(** [set] keeps the position of an existing key and appends a new one. *)
Fixpoint set (k : string) (v : V) (m : t) : t :=
match m with
| [] => [(k, v)]
| (k', v') :: m' =>
    if decide (k' = k) then (k, v) :: m' else (k', v') :: set k v m'
end.

Fixpoint delete (k : string) (m : t) : t :=
match m with
| [] => []
| (k', v) :: m' =>
    if decide (k' = k) then delete k m' else (k', v) :: delete k m'
end.

Definition size (m : t) : nat := length m.

Definition keys (m : t) : list string := map fst m.

Definition values (m : t) : list V := map snd m.
End omap.
End OMap.

(** ** models/Room.js *)

Inductive Role : Type := host | participant.

#[global] Instance Role_eq_dec : EqDecision Role.
Proof. solve_decision. Defined.

(** A password slot holds [undefined], [null] or a string. *)
Inductive Password : Type :=
  | PwUndefined
  | PwNull
  | PwString (s : string).

#[global] Instance Password_eq_dec : EqDecision Password.
Proof. solve_decision. Defined.

Record Settings : Type := mkSettings {
  allowScreenShare : bool;
  allowChat : bool;
  requirePassword : bool;
  password : Password;
  recordingEnabled : bool
}.

Record User : Type := mkUser {
  userId : string;
  name : string;
  socketId : string;
  joinedAt : Z;
  isAudioEnabled : bool;
  isVideoEnabled : bool;
  isScreenSharing : bool;
  role : Role
}.

(** The [userInfo] argument of [addUser]: [name] may be missing. *)
Record UserInfo : Type := mkUserInfo {
  infoName : option string;
  infoSocketId : string
}.

Record Room : Type := mkRoom {
  roomId : string;
  users : OMap.t User;
  createdAt : Z;
  createdBy : option string;
  isActive : bool;
  maxUsers : Number;
  settings : Settings
}.

Inductive Error : Type :=
  | RoomNotFound          (* 'Room not found' *)
  | RoomInactive          (* 'Room is not active' *)
  | InvalidPassword       (* 'Invalid room password' *)
  | RoomFull (max : Number) (* 'Room is full. Maximum ${max} users allowed.' *)
  | DuplicateParticipant. (* 'User already in room' *)

Definition set_users (us : OMap.t User) (r : Room) : Room :=
  mkRoom (roomId r) us (createdAt r) (createdBy r) (isActive r) (maxUsers r)
         (settings r).

Definition set_role (ro : Role) (u : User) : User :=
  mkUser (userId u) (name u) (socketId u) (joinedAt u) (isAudioEnabled u)
         (isVideoEnabled u) (isScreenSharing u) ro.

Module RoomM.

(** [new Room(roomId, createdBy)], constructed at clock reading [now]. *)
Definition new (rid : string) (by_ : option string) (now : Z) : Room :=
  {| roomId := rid;
     users := [];
     createdAt := now;
     createdBy := by_;
     isActive := true;
     maxUsers := Num.of_Z 10;
     settings := {| allowScreenShare := true;
                    allowChat := true;
                    requirePassword := false;
                    password := PwNull;
                    recordingEnabled := false |} |}.

(** [userInfo.name || `User ${userId.slice(0, 8)}`]; [slice] counts code
    units, one per character of a [string]. *)
Definition display_name (uid : string) (info : UserInfo) : string :=
  match infoName info with
  | Some n => if truthy n then n else "User " ++ substring 0 8 uid
  | None => "User " ++ substring 0 8 uid
  end.

Definition addUser (uid : string) (info : UserInfo) (now : Z) (r : Room)
  : result Error (Room * User) :=
  if Num.geb (Num.of_nat (OMap.size (users r))) (maxUsers r)
  then Err (RoomFull (maxUsers r))
  else if OMap.has uid (users r) then Err DuplicateParticipant
  else
    let user :=
      {| userId := uid;
         name := display_name uid info;
         socketId := infoSocketId info;
         joinedAt := now;
         isAudioEnabled := true;
         isVideoEnabled := true;
         isScreenSharing := false;
         role := if Nat.eqb (OMap.size (users r)) 0 then host else participant |} in
    Ok (set_users (OMap.set uid user (users r)) r, user).

(** [this.users.values().next().value.role = 'host'] on a non-empty map. *)
Definition promote_first (us : OMap.t User) : OMap.t User :=
  match us with
  | [] => []
  | (k, u) :: rest => (k, set_role host u) :: rest
  end.

Definition removeUser (uid : string) (r : Room) : Room * option User :=
  match OMap.get uid (users r) with
  | Some user =>
      let us := OMap.delete uid (users r) in
      let us' :=
        if decide (role user = host) then
          if Nat.ltb 0 (OMap.size us) then promote_first us else us
        else us in
      (set_users us' r, Some user)
  | None => (r, None)
  end.

Definition isEmpty (r : Room) : bool := Nat.eqb (OMap.size (users r)) 0.

Definition validatePassword (pw : Password) (r : Room) : bool :=
  if negb (requirePassword (settings r)) then true
  else bool_decide (password (settings r) = pw).

Definition updateUserMedia (uid mediaType : string) (enabled : bool) (r : Room)
  : Room * option User :=
  match OMap.get uid (users r) with
  | Some u =>
      let u' :=
        if decide (mediaType = "audio") then
          mkUser (userId u) (name u) (socketId u) (joinedAt u) enabled
                 (isVideoEnabled u) (isScreenSharing u) (role u)
        else if decide (mediaType = "video") then
          mkUser (userId u) (name u) (socketId u) (joinedAt u) (isAudioEnabled u)
                 enabled (isScreenSharing u) (role u)
        else if decide (mediaType = "screen") then
          mkUser (userId u) (name u) (socketId u) (joinedAt u) (isAudioEnabled u)
                 (isVideoEnabled u) enabled (role u)
        else u in
      (set_users (OMap.set uid u' (users r)) r, Some u')
  | None => (r, None)
  end.

(** The loop of [getUserBySocketId]: the first participant, in insertion
    order, whose [socketId] is the one asked for. *)
Fixpoint findBySocketId (sid : string) (us : OMap.t User) : option User :=
  match us with
  | [] => None
  | (_, user) :: rest =>
      if decide (socketId user = sid) then Some user else findBySocketId sid rest
  end.

Definition getUserBySocketId (sid : string) (r : Room) : option User :=
  findBySocketId sid (users r).

End RoomM.

(** ** services/RoomManager.js *)

(** The value of [settings.maxUsers], as [createRoom] uses it: tested for
    truthiness, then converted to a number by [Math.min]. Any value a JSON
    body can hold has such a conversion. *)
Inductive Requested : Type :=
  | ReqNothing              (* undefined, null, false or '': falsy *)
  | ReqNumber (n : Number)  (* a number *)
  | ReqOther (n : Number).  (* any other value, all truthy: true, a non-empty
                               string, an array, an object; [n] is the number
                               it converts to *)

Definition req_truthy (v : Requested) : bool :=
  match v with
  | ReqNothing => false
  | ReqNumber n => Num.truthy n
  | ReqOther _ => true
  end.

(** The conversion of a falsy value is never used. *)
Definition req_toNumber (v : Requested) : Number :=
  match v with
  | ReqNothing => NaN
  | ReqNumber n => n
  | ReqOther n => n
  end.

(** The fields [createRoom] reads from its [settings] argument; a missing
    field is [ReqNothing], [false] or [PwUndefined]. [optRequirePassword] is
    the truthiness of the field. *)
Record RoomOptions : Type := mkRoomOptions {
  optMaxUsers : Requested;
  optRequirePassword : bool;
  optPassword : Password
}.

(** [{}], the default of the [settings] parameter. *)
Definition no_options : RoomOptions :=
  {| optMaxUsers := ReqNothing; optRequirePassword := false;
     optPassword := PwUndefined |}.

(** The [settings] argument of [createRoom]. A missing argument is [{}] by
    the parameter's default, and a primitive other than [null] has none of
    the three fields, like [{}]; reading a field of [null] throws. *)
Inductive SettingsArg : Type :=
  | SettingsNull
  | SettingsObject (opts : RoomOptions).

(** "Cannot read properties of null (reading 'maxUsers')" *)
Inductive TypeError : Type :=
  | CannotReadOfNull (property : string).

Record RoomManager : Type := mkRoomManager {
  heap : list Room;                 (* every Room object allocated so far *)
  rooms : gmap string nat;          (* this.rooms: roomId -> Room reference *)
  userRoomMap : gmap string string  (* this.userRoomMap: userId -> roomId *)
}.

Module RoomManagerM.

Definition init : RoomManager :=
  {| heap := []; rooms := ∅; userRoomMap := ∅ |}.

Definition set_maxUsers (n : Number) (r : Room) : Room :=
  mkRoom (roomId r) (users r) (createdAt r) (createdBy r) (isActive r) n
         (settings r).

Definition set_password (pw : Password) (r : Room) : Room :=
  mkRoom (roomId r) (users r) (createdAt r) (createdBy r) (isActive r)
         (maxUsers r)
         {| allowScreenShare := allowScreenShare (settings r);
            allowChat := allowChat (settings r);
            requirePassword := true;
            password := pw;
            recordingEnabled := recordingEnabled (settings r) |}.

(** The room [createRoom] builds before it stores it. *)
Definition configure (opts : RoomOptions) (room : Room) : Room :=
  let room :=
    if req_truthy (optMaxUsers opts)
    then set_maxUsers (Num.min (req_toNumber (optMaxUsers opts)) (Num.of_Z 50)) room
    else room in
  if optRequirePassword opts then set_password (optPassword opts) room
  else room.

(** [uuid] is the value returned by [uuidv4()]. The result is the new
    manager and the reference of the room that is returned. With [null] for
    [settings] the first field access throws: the room object built so far is
    dropped and the manager is as before. *)
Definition createRoom (uuid : string) (now : Z) (by_ : option string)
    (settings : SettingsArg) (m : RoomManager)
  : RoomManager * result TypeError nat :=
  match settings with
  | SettingsNull => (m, Err (CannotReadOfNull "maxUsers"))
  | SettingsObject opts =>
      let room := configure opts (RoomM.new uuid by_ now) in
      let ref := length (heap m) in
      ({| heap := heap m ++ [room];
          rooms := <[uuid := ref]> (rooms m);
          userRoomMap := userRoomMap m |}, Ok ref)
  end.

Definition getRoom (rid : string) (m : RoomManager) : option nat :=
  rooms m !! rid.

(** The object behind a reference. References are only ever produced by
    [createRoom], so the lookup succeeds in every reachable state. *)
Definition deref (ref : nat) (m : RoomManager) : option Room :=
  heap m !! ref.

(** The room the directory holds under [rid], as a value. *)
Definition roomOf (rid : string) (m : RoomManager) : option Room :=
  match getRoom rid m with
  | Some ref => deref ref m
  | None => None
  end.

(** Returns [{ room, user }] (a reference and the removed record, [None]
    when [removeUser] found nobody) or [null]. *)
Definition leaveRoom (uid : string) (m : RoomManager)
  : RoomManager * option (nat * option User) :=
  match userRoomMap m !! uid with
  | None => (m, None)
  | Some rid =>
      if negb (truthy rid) then (m, None)
      else
        match getRoom rid m with
        | None => (m, None)
        | Some ref =>
            match deref ref m with
            | None => (m, None)
            | Some room =>
                let '(room', user) := RoomM.removeUser uid room in
                ({| heap := <[ref := room']> (heap m);
                    rooms := if RoomM.isEmpty room' then delete rid (rooms m)
                             else rooms m;
                    userRoomMap := delete uid (userRoomMap m) |},
                 Some (ref, user))
            end
        end
  end.

(** The default [password = null] of [joinRoom]: a missing argument is
    [null]. *)
Definition passwordOrNull (pw : Password) : Password :=
  match pw with
  | PwUndefined => PwNull
  | _ => pw
  end.

(** The manager is returned in both outcomes: what [leaveRoom] did before
    [addUser] threw stays done. [room] is the object fetched before the leave
    step; it is read again through its reference afterwards, which cannot
    fail ([leaveRoom] never shrinks the heap). *)
Definition joinRoom (rid uid : string) (info : UserInfo) (pw : Password)
    (now : Z) (m : RoomManager) : RoomManager * result Error (nat * User) :=
  let pw := passwordOrNull pw in
  match getRoom rid m with
  | None => (m, Err RoomNotFound)
  | Some ref =>
      match deref ref m with
      | None => (m, Err RoomNotFound)
      | Some room =>
          if negb (isActive room) then (m, Err RoomInactive)
          else if negb (RoomM.validatePassword pw room) then (m, Err InvalidPassword)
          else
            let m1 := fst (leaveRoom uid m) in
            match deref ref m1 with
            | None => (m1, Err RoomNotFound)
            | Some room1 =>
                match RoomM.addUser uid info now room1 with
                | Err e => (m1, Err e)
                | Ok (room2, user) =>
                    ({| heap := <[ref := room2]> (heap m1);
                        rooms := rooms m1;
                        userRoomMap := <[uid := rid]> (userRoomMap m1) |},
                     Ok (ref, user))
                end
            end
      end
  end.

Definition getUserRoom (uid : string) (m : RoomManager) : option nat :=
  match userRoomMap m !! uid with
  | Some rid => if truthy rid then getRoom rid m else None
  | None => None
  end.

Definition updateUserMedia (uid mediaType : string) (enabled : bool)
    (m : RoomManager) : RoomManager * option User :=
  match getUserRoom uid m with
  | Some ref =>
      match deref ref m with
      | Some room =>
          let '(room', u) := RoomM.updateUserMedia uid mediaType enabled room in
          ({| heap := <[ref := room']> (heap m);
              rooms := rooms m;
              userRoomMap := userRoomMap m |}, u)
      | None => (m, None)
      end
  | None => (m, None)
  end.

(** [room.isEmpty()] through a reference. *)
Definition isEmptyAt (m : RoomManager) (ref : nat) : bool :=
  match deref ref m with
  | Some room => RoomM.isEmpty room
  | None => false
  end.

(** The identifiers collected by the first loop of [cleanupEmptyRooms]. *)
Definition emptyRooms (m : RoomManager) : list string :=
  fst <$> filter (λ kv : string * nat, isEmptyAt m (snd kv) = true)
                 (map_to_list (rooms m)).

Definition cleanupEmptyRooms (m : RoomManager) : RoomManager :=
  {| heap := heap m;
     rooms := foldl (λ acc rid, delete rid acc) (rooms m) (emptyRooms m);
     userRoomMap := userRoomMap m |}.

End RoomManagerM.

Module Scenario.
Import RoomManagerM.

Definition info (n : string) : UserInfo :=
  {| infoName := Some n; infoSocketId := n |}.

(** [{ maxUsers: n }] for an integer [n]. *)
Definition cap (n : Z) : RoomOptions :=
  {| optMaxUsers := ReqNumber (Num.of_Z n); optRequirePassword := false;
     optPassword := PwUndefined |}.

Definition cap2 : RoomOptions := cap 2.

Definition m1 : RoomManager := fst (createRoom "r1" 0 None (SettingsObject cap2) init).
Definition m2 : RoomManager := fst (joinRoom "r1" "A" (info "A") PwUndefined 1 m1).
Definition m3 : RoomManager := fst (joinRoom "r1" "B" (info "B") PwUndefined 2 m2).
Definition m4 : RoomManager := fst (joinRoom "r1" "C" (info "C") PwUndefined 3 m3).
(** Room r2 has capacity 1 and is full; A sits in r1. *)
Definition two_rooms : RoomManager :=
  let s1 := fst (createRoom "r1" 0 None (SettingsObject no_options) init) in
  let s2 := fst (createRoom "r2" 1 None (SettingsObject (cap 1)) s1) in
  let s3 := fst (joinRoom "r1" "A" (info "A") PwUndefined 2 s2) in
  fst (joinRoom "r2" "B" (info "B") PwUndefined 3 s3).

(** Room r2 has the default capacity and B in it; nobody else is known. *)
Definition roomy : RoomManager :=
  let s1 := fst (createRoom "r1" 0 None (SettingsObject no_options) init) in
  let s2 := fst (createRoom "r2" 1 None (SettingsObject no_options) s1) in
  fst (joinRoom "r2" "B" (info "B") PwUndefined 3 s2).

(** Room r1 is created with [{ maxUsers: 2.5 }]; A, B and C join. *)
Definition fractional : RoomManager :=
  let opts := {| optMaxUsers := ReqNumber (Finite (5 # 2));
                 optRequirePassword := false; optPassword := PwUndefined |} in
  let s1 := fst (createRoom "r1" 0 None (SettingsObject opts) init) in
  let s2 := fst (joinRoom "r1" "A" (info "A") PwUndefined 1 s1) in
  let s3 := fst (joinRoom "r1" "B" (info "B") PwUndefined 2 s2) in
  fst (joinRoom "r1" "C" (info "C") PwUndefined 3 s3).

(** [{ requirePassword: true, password: 'pw' }] *)
Definition withPassword : RoomOptions :=
  {| optMaxUsers := ReqNothing; optRequirePassword := true;
     optPassword := PwString "pw" |}.

(** Room r1 requires the password "pw"; A is alone in it. *)
Definition locked : RoomManager :=
  let s1 := fst (createRoom "r1" 0 None (SettingsObject withPassword) init) in
  fst (joinRoom "r1" "A" (info "A") (PwString "pw") 1 s1).
End Scenario.

(** ** services/WebRTCManager.js *)

Module WebRTCManagerM.

Inductive Status : Type := connecting | connected.

#[global] Instance Status_eq_dec : EqDecision Status.
Proof. solve_decision. Defined.

Record PeerLink : Type := mkPeerLink {
  connectionId : string;
  peerId : string;
  status : Status;
  createdAt : Z
}.

Record PeerEntry : Type := mkPeerEntry {
  socketId : string;
  peers : gmap string PeerLink;     (* peerId -> connection info *)
  isInitiator : bool;
  mediaState : gmap string bool     (* { audio, video, screen }: own keys *)
}.

(** A staged offer; the session description itself is an opaque payload. *)
Record OfferData : Type := mkOfferData {
  roomId : string;
  fromUserId : string;
  toUserId : string;
  offer : string;
  timestamp : Z
}.

Record WebRTCManager : Type := mkWebRTCManager {
  connections : gmap string (gmap string PeerEntry);  (* roomId -> userId -> entry *)
  pendingOffers : gmap string OfferData               (* connectionId -> offer data *)
}.

Definition init : WebRTCManager :=
  {| connections := ∅; pendingOffers := ∅ |}.

Definition iceServers : list string :=
  ["stun:stun.l.google.com:19302";
   "stun:stun1.l.google.com:19302";
   "stun:stun2.l.google.com:19302"].

Definition getIceServers (w : WebRTCManager) : list string := iceServers.

Definition initializeRoom (rid : string) (w : WebRTCManager) : WebRTCManager :=
  match connections w !! rid with
  | Some _ => w
  | None => {| connections := <[rid := ∅]> (connections w);
               pendingOffers := pendingOffers w |}
  end.

Definition newEntry (sid : string) : PeerEntry :=
  {| socketId := sid;
     peers := ∅;
     isInitiator := false;
     mediaState := <["audio" := true]> (<["video" := true]> (<["screen" := false]> ∅)) |}.

Definition addUser (rid uid sid : string) (w : WebRTCManager)
  : WebRTCManager * PeerEntry :=
  let w1 := initializeRoom rid w in
  let roomConnections := default ∅ (connections w1 !! rid) in
  match roomConnections !! uid with
  | Some e => (w1, e)
  | None =>
      let e := newEntry sid in
      ({| connections := <[rid := <[uid := e]> roomConnections]> (connections w1);
          pendingOffers := pendingOffers w1 |}, e)
  end.

(** The [peers.clear()] on the entry being dropped has no lasting effect:
    the entry is unreachable once deleted from the room's table. *)
Definition removeUser (rid uid : string) (w : WebRTCManager)
  : WebRTCManager * bool :=
  match connections w !! rid with
  | Some roomConnections =>
      match roomConnections !! uid with
      | Some _ =>
          let rc := delete uid roomConnections in
          ({| connections := if Nat.eqb (size rc) 0 then delete rid (connections w)
                             else <[rid := rc]> (connections w);
              pendingOffers := pendingOffers w |}, true)
      | None => (w, false)
      end
  | None => (w, false)
  end.

(** [`${fromUserId}-${toUserId}`] *)
Definition connId (a b : string) : string := a ++ "-" ++ b.

Definition createPeerConnection (rid fromId toId : string) (now : Z)
    (w : WebRTCManager) : WebRTCManager * option string :=
  match connections w !! rid with
  | None => (w, None)
  | Some roomConnections =>
      match roomConnections !! fromId, roomConnections !! toId with
      | Some fromUser, Some _ =>
          let cid := connId fromId toId in
          let link := {| connectionId := cid; peerId := toId;
                         status := connecting; createdAt := now |} in
          let fromUser' :=
            {| socketId := socketId fromUser;
               peers := <[toId := link]> (peers fromUser);
               isInitiator := isInitiator fromUser;
               mediaState := mediaState fromUser |} in
          ({| connections := <[rid := <[fromId := fromUser']> roomConnections]>
                               (connections w);
              pendingOffers := pendingOffers w |}, Some cid)
      | _, _ => (w, None)
      end
  end.

(** [now] is the clock reading of the link's [createdAt], [now'] the later
    one of the staged offer's [timestamp]. *)
Definition handleOffer (rid fromId toId payload : string) (now now' : Z)
    (w : WebRTCManager) : WebRTCManager * option string :=
  match createPeerConnection rid fromId toId now w with
  | (w1, Some cid) =>
      if truthy cid then
        ({| connections := connections w1;
            pendingOffers :=
              <[cid := {| roomId := rid; fromUserId := fromId; toUserId := toId;
                          offer := payload; timestamp := now' |}]>
                (pendingOffers w1) |}, Some cid)
      else (w1, None)
  | (w1, None) => (w1, None)
  end.

Definition set_status (st : Status) (l : PeerLink) : PeerLink :=
  {| connectionId := connectionId l; peerId := peerId l; status := st;
     createdAt := createdAt l |}.

(** The reversed identifier [`${toUserId}-${fromUserId}`] is only logged;
    the lookup goes through [fromUserId]'s own [peers]. *)
Definition handleAnswer (rid fromId toId answer : string) (w : WebRTCManager)
  : WebRTCManager * bool :=
  match connections w !! rid with
  | Some roomConnections =>
      match roomConnections !! fromId with
      | Some fromUser =>
          match peers fromUser !! toId with
          | Some link =>
              let fromUser' :=
                {| socketId := socketId fromUser;
                   peers := <[toId := set_status connected link]> (peers fromUser);
                   isInitiator := isInitiator fromUser;
                   mediaState := mediaState fromUser |} in
              ({| connections := <[rid := <[fromId := fromUser']> roomConnections]>
                                   (connections w);
                  pendingOffers := pendingOffers w |}, true)
          | None => (w, false)
          end
      | None => (w, false)
      end
  | None => (w, false)
  end.

(** [mediaState[key] = value] on the plain object [mediaState]: an own key is
    written, except under the name ["__proto__"], the one accessor a plain
    object inherits, whose setter ignores a boolean and stores nothing. *)
Definition assignKey (key : string) (value : bool) (o : gmap string bool)
  : gmap string bool :=
  if decide (key = "__proto__") then o else <[key := value]> o.

Definition updateMediaState (rid uid mediaType : string) (enabled : bool)
    (w : WebRTCManager) : WebRTCManager * option (gmap string bool) :=
  match connections w !! rid with
  | Some roomConnections =>
      match roomConnections !! uid with
      | Some user =>
          let ms := assignKey mediaType enabled (mediaState user) in
          let user' :=
            {| socketId := socketId user; peers := peers user;
               isInitiator := isInitiator user; mediaState := ms |} in
          ({| connections := <[rid := <[uid := user']> roomConnections]>
                               (connections w);
              pendingOffers := pendingOffers w |}, Some ms)
      | None => (w, None)
      end
  | None => (w, None)
  end.

(** [now - offerData.timestamp > 30000] *)
Definition expired (now : Z) (o : OfferData) : bool :=
  now - timestamp o >? 30000.

(** The identifiers pushed by the first loop of [cleanupPendingOffers]. *)
Definition expiredOffers (now : Z) (w : WebRTCManager) : list string :=
  fst <$> filter (λ kv : string * OfferData, expired now (snd kv) = true)
                 (map_to_list (pendingOffers w)).

Definition cleanupPendingOffers (now : Z) (w : WebRTCManager)
  : WebRTCManager * nat :=
  let ids := expiredOffers now w in
  ({| connections := connections w;
      pendingOffers := foldl (λ acc cid, delete cid acc) (pendingOffers w) ids |},
   length ids).

Module Stats.
Record RoomStats : Type := mkRoomStats {
  userCount : nat;
  connectionCount : nat
}.

Record t : Type := mkStats {
  totalRooms : nat;
  totalUsers : nat;
  totalConnections : nat;
  pendingOffers : nat;
  rooms : gmap string RoomStats
}.
End Stats.

(** The inner loop of [getStats]: the links held by the entries of a room. *)
Definition roomConnectionCount (roomConnections : gmap string PeerEntry) : nat :=
  map_fold (λ _ userInfo acc, (acc + size (peers userInfo))%nat) 0%nat roomConnections.

Definition getStats (w : WebRTCManager) : Stats.t :=
  {| Stats.totalRooms := size (connections w);
     Stats.totalUsers :=
       map_fold (λ _ rc acc, (acc + size rc)%nat) 0%nat (connections w);
     Stats.totalConnections :=
       map_fold (λ _ rc acc, (acc + roomConnectionCount rc)%nat) 0%nat (connections w);
     Stats.pendingOffers := size (pendingOffers w);
     Stats.rooms :=
       (λ rc, {| Stats.userCount := size rc;
                 Stats.connectionCount := roomConnectionCount rc |})
         <$> connections w |}.

(** The status of the link [fromId] holds towards [toId] in room [rid]. *)
Definition linkStatus (rid fromId toId : string) (w : WebRTCManager)
  : option Status :=
  match connections w !! rid with
  | Some rc =>
      match rc !! fromId with
      | Some e => status <$> (peers e !! toId)
      | None => None
      end
  | None => None
  end.

End WebRTCManagerM.

(** ** middleware/security.js: the socket event limiter *)

Module RateLimiterM.

Record Limiter : Type := mkLimiter {
  count : Z;
  resetTime : Z
}.

(** [socketEventLimiter]: key -> { count, resetTime } *)
Abbreviation Table := (gmap string Limiter) (only parsing).

(** The defaults of [maxEvents] and [windowMs]. *)
Definition defaultMaxEvents : Z := 50.
Definition defaultWindowMs : Z := 60000.

(** [`${socket.handshake.address}-${eventType}`] *)
Definition limiterKey (address eventType : string) : string :=
  address ++ "-" ++ eventType.

(** [now] is the value of [Date.now()]. *)
Definition checkSocketRateLimit (address eventType : string)
    (maxEvents windowMs now : Z) (t : Table) : Table * bool :=
  let key := limiterKey address eventType in
  match t !! key with
  | None => (<[key := {| count := 1; resetTime := now + windowMs |}]> t, true)
  | Some limiter =>
      if now >? resetTime limiter then
        (<[key := {| count := 1; resetTime := now + windowMs |}]> t, true)
      else if count limiter >=? maxEvents then (t, false)
      else
        (<[key := {| count := count limiter + 1;
                     resetTime := resetTime limiter |}]> t, true)
  end.

(** The periodic clean-up: every entry with [now > resetTime] is deleted. *)
Definition cleanupLimiter (now : Z) (t : Table) : Table :=
  filter (λ kv : string * Limiter, (now >? resetTime (snd kv)) = false) t.

End RateLimiterM.

(** * Vocabulary of the properties *)

(** The participants of a room that hold role [host]. *)
Definition hostCount (us : OMap.t User) : nat :=
  length (filter (λ kv : string * User, role (snd kv) = host) us).

(** What every room object satisfies: distinct participant identifiers,
    every count below the present one passed the capacity check of
    [addUser], one host when non-empty. *)
Record room_ok (r : Room) : Prop := mk_room_ok {
  ok_nodup : NoDup (OMap.keys (users r));
  ok_capacity : ∀ n, (n < OMap.size (users r))%nat →
                Num.geb (Num.of_nat n) (maxUsers r) = false;
  ok_host : users r ≠ [] → hostCount (users r) = 1%nat
}.

(** ** Runs of the room manager *)

(** The public operations of [RoomManager], with the values they read from
    the environment. The socket handlers reach rooms only through these,
    apart from two direct writes ([settings.recordingEnabled] and a
    [handRaised] flag) that touch neither membership nor roles. *)
Inductive Op : Type :=
  | OpCreateRoom (uuid : string) (now : Z) (by_ : option string)
                 (settings : SettingsArg)
  | OpJoinRoom (rid uid : string) (info : UserInfo) (pw : Password) (now : Z)
  | OpLeaveRoom (uid : string)
  | OpUpdateUserMedia (uid mediaType : string) (enabled : bool)
  | OpCleanupEmptyRooms.

Definition run (op : Op) (m : RoomManager) : RoomManager :=
  match op with
  | OpCreateRoom uuid now by_ settings =>
      fst (RoomManagerM.createRoom uuid now by_ settings m)
  | OpJoinRoom rid uid info pw now => fst (RoomManagerM.joinRoom rid uid info pw now m)
  | OpLeaveRoom uid => fst (RoomManagerM.leaveRoom uid m)
  | OpUpdateUserMedia uid mediaType enabled =>
      fst (RoomManagerM.updateUserMedia uid mediaType enabled m)
  | OpCleanupEmptyRooms => RoomManagerM.cleanupEmptyRooms m
  end.

(** What is assumed of the environment: [uuidv4()] never returns the empty
    string. Identifiers are not assumed to be fresh. *)
Definition op_valid (op : Op) : Prop :=
  match op with
  | OpCreateRoom uuid _ _ _ => uuid ≠ ""
  | _ => True
  end.

Inductive reachable : RoomManager → Prop :=
  | reach_init : reachable RoomManagerM.init
  | reach_step m op : reachable m → op_valid op → reachable (run op m).

(** [uid] is a participant of the room the directory holds under [rid]. *)
Definition member (uid rid : string) (m : RoomManager) : bool :=
  match RoomManagerM.roomOf rid m with
  | Some room => OMap.has uid (users room)
  | None => false
  end.

(** The invariant of the manager. *)
Record Inv (m : RoomManager) : Prop := mk_Inv {
  inv_dir : ∀ rid ref, rooms m !! rid = Some ref →
            rid ≠ "" ∧ is_Some (heap m !! ref);
  inv_inj : ∀ r1 r2 ref, rooms m !! r1 = Some ref → rooms m !! r2 = Some ref →
            r1 = r2;
  inv_index : ∀ uid rid, userRoomMap m !! uid = Some rid → rid ≠ "";
  inv_member : ∀ rid ref room uid,
            rooms m !! rid = Some ref → heap m !! ref = Some room →
            uid ∈ OMap.keys (users room) → userRoomMap m !! uid = Some rid;
  inv_rooms : ∀ ref room, heap m !! ref = Some room →
            room_ok room ∧ isActive room = true
}.

(** The state [leaveRoom] produces when the index leads to a room object. *)
Definition left_state (uid rid : string) (ref : nat) (room : Room)
    (m : RoomManager) : RoomManager :=
  {| heap := <[ref := (RoomM.removeUser uid room).1]> (heap m);
     rooms := if RoomM.isEmpty (RoomM.removeUser uid room).1
              then delete rid (rooms m) else rooms m;
     userRoomMap := delete uid (userRoomMap m) |}.

(** The state [joinRoom] produces once [addUser] has returned [room2]. *)
Definition joined_state (rid uid : string) (ref : nat) (room2 : Room)
    (m1 : RoomManager) : RoomManager :=
  {| heap := <[ref := room2]> (heap m1);
     rooms := rooms m1;
     userRoomMap := <[uid := rid]> (userRoomMap m1) |}.

(** ** Runs of the peer-connection tracker *)

Inductive TrackerOp : Type :=
  | TAddUser (rid uid sid : string)
  | TRemoveUser (rid uid : string)
  | TCreatePeerConnection (rid fromId toId : string) (now : Z)
  | THandleOffer (rid fromId toId payload : string) (now now' : Z)
  | THandleAnswer (rid fromId toId answer : string)
  | TUpdateMediaState (rid uid mediaType : string) (enabled : bool)
  | TCleanupPendingOffers (now : Z).

Definition trackerRun (op : TrackerOp) (w : WebRTCManagerM.WebRTCManager)
  : WebRTCManagerM.WebRTCManager :=
  match op with
  | TAddUser rid uid sid => fst (WebRTCManagerM.addUser rid uid sid w)
  | TRemoveUser rid uid => fst (WebRTCManagerM.removeUser rid uid w)
  | TCreatePeerConnection rid a b now =>
      fst (WebRTCManagerM.createPeerConnection rid a b now w)
  | THandleOffer rid a b payload now now' =>
      fst (WebRTCManagerM.handleOffer rid a b payload now now' w)
  | THandleAnswer rid a b answer => fst (WebRTCManagerM.handleAnswer rid a b answer w)
  | TUpdateMediaState rid uid mediaType enabled =>
      fst (WebRTCManagerM.updateMediaState rid uid mediaType enabled w)
  | TCleanupPendingOffers now => fst (WebRTCManagerM.cleanupPendingOffers now w)
  end.

(** The tracker after a history of calls, oldest first. *)
Definition trackerAfter (ops : list TrackerOp) : WebRTCManagerM.WebRTCManager :=
  foldl (λ w op, trackerRun op w) WebRTCManagerM.init ops.

(** [op] is a call [handleOffer(rid, a, b, _)]. *)
Definition isOffer (rid a b : string) (op : TrackerOp) : bool :=
  match op with
  | THandleOffer r f t _ _ _ => bool_decide (r = rid ∧ f = a ∧ t = b)
  | _ => false
  end.

Definition neverOffered (rid a b : string) (ops : list TrackerOp) : bool :=
  forallb (λ op, negb (isOffer rid a b op)) ops.

(** [uid] has an entry in the table of room [rid]. *)
Definition tracked (rid uid : string) (w : WebRTCManagerM.WebRTCManager) : bool :=
  match WebRTCManagerM.connections w !! rid with
  | Some rc => bool_decide (is_Some (rc !! uid))
  | None => false
  end.

(** A and B tracked in room R, nothing else. *)
Definition twoPeers : WebRTCManagerM.WebRTCManager :=
  trackerAfter [TAddUser "R" "A" "sA"; TAddUser "R" "B" "sB"].

(** Two offers staged at clock readings 1000 and 20000. *)
Definition twoOffers : WebRTCManagerM.WebRTCManager :=
  trackerAfter [TAddUser "R" "A" "sA"; TAddUser "R" "B" "sB";
                THandleOffer "R" "A" "B" "sdp1" 1000 1000;
                THandleOffer "R" "B" "A" "sdp2" 20000 20000].

(** Four participants tracked in room R, two of them with a ['-'] in their
    identifier. *)
Definition dashPeers : WebRTCManagerM.WebRTCManager :=
  trackerAfter [TAddUser "R" "a-b" "s1"; TAddUser "R" "c" "s2";
                TAddUser "R" "a" "s3"; TAddUser "R" "b-c" "s4"].

(** ** Further vocabulary: tracker entries, identifiers, limiter runs *)

(** The entry the tracker holds for [uid] in room [rid]. *)
Definition entryOf (rid uid : string) (w : WebRTCManagerM.WebRTCManager)
  : option WebRTCManagerM.PeerEntry :=
  match WebRTCManagerM.connections w !! rid with
  | Some rc => rc !! uid
  | None => None
  end.

(** No bucket of the tracker is empty. *)
Definition noEmptyBucket (w : WebRTCManagerM.WebRTCManager) : Prop :=
  ∀ rid rc, WebRTCManagerM.connections w !! rid = Some rc → rc ≠ ∅.

(** The separator character of the connection identifiers. *)
Definition dash : Ascii.ascii :=
  match "-" with
  | String c _ => c
  | EmptyString => Ascii.zero
  end.

(** The string contains no separator. *)
Fixpoint dashFree (s : string) : bool :=
  match s with
  | EmptyString => true
  | String c s' => if Ascii.eqb c dash then false else dashFree s'
  end.

(** The flag of a participant record that a media type names, if any. *)
Definition roomFlag (mediaType : string) (u : User) : option bool :=
  if decide (mediaType = "audio") then Some (isAudioEnabled u)
  else if decide (mediaType = "video") then Some (isVideoEnabled u)
  else if decide (mediaType = "screen") then Some (isScreenSharing u)
  else None.

(** Successive calls of [checkSocketRateLimit] for one address and event
    type, at the clock readings listed; the answers in the same order. *)
Fixpoint runChecks (address eventType : string) (maxEvents windowMs : Z)
    (times : list Z) (t : gmap string RateLimiterM.Limiter)
  : gmap string RateLimiterM.Limiter * list bool :=
  match times with
  | [] => (t, [])
  | now :: rest =>
      let '(t1, ok) :=
        RateLimiterM.checkSocketRateLimit address eventType maxEvents windowMs now t in
      let '(t2, oks) := runChecks address eventType maxEvents windowMs rest t1 in
      (t2, ok :: oks)
  end.

(** How many calls were let through. *)
Definition accepted (oks : list bool) : nat :=
  length (filter (λ b : bool, b = true) oks).

(** Everything of a room but its participants. *)
Definition roomAttributes (r : Room)
  : string * Z * option string * bool * Number * Settings :=
  (roomId r, createdAt r, createdBy r, isActive r, maxUsers r, settings r).

(** * Properties *)

Local Open Scope list_scope.

(** ** Insertion-ordered maps *)

Section omap_facts.
Context {V : Type}.
Implicit Types (m : OMap.t V) (k : string) (v : V).

Lemma omap_get_None k m : OMap.get k m = None ↔ k ∉ OMap.keys m.
Proof.
  induction m as [|[k' v'] m IH]; simpl.
  - split; [intros _; apply not_elem_of_nil | done].
  - rewrite not_elem_of_cons. destruct (decide (k' = k)) as [->|Hne].
    + split; [done | intros [? _]; done].
    + rewrite IH. split; [intros ?; split; [congruence | done] | intros [_ ?]; done].
Qed.

Lemma omap_get_Some_keys k m v : OMap.get k m = Some v → k ∈ OMap.keys m.
Proof.
  intros Hg. destruct (decide (k ∈ OMap.keys m)) as [|Hn]; [done|].
  apply omap_get_None in Hn. congruence.
Qed.

Lemma omap_has_true k m : OMap.has k m = true ↔ k ∈ OMap.keys m.
Proof.
  unfold OMap.has. destruct (OMap.get k m) eqn:Hg.
  - split; [intros _; by eapply omap_get_Some_keys | done].
  - split; [done | intros Hin; by apply omap_get_None in Hg].
Qed.

Lemma omap_set_fresh k v m : OMap.get k m = None → OMap.set k v m = m ++ [(k, v)].
Proof.
  induction m as [|[k' v'] m IH]; simpl; [done|].
  destruct (decide (k' = k)); [done|]. intros Hg. by rewrite IH.
Qed.

Lemma omap_get_set_eq k v m : OMap.get k (OMap.set k v m) = Some v.
Proof.
  induction m as [|[k' v'] m IH]; simpl.
  - by rewrite decide_True.
  - destruct (decide (k' = k)) as [->|Hne]; simpl.
    + by rewrite decide_True.
    + by rewrite decide_False.
Qed.

Lemma omap_get_set_ne k k' v m :
  k ≠ k' → OMap.get k' (OMap.set k v m) = OMap.get k' m.
Proof.
  intros Hne. induction m as [|[k0 v0] m IH]; simpl.
  - by rewrite decide_False.
  - destruct (decide (k0 = k)) as [->|Hne0]; simpl.
    + by rewrite !decide_False.
    + destruct (decide (k0 = k')); [done | apply IH].
Qed.

Lemma omap_keys_set_present k v v' m :
  OMap.get k m = Some v → OMap.keys (OMap.set k v' m) = OMap.keys m.
Proof.
  induction m as [|[k0 v0] m IH]; simpl; [done|].
  destruct (decide (k0 = k)) as [->|Hne]; simpl; [done|].
  intros Hg. by rewrite IH.
Qed.

Lemma omap_delete_notin k m : k ∉ OMap.keys m → OMap.delete k m = m.
Proof.
  induction m as [|[k' v'] m IH]; simpl; [done|].
  rewrite not_elem_of_cons. intros [Hne Hnin].
  rewrite decide_False by congruence. by rewrite IH.
Qed.

Lemma omap_get_delete_eq k m : OMap.get k (OMap.delete k m) = None.
Proof.
  induction m as [|[k' v'] m IH]; simpl; [done|].
  destruct (decide (k' = k)); simpl; [done|]. by rewrite decide_False.
Qed.

Lemma omap_get_delete_ne k k' m :
  k ≠ k' → OMap.get k' (OMap.delete k m) = OMap.get k' m.
Proof.
  intros Hne. induction m as [|[k0 v0] m IH]; simpl; [done|].
  destruct (decide (k0 = k)) as [->|Hne0]; simpl.
  - by rewrite decide_False.
  - destruct (decide (k0 = k')); [done | apply IH].
Qed.

Lemma omap_keys_delete_subseteq k m : OMap.keys (OMap.delete k m) ⊆ OMap.keys m.
Proof.
  induction m as [|[k' v'] m IH]; simpl; [done|].
  destruct (decide (k' = k)); simpl.
  - intros x Hin. apply elem_of_cons. right. by apply IH.
  - intros x. rewrite !elem_of_cons. intros [->|Hin]; [by left | right; by apply IH].
Qed.

Lemma omap_NoDup_delete k m : NoDup (OMap.keys m) → NoDup (OMap.keys (OMap.delete k m)).
Proof.
  induction m as [|[k' v'] m IH]; simpl; [done|].
  rewrite NoDup_cons. intros [Hnin Hnd].
  destruct (decide (k' = k)); simpl; [by apply IH|].
  apply NoDup_cons. split; [|by apply IH].
  intros Hin. by apply omap_keys_delete_subseteq in Hin.
Qed.

(** With distinct keys, deleting a present key removes exactly one entry. *)
Lemma omap_delete_split k v m :
  NoDup (OMap.keys m) → OMap.get k m = Some v →
  ∃ m1 m2, m = m1 ++ (k, v) :: m2 ∧ OMap.delete k m = m1 ++ m2.
Proof.
  induction m as [|[k' v'] m IH]; simpl; [done|].
  rewrite NoDup_cons. intros [Hnin Hnd].
  destruct (decide (k' = k)) as [->|Hne].
  - intros [= ->]. exists [], m. split; [done|]. simpl. by apply omap_delete_notin.
  - intros Hg. destruct (IH Hnd Hg) as (m1 & m2 & -> & Hd).
    exists ((k', v') :: m1), m2. split; [done|]. simpl. by rewrite Hd.
Qed.
End omap_facts.

(** ** Rooms: capacity and the host role *)

Section room_facts.
Implicit Types (r : Room) (u : User) (us : OMap.t User).

Lemma hostCount_app us1 us2 :
  hostCount (us1 ++ us2) = (hostCount us1 + hostCount us2)%nat.
Proof. unfold hostCount. by rewrite filter_app, length_app. Qed.

Lemma hostCount_cons k u us :
  hostCount ((k, u) :: us) =
  ((if decide (role u = host) then 1 else 0) + hostCount us)%nat.
Proof.
  unfold hostCount. rewrite filter_cons. simpl.
  destruct (decide (role u = host)); by simpl.
Qed.

Lemma hostCount_promote_first us :
  us ≠ [] → hostCount us = 0%nat → hostCount (RoomM.promote_first us) = 1%nat.
Proof.
  destruct us as [|[k u] rest]; [done|]. intros _ Hz.
  rewrite hostCount_cons in Hz. simpl. rewrite hostCount_cons. simpl.
  destruct (decide (role u = host)); lia.
Qed.

Lemma keys_promote_first us :
  OMap.keys (RoomM.promote_first us) = OMap.keys us.
Proof. by destruct us as [|[k u] rest]. Qed.

Lemma length_promote_first us : length (RoomM.promote_first us) = length us.
Proof. by destruct us as [|[k u] rest]. Qed.

(** Against a capacity that is the integer [z], the check of [addUser]
    compares integers. *)
Lemma geb_is_int (n : nat) (c : Number) (z : Z) :
  Num.is_int c z → Num.geb (Num.of_nat n) c = bool_decide (z <= Z.of_nat n).
Proof.
  destruct c as [| | |q]; simpl; try done. intros Hq.
  unfold Num.geb, Num.of_nat, Num.of_Z, Num.leb.
  case_bool_decide as Hz.
  - apply Qle_bool_iff. rewrite Hq. by rewrite <- Zle_Qle.
  - destruct (Qle_bool q (inject_Z (Z.of_nat n))) eqn:Hle; [|done].
    apply Qle_bool_iff in Hle. rewrite Hq, <- Zle_Qle in Hle. done.
Qed.

Lemma is_int_of_Z (z : Z) : Num.is_int (Num.of_Z z) z.
Proof. simpl. reflexivity. Qed.

Lemma geb_NaN (a : Number) : Num.geb a NaN = false.
Proof. by destruct a. Qed.

Lemma addUser_Ok uid info now r r' u :
  RoomM.addUser uid info now r = Ok (r', u) →
  Num.geb (Num.of_nat (OMap.size (users r))) (maxUsers r) = false ∧
  OMap.get uid (users r) = None ∧
  userId u = uid ∧
  role u = (if Nat.eqb (OMap.size (users r)) 0 then host else participant) ∧
  r' = set_users (users r ++ [(uid, u)]) r.
Proof.
  unfold RoomM.addUser, OMap.has.
  destruct (Num.geb (Num.of_nat (OMap.size (users r))) (maxUsers r)); [done|].
  destruct (OMap.get uid (users r)) eqn:Hg; [done|].
  intros [= <- <-]. simpl. by rewrite omap_set_fresh.
Qed.

Lemma addUser_Err uid info now r e :
  RoomM.addUser uid info now r = Err e →
  (e = RoomFull (maxUsers r) ∧
   Num.geb (Num.of_nat (OMap.size (users r))) (maxUsers r) = true) ∨
  (e = DuplicateParticipant ∧ uid ∈ OMap.keys (users r)).
Proof.
  unfold RoomM.addUser.
  destruct (Num.geb (Num.of_nat (OMap.size (users r))) (maxUsers r)).
  - intros [= <-]. by left.
  - destruct (OMap.has uid (users r)) eqn:Hh; [|done].
    intros [= <-]. right. split; [done | by apply omap_has_true].
Qed.

Lemma addUser_ok uid info now r r' u :
  room_ok r → RoomM.addUser uid info now r = Ok (r', u) → room_ok r'.
Proof.
  intros [Hnd Hcap Hhost] (Hlt & Hg & _ & Hrole & ->)%addUser_Ok.
  split; simpl.
  - unfold OMap.keys. rewrite map_app. simpl. apply NoDup_app.
    split; [done|]. split; [|apply NoDup_singleton].
    intros x Hx ->%list_elem_of_singleton. by apply omap_get_None in Hg.
  - intros n. unfold OMap.size in *. rewrite length_app. simpl. intros Hn.
    destruct (decide (n = length (users r))) as [->|Hne]; [done|].
    apply Hcap. lia.
  - intros _. rewrite hostCount_app, hostCount_cons. unfold hostCount at 2. simpl.
    rewrite Hrole. destruct (users r) as [|p rest] eqn:Hus; simpl.
    + done.
    + rewrite <- Hus in *. rewrite Hhost by (rewrite Hus; done). simpl. done.
Qed.

Lemma removeUser_None uid r :
  OMap.get uid (users r) = None → RoomM.removeUser uid r = (r, None).
Proof. unfold RoomM.removeUser. by intros ->. Qed.

Lemma removeUser_not_member uid r :
  uid ∉ OMap.keys (users (RoomM.removeUser uid r).1).
Proof.
  unfold RoomM.removeUser. destruct (OMap.get uid (users r)) as [user|] eqn:Hg; simpl.
  - assert (uid ∉ OMap.keys (OMap.delete uid (users r))) as Hd
      by (apply omap_get_None, omap_get_delete_eq).
    repeat case_match; try done; by rewrite keys_promote_first.
  - by apply omap_get_None.
Qed.

Lemma removeUser_keys uid r :
  OMap.keys (users (RoomM.removeUser uid r).1) = OMap.keys (OMap.delete uid (users r)).
Proof.
  unfold RoomM.removeUser. destruct (OMap.get uid (users r)) as [user|] eqn:Hg; simpl.
  - repeat case_match; try done; by rewrite keys_promote_first.
  - symmetry. f_equal. apply omap_delete_notin. by apply omap_get_None.
Qed.

Lemma removeUser_maxUsers uid r : maxUsers (RoomM.removeUser uid r).1 = maxUsers r.
Proof. unfold RoomM.removeUser. by destruct (OMap.get uid (users r)). Qed.

Lemma removeUser_ok uid r : room_ok r → room_ok (RoomM.removeUser uid r).1.
Proof.
  intros [Hnd Hcap Hhost].
  destruct (OMap.get uid (users r)) as [user|] eqn:Hg;
    [|by rewrite removeUser_None].
  destruct (omap_delete_split _ _ _ Hnd Hg) as (m1 & m2 & Hus & Hdel).
  assert (hostCount (users r) = 1%nat) as Hone by (apply Hhost; rewrite Hus; by destruct m1).
  assert (S (length (OMap.delete uid (users r))) = length (users r)) as Hlen.
  { rewrite Hdel, Hus, !length_app. simpl. lia. }
  assert (hostCount (OMap.delete uid (users r)) =
          if decide (role user = host) then 0%nat else 1%nat) as Hcount.
  { rewrite Hdel. rewrite Hus, hostCount_app, hostCount_cons in Hone.
    rewrite hostCount_app. destruct (decide (role user = host)); lia. }
  split.
  - rewrite removeUser_keys. by apply omap_NoDup_delete.
  - rewrite removeUser_maxUsers. intros n Hn. apply Hcap.
    unfold OMap.size in *.
    rewrite <- (length_map fst) in Hn.
    fold (OMap.keys (users (RoomM.removeUser uid r).1)) in Hn.
    rewrite removeUser_keys in Hn. unfold OMap.keys in Hn. rewrite length_map in Hn. lia.
  - unfold RoomM.removeUser. rewrite Hg. simpl. unfold OMap.size.
    destruct (decide (role user = host)).
    + destruct (Nat.ltb_spec 0 (length (OMap.delete uid (users r)))) as [Hpos|Hz].
      * intros _. apply hostCount_promote_first; [|done].
        intros Hnil. rewrite Hnil in Hpos. simpl in Hpos. lia.
      * intros Hne. destruct (OMap.delete uid (users r)); [done | simpl in Hz; lia].
    + done.
Qed.
End room_facts.

(** ** The room manager: what [leaveRoom] does *)

Section leave_facts.
Implicit Types (m : RoomManager) (uid rid : string) (ref : nat) (room : Room).

Lemma truthy_nonempty (s : string) : s ≠ "" → truthy s = true.
Proof. by destruct s. Qed.

Lemma truthy_true (s : string) : truthy s = true → s ≠ "".
Proof. by destruct s. Qed.

Lemma leaveRoom_found uid rid ref room m :
  userRoomMap m !! uid = Some rid → rid ≠ "" →
  rooms m !! rid = Some ref → heap m !! ref = Some room →
  RoomManagerM.leaveRoom uid m =
    (left_state uid rid ref room m, Some (ref, (RoomM.removeUser uid room).2)).
Proof.
  intros Hu Hne Hr Hh. unfold RoomManagerM.leaveRoom, RoomManagerM.getRoom,
    RoomManagerM.deref, left_state.
  rewrite Hu, (truthy_nonempty _ Hne), Hr, Hh. simpl.
  by destruct (RoomM.removeUser uid room).
Qed.

(** Either nothing happens, or the index led to a room object. *)
Lemma leaveRoom_spec uid m :
  (RoomManagerM.leaveRoom uid m = (m, None) ∧
   ∀ rid ref room, userRoomMap m !! uid = Some rid → rid ≠ "" →
                   rooms m !! rid = Some ref → heap m !! ref = Some room → False) ∨
  (∃ rid ref room,
     userRoomMap m !! uid = Some rid ∧ rid ≠ "" ∧
     rooms m !! rid = Some ref ∧ heap m !! ref = Some room ∧
     RoomManagerM.leaveRoom uid m =
       (left_state uid rid ref room m, Some (ref, (RoomM.removeUser uid room).2))).
Proof.
  destruct (userRoomMap m !! uid) as [rid|] eqn:Hu.
  2:{ left. unfold RoomManagerM.leaveRoom. rewrite Hu. split; [done|]. by intros. }
  destruct (truthy rid) eqn:Ht.
  2:{ left. unfold RoomManagerM.leaveRoom. rewrite Hu, Ht. split; [done|].
      intros ??? [= <-] Hne. by rewrite (truthy_nonempty _ Hne) in Ht. }
  apply truthy_true in Ht.
  destruct (rooms m !! rid) as [ref|] eqn:Hr.
  2:{ left. unfold RoomManagerM.leaveRoom, RoomManagerM.getRoom.
      rewrite Hu, (truthy_nonempty _ Ht), Hr. split; [done|].
      intros ??? [= <-] _ ?. congruence. }
  destruct (heap m !! ref) as [room|] eqn:Hh.
  2:{ left. unfold RoomManagerM.leaveRoom, RoomManagerM.getRoom, RoomManagerM.deref.
      rewrite Hu, (truthy_nonempty _ Ht), Hr, Hh. split; [done|].
      intros ??? [= <-] _ ? ?. congruence. }
  right. exists rid, ref, room. repeat split; try done.
  by apply leaveRoom_found.
Qed.

Lemma left_state_rooms_Some uid rid ref room m rid' ref' :
  rooms (left_state uid rid ref room m) !! rid' = Some ref' →
  rooms m !! rid' = Some ref'.
Proof.
  unfold left_state. simpl. destruct (RoomM.isEmpty _); [|done].
  rewrite lookup_delete. by case_decide.
Qed.

Lemma left_state_rooms_ne uid rid ref room m rid' :
  rid ≠ rid' → rooms (left_state uid rid ref room m) !! rid' = rooms m !! rid'.
Proof.
  intros Hne. unfold left_state. simpl. destruct (RoomM.isEmpty _); [|done].
  by rewrite lookup_delete_ne.
Qed.

Lemma leaveRoom_rooms_Some uid m rid ref :
  rooms (RoomManagerM.leaveRoom uid m).1 !! rid = Some ref → rooms m !! rid = Some ref.
Proof.
  destruct (leaveRoom_spec uid m) as [[-> _]|(r & f & ro & _ & _ & _ & _ & ->)];
    [done|]. apply left_state_rooms_Some.
Qed.

Lemma leaveRoom_heap_length uid m :
  length (heap (RoomManagerM.leaveRoom uid m).1) = length (heap m).
Proof.
  destruct (leaveRoom_spec uid m) as [[-> _]|(r & f & ro & _ & _ & _ & _ & ->)];
    [done|]. simpl. apply length_insert.
Qed.

(** The object fetched by [joinRoom] is still there after the leave step. *)
Lemma leaveRoom_deref_is_Some uid m ref :
  is_Some (RoomManagerM.deref ref m) →
  is_Some (RoomManagerM.deref ref (RoomManagerM.leaveRoom uid m).1).
Proof.
  unfold RoomManagerM.deref. intros Hs%lookup_lt_is_Some.
  apply lookup_lt_is_Some. by rewrite leaveRoom_heap_length.
Qed.

Lemma leaveRoom_Inv uid m : Inv m → Inv (RoomManagerM.leaveRoom uid m).1.
Proof.
  intros HI.
  destruct (leaveRoom_spec uid m)
    as [[-> _]|(rid & ref & room & Hu & Hne & Hr & Hh & ->)]; [done|].
  destruct HI as [Hdir Hinj Hidx Hmem Hrooms]. simpl. split.
  - intros rid' ref' Hl%left_state_rooms_Some.
    destruct (Hdir _ _ Hl) as [? [x Hx]]. split; [done|]. simpl.
    apply lookup_lt_is_Some. rewrite length_insert. by eapply lookup_lt_Some.
  - intros r1 r2 ref' H1%left_state_rooms_Some H2%left_state_rooms_Some. eauto.
  - simpl. intros u r. rewrite lookup_delete. case_decide; [done|]. eauto.
  - intros rid' ref' room' u Hl Hh' Hin.
    pose proof (left_state_rooms_Some _ _ _ _ _ _ _ Hl) as Hl0. simpl in *.
    destruct (decide (ref' = ref)) as [->|Hneq].
    + assert (rid' = rid) as -> by eauto.
      rewrite list_lookup_insert_eq in Hh' by (by eapply lookup_lt_Some).
      injection Hh' as <-.
      assert (u ≠ uid) as Hu' by (intros ->; by apply (removeUser_not_member uid room)).
      rewrite lookup_delete_ne by done.
      eapply Hmem; [done..|].
      rewrite removeUser_keys in Hin. by apply omap_keys_delete_subseteq in Hin.
    + rewrite list_lookup_insert_ne in Hh' by done.
      pose proof (Hmem _ _ _ _ Hl0 Hh' Hin) as Hu'.
      assert (u ≠ uid) as Hneu.
      { intros ->. rewrite Hu in Hu'. injection Hu' as ->. congruence. }
      by rewrite lookup_delete_ne.
  - intros ref' room'. simpl. destruct (decide (ref' = ref)) as [->|Hneq].
    + rewrite list_lookup_insert_eq by (by eapply lookup_lt_Some).
      intros [= <-]. destruct (Hrooms _ _ Hh) as (Hok & Hact).
      split; [by apply removeUser_ok|].
      unfold RoomM.removeUser. by destruct (OMap.get uid (users room)).
    + rewrite list_lookup_insert_ne by done. apply Hrooms.
Qed.
End leave_facts.

(** ** The room manager: membership and the invariant *)

Section manager_facts.
Implicit Types (m : RoomManager) (uid rid : string) (ref : nat) (room : Room).

Lemma member_true uid rid m :
  member uid rid m = true ↔
  ∃ ref room, rooms m !! rid = Some ref ∧ heap m !! ref = Some room ∧
              uid ∈ OMap.keys (users room).
Proof.
  unfold member, RoomManagerM.roomOf, RoomManagerM.getRoom, RoomManagerM.deref.
  split.
  - destruct (rooms m !! rid) as [ref|]; [|done].
    destruct (heap m !! ref) as [room|] eqn:Hh; [|done].
    intros Hhas. apply omap_has_true in Hhas. exists ref, room. auto.
  - intros (ref & room & -> & -> & Hin). by apply omap_has_true.
Qed.

Lemma member_false uid rid m :
  member uid rid m = false ↔
  ∀ ref room, rooms m !! rid = Some ref → heap m !! ref = Some room →
              uid ∉ OMap.keys (users room).
Proof.
  split.
  - intros Hf ref room Hr Hh Hin.
    assert (member uid rid m = true) by (apply member_true; eauto). congruence.
  - intros Hall. destruct (member uid rid m) eqn:Hm; [|done].
    apply member_true in Hm as (ref & room & Hr & Hh & Hin). by destruct (Hall _ _ Hr Hh).
Qed.

Lemma member_index uid rid m :
  Inv m → member uid rid m = true → userRoomMap m !! uid = Some rid.
Proof.
  intros HI (ref & room & Hr & Hh & Hin)%member_true. by eapply (inv_member m HI).
Qed.

(** After the leave step the participant is in no room of the directory. *)
Lemma leaveRoom_no_member uid m rid :
  Inv m → member uid rid (RoomManagerM.leaveRoom uid m).1 = false.
Proof.
  intros HI. apply member_false. intros ref' room' Hr' Hh' Hin.
  destruct (leaveRoom_spec uid m)
    as [[Heq Hnone]|(r & ref & room & Hu & Hne & Hr & Hh & Heq)];
    rewrite Heq in Hr', Hh'.
  - simpl in *. pose proof (inv_member m HI _ _ _ _ Hr' Hh' Hin) as Hu.
    destruct (inv_dir m HI _ _ Hr') as [Hne _].
    exact (Hnone _ _ _ Hu Hne Hr' Hh').
  - apply (left_state_rooms_Some uid r ref room m) in Hr'. simpl in *.
    destruct (decide (ref' = ref)) as [->|Hneq].
    + rewrite list_lookup_insert_eq in Hh' by (by eapply lookup_lt_Some).
      injection Hh' as <-. by apply (removeUser_not_member uid room).
    + rewrite list_lookup_insert_ne in Hh' by done.
      pose proof (inv_member m HI _ _ _ _ Hr' Hh' Hin) as Hu'.
      rewrite Hu in Hu'. injection Hu' as ->. congruence.
Qed.

(** A member's leave step clears its index entry. *)
Lemma leaveRoom_member_index uid rid m :
  Inv m → member uid rid m = true →
  userRoomMap (RoomManagerM.leaveRoom uid m).1 !! uid = None.
Proof.
  intros HI Hm. pose proof (member_index _ _ _ HI Hm) as Hu.
  apply member_true in Hm as (ref & room & Hr & Hh & Hin).
  destruct (inv_dir m HI _ _ Hr) as [Hne _].
  rewrite (leaveRoom_found _ _ _ _ _ Hu Hne Hr Hh). simpl. apply lookup_delete_eq.
Qed.

(** The leave step only touches the room the index names. *)
Lemma leaveRoom_rooms_other uid rid m :
  userRoomMap m !! uid ≠ Some rid →
  rooms (RoomManagerM.leaveRoom uid m).1 !! rid = rooms m !! rid.
Proof.
  intros Hn. destruct (leaveRoom_spec uid m)
    as [[-> _]|(r & ref & room & Hu & Hne & Hr & Hh & ->)]; [done|].
  apply left_state_rooms_ne. congruence.
Qed.

(** A non-empty room the participant is not in is left as it is. *)
Lemma leaveRoom_frame uid rid ref room m :
  Inv m → rooms m !! rid = Some ref → heap m !! ref = Some room →
  uid ∉ OMap.keys (users room) → users room ≠ [] →
  rooms (RoomManagerM.leaveRoom uid m).1 !! rid = Some ref ∧
  heap (RoomManagerM.leaveRoom uid m).1 !! ref = Some room.
Proof.
  intros HI Hr Hh Hnin Hne.
  destruct (leaveRoom_spec uid m)
    as [[-> _]|(r & ref' & room' & Hu & Hner & Hr' & Hh' & ->)]; [done|].
  destruct (decide (ref' = ref)) as [->|Hneq].
  - assert (r = rid) as -> by (by eapply (inv_inj m HI)).
    rewrite Hh in Hh'. injection Hh' as <-.
    apply omap_get_None in Hnin. unfold left_state.
    rewrite (removeUser_None _ _ Hnin). simpl.
    unfold RoomM.isEmpty, OMap.size. destruct (users room) eqn:Hus; [done|]. simpl.
    split; [done|]. rewrite list_lookup_insert_eq by (by eapply lookup_lt_Some). done.
  - split.
    + rewrite <- Hr. apply left_state_rooms_ne. intros ->. congruence.
    + simpl. by rewrite list_lookup_insert_ne.
Qed.

(** A room object the participant is not in is left as it is, whether the
    directory keeps it or not. *)
Lemma leaveRoom_frame_heap uid ref room m :
  heap m !! ref = Some room → uid ∉ OMap.keys (users room) →
  heap (RoomManagerM.leaveRoom uid m).1 !! ref = Some room.
Proof.
  intros Hh Hnin.
  destruct (leaveRoom_spec uid m)
    as [[-> _]|(r & ref' & room' & Hu & Hner & Hr' & Hh' & ->)]; [done|].
  simpl. destruct (decide (ref' = ref)) as [->|Hneq].
  - rewrite Hh in Hh'. injection Hh' as <-.
    apply omap_get_None in Hnin. rewrite (removeUser_None _ _ Hnin). simpl.
    apply list_lookup_insert_eq. by eapply lookup_lt_Some.
  - by rewrite list_lookup_insert_ne.
Qed.
End manager_facts.

(** ** The room manager: every operation keeps the invariant *)

Section invariant_facts.
Implicit Types (m : RoomManager) (uid rid : string) (ref : nat) (room : Room).

Lemma init_Inv : Inv RoomManagerM.init.
Proof. split; simpl; intros *; by rewrite ?lookup_empty, ?lookup_nil. Qed.

(** What [configure] writes: the capacity, and the password slot when
    [requirePassword] is set. *)
Lemma configure_spec opts room :
  let room' := RoomManagerM.configure opts room in
  roomId room' = roomId room ∧ users room' = users room ∧
  createdAt room' = createdAt room ∧ createdBy room' = createdBy room ∧
  isActive room' = isActive room ∧
  maxUsers room' =
    (if req_truthy (optMaxUsers opts)
     then Num.min (req_toNumber (optMaxUsers opts)) (Num.of_Z 50)
     else maxUsers room) ∧
  requirePassword (settings room') =
    (optRequirePassword opts || requirePassword (settings room)) ∧
  password (settings room') =
    (if optRequirePassword opts then optPassword opts else password (settings room)).
Proof.
  unfold RoomManagerM.configure.
  destruct (req_truthy (optMaxUsers opts)); by destruct (optRequirePassword opts).
Qed.

Lemma room_ok_empty room : users room = [] → room_ok room.
Proof.
  intros Hnil. split; rewrite Hnil; [apply NoDup_nil_2 | | done].
  intros n Hn. simpl in Hn. lia.
Qed.

(** With [null] for [settings], [createRoom] throws and changes nothing. *)
Lemma createRoom_null uuid now by_ m :
  RoomManagerM.createRoom uuid now by_ SettingsNull m =
    (m, Err (CannotReadOfNull "maxUsers")).
Proof. done. Qed.

(** With anything else it stores the configured room under [uuid] and returns
    it. *)
Lemma createRoom_object uuid now by_ opts m :
  ∃ ref,
    RoomManagerM.createRoom uuid now by_ (SettingsObject opts) m =
      ({| heap := heap m ++ [RoomManagerM.configure opts (RoomM.new uuid by_ now)];
          rooms := <[uuid := ref]> (rooms m);
          userRoomMap := userRoomMap m |}, Ok ref) ∧
    ref = length (heap m) ∧
    RoomManagerM.getRoom uuid
      (RoomManagerM.createRoom uuid now by_ (SettingsObject opts) m).1 = Some ref ∧
    RoomManagerM.deref ref
      (RoomManagerM.createRoom uuid now by_ (SettingsObject opts) m).1 =
      Some (RoomManagerM.configure opts (RoomM.new uuid by_ now)).
Proof.
  exists (length (heap m)). split; [done|]. split; [done|].
  unfold RoomManagerM.getRoom, RoomManagerM.deref. simpl. split.
  - apply lookup_insert_eq.
  - by rewrite lookup_app_r, Nat.sub_diag by lia.
Qed.

Lemma createRoom_Inv uuid now by_ settings m :
  uuid ≠ "" → Inv m → Inv (RoomManagerM.createRoom uuid now by_ settings m).1.
Proof.
  intros Hne HI. destruct settings as [|opts]; [done|].
  destruct HI as [Hdir Hinj Hidx Hmem Hrooms].
  destruct (configure_spec opts (RoomM.new uuid by_ now))
    as (_ & Hnil & _ & _ & Hact & _).
  unfold RoomManagerM.createRoom. simpl in *.
  set (room := RoomManagerM.configure opts _) in *.
  assert (∀ rid ref, rooms m !! rid = Some ref → (ref < length (heap m))%nat) as Hlt.
  { intros rid ref Hr. destruct (Hdir _ _ Hr) as [_ [x Hx]]. by eapply lookup_lt_Some. }
  split; simpl.
  - intros rid ref. rewrite lookup_insert. case_decide as Hk.
    + intros [= <-]. subst rid. split; [done|].
      rewrite lookup_app_r, Nat.sub_diag by lia. by eexists.
    + intros Hr. destruct (Hdir _ _ Hr) as [? ?]. split; [done|].
      rewrite lookup_app_l by eauto. done.
  - intros r1 r2 ref. rewrite !lookup_insert.
    repeat case_decide; subst; try done.
    + intros [= <-] Hr%Hlt. lia.
    + intros Hr%Hlt [= <-]. lia.
    + eauto.
  - done.
  - intros rid ref room' u. rewrite lookup_insert. case_decide as Hk.
    + intros [= <-]. rewrite lookup_app_r, Nat.sub_diag by lia.
      intros [= <-]. rewrite Hnil. by intros ?%elem_of_nil.
    + intros Hr. rewrite lookup_app_l by eauto. eauto.
  - intros ref room'. destruct (decide (ref < length (heap m))%nat) as [Hl|Hge].
    + rewrite lookup_app_l by done. apply Hrooms.
    + rewrite lookup_app_r by lia.
      destruct (ref - length (heap m))%nat as [|k]; simpl; [|by rewrite lookup_nil].
      intros [= <-]. split; [by apply room_ok_empty | done].
Qed.
(** The state after a join that got through [addUser]. *)
Lemma joinRoom_Ok rid uid info pw now m m' ref u :
  RoomManagerM.joinRoom rid uid info pw now m = (m', Ok (ref, u)) →
  ∃ room room1 room2,
    rooms m !! rid = Some ref ∧ heap m !! ref = Some room ∧
    RoomM.validatePassword (RoomManagerM.passwordOrNull pw) room = true ∧
    heap (RoomManagerM.leaveRoom uid m).1 !! ref = Some room1 ∧
    RoomM.addUser uid info now room1 = Ok (room2, u) ∧
    m' = joined_state rid uid ref room2 (RoomManagerM.leaveRoom uid m).1.
Proof.
  unfold RoomManagerM.joinRoom, RoomManagerM.getRoom, RoomManagerM.deref.
  destruct (rooms m !! rid) as [ref0|] eqn:Hr; [|done].
  destruct (heap m !! ref0) as [room|] eqn:Hh; [|done].
  destruct (isActive room); simpl; [|done].
  destruct (RoomM.validatePassword _ room) eqn:Hpw; simpl; [|done].
  destruct (heap (RoomManagerM.leaveRoom uid m).1 !! ref0) as [room1|] eqn:Hh1; [|done].
  destruct (RoomM.addUser uid info now room1) as [[room2 u']|e] eqn:Ha; [|done].
  intros [= <- <- <-]. by exists room, room1, room2.
Qed.

(** A join that throws from [addUser] leaves the state of the leave step. *)
Lemma joinRoom_Err rid uid info pw now m m' e :
  RoomManagerM.joinRoom rid uid info pw now m = (m', Err e) →
  (m' = m ∧ (e = RoomNotFound ∨ e = RoomInactive ∨ e = InvalidPassword)) ∨
  (m' = (RoomManagerM.leaveRoom uid m).1 ∧ e = RoomNotFound) ∨
  (m' = (RoomManagerM.leaveRoom uid m).1 ∧
   ∃ ref room1, rooms m !! rid = Some ref ∧
     heap (RoomManagerM.leaveRoom uid m).1 !! ref = Some room1 ∧
     RoomM.addUser uid info now room1 = Err e).
Proof.
  unfold RoomManagerM.joinRoom, RoomManagerM.getRoom, RoomManagerM.deref.
  destruct (rooms m !! rid) as [ref0|] eqn:Hr; [|intros [= <- <-]; auto].
  destruct (heap m !! ref0) as [room|] eqn:Hh; [|intros [= <- <-]; auto].
  destruct (isActive room); simpl; [|intros [= <- <-]; auto].
  destruct (RoomM.validatePassword _ room) eqn:Hpw; simpl; [|intros [= <- <-]; auto 6].
  destruct (heap (RoomManagerM.leaveRoom uid m).1 !! ref0) as [room1|] eqn:Hh1;
    [|intros [= <- <-]; auto].
  destruct (RoomM.addUser uid info now room1) as [[room2 u']|e'] eqn:Ha; [done|].
  intros [= <- <-]. right. right. split; [done|]. by exists ref0, room1.
Qed.

Lemma joined_state_Inv rid uid info now ref room1 room2 u m :
  Inv m → rooms m !! rid = Some ref →
  heap (RoomManagerM.leaveRoom uid m).1 !! ref = Some room1 →
  RoomM.addUser uid info now room1 = Ok (room2, u) →
  Inv (joined_state rid uid ref room2 (RoomManagerM.leaveRoom uid m).1).
Proof.
  intros HI Hr Hh1 Ha.
  pose proof (leaveRoom_Inv uid m HI) as HI1.
  pose proof (leaveRoom_no_member uid m) as Hnm.
  set (m1 := (RoomManagerM.leaveRoom uid m).1) in *.
  pose proof (addUser_Ok _ _ _ _ _ _ Ha) as (Hlt & Hg & _ & Hrole & Hr2).
  split; simpl.
  - intros rid' ref' Hr'. destruct (inv_dir m1 HI1 _ _ Hr') as [? [x Hx]].
    split; [done|]. apply lookup_lt_is_Some. rewrite length_insert.
    by eapply lookup_lt_Some.
  - apply (inv_inj m1 HI1).
  - intros x r. rewrite lookup_insert. case_decide.
    + intros [= <-]. by destruct (inv_dir m HI _ _ Hr).
    + apply (inv_index m1 HI1).
  - intros rid' ref' room' x Hr' Hh' Hin.
    destruct (decide (ref' = ref)) as [->|Hneq].
    + assert (rid' = rid) as ->.
      { apply leaveRoom_rooms_Some in Hr'. by eapply (inv_inj m HI). }
      rewrite list_lookup_insert_eq in Hh' by (by eapply lookup_lt_Some).
      injection Hh' as <-. rewrite Hr2 in Hin. simpl in Hin.
      unfold OMap.keys in Hin. rewrite map_app in Hin. simpl in Hin.
      apply elem_of_app in Hin as [Hin|Hx];
        [|apply list_elem_of_singleton in Hx as ->].
      * assert (x ≠ uid) by (intros ->; by apply omap_get_None in Hg).
        rewrite lookup_insert_ne by done. by eapply (inv_member m1 HI1).
      * apply lookup_insert_eq.
    + rewrite list_lookup_insert_ne in Hh' by done.
      assert (x ≠ uid) as Hne.
      { intros ->. specialize (Hnm rid' HI).
        assert (member uid rid' m1 = true) by (apply member_true; eauto). congruence. }
      rewrite lookup_insert_ne by done. by eapply (inv_member m1 HI1).
  - intros ref' room'. destruct (decide (ref' = ref)) as [->|Hneq].
    + rewrite list_lookup_insert_eq by (by eapply lookup_lt_Some).
      intros [= <-]. destruct (inv_rooms m1 HI1 _ _ Hh1) as (Hok & Hact).
      split; [by eapply addUser_ok|]. by rewrite Hr2.
    + rewrite list_lookup_insert_ne by done. apply (inv_rooms m1 HI1).
Qed.

Lemma joinRoom_Inv rid uid info pw now m :
  Inv m → Inv (RoomManagerM.joinRoom rid uid info pw now m).1.
Proof.
  intros HI.
  destruct (RoomManagerM.joinRoom rid uid info pw now m) as [m' [[ref u]|e]] eqn:Hj.
  - apply joinRoom_Ok in Hj as (room & room1 & room2 & Hr & Hh & _ & Hh1 & Ha & ->).
    by eapply joined_state_Inv.
  - apply joinRoom_Err in Hj as [[-> _]|[[-> _]|[-> _]]];
      simpl; [done | by apply leaveRoom_Inv..].
Qed.
Lemma hostCount_set_same_role k (u u' : User) (us : OMap.t User) :
  OMap.get k us = Some u → role u' = role u →
  hostCount (OMap.set k u' us) = hostCount us.
Proof.
  intros Hg Hrole. induction us as [|[k0 u0] us IH]; simpl in *; [done|].
  destruct (decide (k0 = k)) as [->|Hne].
  - injection Hg as ->. rewrite !hostCount_cons. by rewrite Hrole.
  - rewrite !hostCount_cons. by rewrite IH.
Qed.

Lemma updateUserMedia_room uid mediaType enabled room :
  let room' := (RoomM.updateUserMedia uid mediaType enabled room).1 in
  OMap.keys (users room') = OMap.keys (users room) ∧
  hostCount (users room') = hostCount (users room) ∧
  isActive room' = isActive room ∧ maxUsers room' = maxUsers room.
Proof.
  unfold RoomM.updateUserMedia.
  destruct (OMap.get uid (users room)) as [u|] eqn:Hg; simpl; [|done].
  split; [by eapply omap_keys_set_present|]. split; [|done].
  eapply hostCount_set_same_role; [done|]. by repeat case_decide.
Qed.

Lemma keys_nil_iff {V} (us : OMap.t V) : OMap.keys us = [] ↔ us = [].
Proof. by destruct us. Qed.

Lemma updateUserMedia_room_ok uid mediaType enabled room :
  room_ok room → room_ok (RoomM.updateUserMedia uid mediaType enabled room).1.
Proof.
  intros [Hnd Hcap Hhost].
  destruct (updateUserMedia_room uid mediaType enabled room) as (Hk & Hc & _ & Hmax).
  assert (OMap.size (users (RoomM.updateUserMedia uid mediaType enabled room).1) =
          OMap.size (users room)) as Hsz.
  { unfold OMap.size. rewrite <- !(length_map fst). unfold OMap.keys in Hk. by rewrite Hk. }
  split.
  - by rewrite Hk.
  - by rewrite Hsz, Hmax.
  - intros Hne. rewrite Hc. apply Hhost. intros Hnil. apply Hne.
    apply keys_nil_iff. rewrite Hk. by apply keys_nil_iff.
Qed.

Lemma updateUserMedia_Inv uid mediaType enabled m :
  Inv m → Inv (RoomManagerM.updateUserMedia uid mediaType enabled m).1.
Proof.
  intros HI. unfold RoomManagerM.updateUserMedia, RoomManagerM.deref.
  destruct (RoomManagerM.getUserRoom uid m) as [ref|]; [|done].
  destruct (heap m !! ref) as [room|] eqn:Hh; [|done].
  destruct (RoomM.updateUserMedia uid mediaType enabled room) as [room' ou] eqn:Hup.
  destruct (updateUserMedia_room uid mediaType enabled room) as (Hk & Hc & Hact & Hmax).
  pose proof (updateUserMedia_room_ok uid mediaType enabled room) as Hok.
  rewrite Hup in Hk, Hc, Hact, Hmax, Hok. simpl in *.
  destruct HI as [Hdir Hinj Hidx Hmem Hrooms]. split; simpl; try done.
  - intros rid ref' Hr. destruct (Hdir _ _ Hr) as [? [x Hx]]. split; [done|].
    apply lookup_lt_is_Some. rewrite length_insert. by eapply lookup_lt_Some.
  - intros rid ref' room0 x Hr. destruct (decide (ref' = ref)) as [->|Hneq].
    + rewrite list_lookup_insert_eq by (by eapply lookup_lt_Some).
      intros [= <-]. rewrite Hk. by eapply Hmem.
    + rewrite list_lookup_insert_ne by done. by eapply Hmem.
  - intros ref' room0. destruct (decide (ref' = ref)) as [->|Hneq].
    + rewrite list_lookup_insert_eq by (by eapply lookup_lt_Some).
      intros [= <-]. destruct (Hrooms _ _ Hh) as (? & ?).
      split; [by apply Hok|]. by rewrite Hact.
    + rewrite list_lookup_insert_ne by done. apply Hrooms.
Qed.

Lemma foldl_delete_lookup {V} (l : list string) (d : gmap string V) k :
  foldl (λ acc c, delete c acc) d l !! k = if decide (k ∈ l) then None else d !! k.
Proof.
  revert d. induction l as [|x l IH]; intros d; cbn [foldl].
  - rewrite decide_False; [done | apply not_elem_of_nil].
  - rewrite IH. destruct (decide (k ∈ l)) as [Hin|Hnin].
    + rewrite decide_True; [done | by apply elem_of_cons; right].
    + rewrite lookup_delete. destruct (decide (x = k)) as [->|Hne].
      * rewrite decide_True; [done | apply list_elem_of_here].
      * rewrite decide_False; [done|]. rewrite elem_of_cons. by intros [->|?].
Qed.

Lemma foldl_delete_Some {V} (l : list string) (d : gmap string V) k v :
  foldl (λ acc c, delete c acc) d l !! k = Some v → d !! k = Some v.
Proof. rewrite foldl_delete_lookup. by case_decide. Qed.

Lemma cleanupEmptyRooms_Inv m : Inv m → Inv (RoomManagerM.cleanupEmptyRooms m).
Proof.
  intros [Hdir Hinj Hidx Hmem Hrooms]. unfold RoomManagerM.cleanupEmptyRooms.
  split; simpl; try done.
  - intros rid ref Hr%foldl_delete_Some. eauto.
  - intros r1 r2 ref H1%foldl_delete_Some H2%foldl_delete_Some. eauto.
  - intros rid ref room x Hr%foldl_delete_Some. eauto.
Qed.

Lemma run_Inv op m : op_valid op → Inv m → Inv (run op m).
Proof.
  destruct op; simpl; intros Hv HI.
  - by apply createRoom_Inv.
  - by apply joinRoom_Inv.
  - by apply leaveRoom_Inv.
  - by apply updateUserMedia_Inv.
  - by apply cleanupEmptyRooms_Inv.
Qed.

Lemma reachable_Inv m : reachable m → Inv m.
Proof.
  induction 1 as [|m op _ IH Hv]; [apply init_Inv | by apply run_Inv].
Qed.
End invariant_facts.

(** ** The room manager: claims *)

Section manager_claims.
Implicit Types (m : RoomManager) (uid rid : string) (ref : nat) (room : Room).

(** [joinRoom] once its three guards are passed. *)
Lemma joinRoom_guards_passed rid uid info pw now ref room room1 m :
  rooms m !! rid = Some ref → heap m !! ref = Some room →
  isActive room = true →
  RoomM.validatePassword (RoomManagerM.passwordOrNull pw) room = true →
  heap (RoomManagerM.leaveRoom uid m).1 !! ref = Some room1 →
  RoomManagerM.joinRoom rid uid info pw now m =
    match RoomM.addUser uid info now room1 with
    | Ok (room2, u) =>
        (joined_state rid uid ref room2 (RoomManagerM.leaveRoom uid m).1, Ok (ref, u))
    | Err e => ((RoomManagerM.leaveRoom uid m).1, Err e)
    end.
Proof.
  intros Hr Hh Hact Hpw Hh1.
  unfold RoomManagerM.joinRoom, RoomManagerM.getRoom, RoomManagerM.deref.
  rewrite Hr, Hh, Hact, Hpw. simpl. rewrite Hh1.
  by destruct (RoomM.addUser uid info now room1) as [[room2 u]|e].
Qed.

Lemma roomOf_Some rid room m :
  RoomManagerM.roomOf rid m = Some room ↔
  ∃ ref, rooms m !! rid = Some ref ∧ heap m !! ref = Some room.
Proof.
  unfold RoomManagerM.roomOf, RoomManagerM.getRoom, RoomManagerM.deref. split.
  - destruct (rooms m !! rid) as [ref|]; [|done]. intros Hh. by exists ref.
  - by intros (ref & -> & ->).
Qed.

Lemma removeUser_host_leaves uid leaver k v rest room :
  OMap.get uid (users room) = Some leaver → role leaver = host →
  OMap.delete uid (users room) = (k, v) :: rest →
  RoomM.removeUser uid room =
    (set_users ((k, set_role host v) :: rest) room, Some leaver).
Proof.
  intros Hg Hrole Hdel. unfold RoomM.removeUser. rewrite Hg, Hdel. simpl.
  by rewrite decide_True.
Qed.

(** C3. In every reachable state every non-empty room, whether the directory
    still holds it or not, has exactly one participant with role [host]
    (its participants have distinct identifiers and one record is a host); the
    participant added to an empty room gets role [host]; and when the host is
    removed while others remain, the first of the remaining participants in
    insertion order becomes host, also through [leaveRoom]. *)
Theorem host_role_unique (m : RoomManager) (Hm : reachable m) :
  (∀ ref room, RoomManagerM.deref ref m = Some room → users room ≠ [] →
     NoDup (OMap.keys (users room)) ∧ hostCount (users room) = 1%nat) ∧
  (∀ rid room, RoomManagerM.roomOf rid m = Some room → users room ≠ [] →
     NoDup (OMap.keys (users room)) ∧ hostCount (users room) = 1%nat) ∧
  (∀ uid info now room room' u,
     users room = [] → RoomM.addUser uid info now room = Ok (room', u) →
     role u = host ∧ users room' = [(uid, u)]) ∧
  (∀ uid leaver k v rest room,
     OMap.get uid (users room) = Some leaver → role leaver = host →
     OMap.delete uid (users room) = (k, v) :: rest →
     RoomM.removeUser uid room =
       (set_users ((k, set_role host v) :: rest) room, Some leaver)) ∧
  (∀ rid uid leaver k v rest room,
     RoomManagerM.roomOf rid m = Some room →
     OMap.get uid (users room) = Some leaver → role leaver = host →
     OMap.delete uid (users room) = (k, v) :: rest →
     RoomManagerM.roomOf rid (RoomManagerM.leaveRoom uid m).1 =
       Some (set_users ((k, set_role host v) :: rest) room)).
Proof.
  pose proof (reachable_Inv m Hm) as HI.
  assert (∀ ref room, RoomManagerM.deref ref m = Some room → users room ≠ [] →
            NoDup (OMap.keys (users room)) ∧ hostCount (users room) = 1%nat) as Hheap.
  { intros ref room Hh Hne. destruct (inv_rooms m HI _ _ Hh) as [Hok _].
    split; [apply (ok_nodup room Hok) | by apply (ok_host room Hok)]. }
  split; [done|]. split.
  { intros rid room (ref & _ & Hh)%roomOf_Some. by apply (Hheap ref). }
  split.
  { intros uid info now room room' u Hnil (_ & _ & _ & Hrole & ->)%addUser_Ok.
    rewrite Hnil in *. by simpl in *. }
  split; [intros *; apply removeUser_host_leaves|].
  intros rid uid leaver k v rest room (ref & Hr & Hh)%roomOf_Some Hg Hrole Hdel.
  assert (userRoomMap m !! uid = Some rid) as Hu.
  { eapply (inv_member m HI); [done..|]. by eapply omap_get_Some_keys. }
  destruct (inv_dir m HI _ _ Hr) as [Hne _].
  rewrite (leaveRoom_found _ _ _ _ _ Hu Hne Hr Hh). simpl.
  apply roomOf_Some. exists ref. unfold left_state.
  rewrite (removeUser_host_leaves _ _ _ _ _ _ Hg Hrole Hdel). simpl.
  split; [done|]. apply list_lookup_insert_eq. by eapply lookup_lt_Some.
Qed.

Lemma reachable_m1 : reachable Scenario.m1.
Proof.
  apply (reach_step _ (OpCreateRoom "r1" 0 None (SettingsObject Scenario.cap2)));
    [apply reach_init | done].
Qed.

Lemma reachable_m2 : reachable Scenario.m2.
Proof.
  apply (reach_step _ (OpJoinRoom "r1" "A" (Scenario.info "A") PwUndefined 1));
    [apply reachable_m1 | done].
Qed.

Lemma reachable_m3 : reachable Scenario.m3.
Proof.
  apply (reach_step _ (OpJoinRoom "r1" "B" (Scenario.info "B") PwUndefined 2));
    [apply reachable_m2 | done].
Qed.

(** C3 at the two-participant room of the scenario: one host, and B takes
    over when A leaves. *)
Lemma host_role_unique_witness :
  reachable Scenario.m3 ∧
  (∃ room, RoomManagerM.roomOf "r1" Scenario.m3 = Some room ∧
           hostCount (users room) = 1%nat) ∧
  (∃ room, RoomManagerM.roomOf "r1" (RoomManagerM.leaveRoom "A" Scenario.m3).1 = Some room ∧
           (role <$> OMap.get "B" (users room)) = Some host).
Proof.
  split; [exact reachable_m3|].
  destruct (host_role_unique Scenario.m3 reachable_m3) as (_ & Hdir & _ & _ & Hleave).
  split.
  - eexists. split; [vm_compute; reflexivity|].
    eapply (Hdir "r1"); [vm_compute; reflexivity | done].
  - eexists. split.
    + eapply (Hleave "r1" "A"); vm_compute; reflexivity.
    + vm_compute. reflexivity.
Defined.

(** C4. In every reachable state a participant identifier is in at most one
    room of the directory. A successful [joinRoom] to room [b] by a
    participant of another room [a] goes through the state of the leave
    step, in which the participant is in no room at all, and ends with the
    participant in [b] and no longer in [a]. *)
Theorem one_room_per_participant (m : RoomManager) (Hm : reachable m) :
  (∀ uid r1 r2, member uid r1 m = true → member uid r2 m = true → r1 = r2) ∧
  (∀ a b uid info pw now m' ref u,
     member uid a m = true → a ≠ b →
     RoomManagerM.joinRoom b uid info pw now m = (m', Ok (ref, u)) →
     (∀ r, member uid r (RoomManagerM.leaveRoom uid m).1 = false) ∧
     (∃ room2, m' = joined_state b uid ref room2 (RoomManagerM.leaveRoom uid m).1) ∧
     member uid a m' = false ∧ member uid b m' = true ∧
     (∀ r, member uid r m' = true → r = b)).
Proof.
  pose proof (reachable_Inv m Hm) as HI. split.
  { intros uid r1 r2 H1%(member_index _ _ _ HI) H2%(member_index _ _ _ HI). congruence. }
  intros a b uid info pw now m' ref u Ha Hab Hj.
  pose proof (member_index _ _ _ HI Ha) as Hu.
  assert (reachable m') as Hm'.
  { replace m' with (run (OpJoinRoom b uid info pw now) m) by (simpl; by rewrite Hj).
    by apply reach_step. }
  pose proof (reachable_Inv m' Hm') as HI'.
  apply joinRoom_Ok in Hj as (room & room1 & room2 & Hr & Hh & _ & Hh1 & Hadd & ->).
  assert (member uid b (joined_state b uid ref room2 (RoomManagerM.leaveRoom uid m).1) = true)
    as Hb.
  { apply member_true. exists ref, room2. simpl. split; [|split].
    - rewrite leaveRoom_rooms_other; [done | congruence].
    - apply list_lookup_insert_eq. by eapply lookup_lt_Some.
    - apply addUser_Ok in Hadd as (_ & _ & _ & _ & ->). simpl.
      unfold OMap.keys. rewrite map_app. apply elem_of_app. right. simpl.
      by apply list_elem_of_singleton. }
  assert (∀ r, member uid r (joined_state b uid ref room2 (RoomManagerM.leaveRoom uid m).1) = true
               → r = b) as Honly.
  { intros r Hr'. pose proof (member_index _ _ _ HI' Hr') as H1.
    pose proof (member_index _ _ _ HI' Hb) as H2. congruence. }
  split; [intros r; by apply leaveRoom_no_member|].
  split; [by exists room2|].
  split; [|by split].
  destruct (member uid a (joined_state b uid ref room2 (RoomManagerM.leaveRoom uid m).1))
    eqn:Hma; [|done].
  by apply Honly in Hma.
Qed.

Lemma reachable_two_rooms : reachable Scenario.two_rooms.
Proof.
  apply (reach_step _ (OpJoinRoom "r2" "B" (Scenario.info "B") PwUndefined 3)); [|done].
  apply (reach_step _ (OpJoinRoom "r1" "A" (Scenario.info "A") PwUndefined 2)); [|done].
  apply (reach_step _ (OpCreateRoom "r2" 1 None (SettingsObject (Scenario.cap 1))));
    [|done].
  apply (reach_step _ (OpCreateRoom "r1" 0 None (SettingsObject no_options)));
    [apply reach_init | done].
Qed.

(** C4 at the two-room scenario: B moves from r2 to r1. *)
Lemma one_room_per_participant_witness :
  reachable Scenario.two_rooms ∧
  member "B" "r2" Scenario.two_rooms = true ∧
  member "B" "r2"
    (RoomManagerM.joinRoom "r1" "B" (Scenario.info "B") PwUndefined 4 Scenario.two_rooms).1 = false ∧
  member "B" "r1"
    (RoomManagerM.joinRoom "r1" "B" (Scenario.info "B") PwUndefined 4 Scenario.two_rooms).1 = true.
Proof.
  split; [exact reachable_two_rooms|]. split; [vm_compute; reflexivity|].
  destruct (one_room_per_participant Scenario.two_rooms reachable_two_rooms) as [_ Hjoin].
  destruct (RoomManagerM.joinRoom "r1" "B" (Scenario.info "B") PwUndefined 4 Scenario.two_rooms)
    as [m' res] eqn:Hj.
  assert (∃ ref u, res = Ok (ref, u)) as (ref & u & ->).
  { assert (res = (RoomManagerM.joinRoom "r1" "B" (Scenario.info "B") PwUndefined 4
                     Scenario.two_rooms).2) as -> by (by rewrite Hj).
    vm_compute. eauto. }
  destruct (Hjoin "r2" "r1" "B" _ _ _ _ _ _ eq_refl ltac:(done) Hj)
    as (_ & _ & Ha & Hb & _).
  by split.
Defined.

(** The leave step of a member of a directory room: the room loses that
    participant and nothing else. *)
Lemma leaveRoom_member_heap uid rid ref room m :
  Inv m → rooms m !! rid = Some ref → heap m !! ref = Some room →
  uid ∈ OMap.keys (users room) →
  heap (RoomManagerM.leaveRoom uid m).1 !! ref = Some (RoomM.removeUser uid room).1.
Proof.
  intros HI Hr Hh Hin.
  assert (userRoomMap m !! uid = Some rid) as Hu by (by eapply (inv_member m HI)).
  destruct (inv_dir m HI _ _ Hr) as [Hne _].
  rewrite (leaveRoom_found _ _ _ _ _ Hu Hne Hr Hh). simpl.
  apply list_lookup_insert_eq. by eapply lookup_lt_Some.
Qed.

Lemma removeUser_size uid room :
  NoDup (OMap.keys (users room)) → uid ∈ OMap.keys (users room) →
  S (OMap.size (users (RoomM.removeUser uid room).1)) = OMap.size (users room).
Proof.
  intros Hnd Hin. destruct (OMap.get uid (users room)) as [user|] eqn:Hg.
  2:{ by apply omap_get_None in Hg. }
  destruct (omap_delete_split _ _ _ Hnd Hg) as (m1 & m2 & Hus & Hdel).
  unfold OMap.size. rewrite <- (length_map fst).
  fold (OMap.keys (users (RoomM.removeUser uid room).1)).
  rewrite removeUser_keys. unfold OMap.keys. rewrite length_map, Hdel, Hus, !length_app.
  simpl. lia.
Qed.

(** C5 as stated fails in two ways. With the capacity 2.5, which [createRoom]
    takes as it is, three joins succeed and the count 3 exceeds the capacity.
    And in the room of capacity 2 that holds A and B the count equals the
    capacity, yet a join by A does not fail with [RoomFull]: A leaves first
    and is admitted again, after B, who is now the host. *)
Lemma capacity_claim_fails :
  ((OMap.keys ∘ users) <$> RoomManagerM.roomOf "r1" Scenario.fractional)
    = Some ["A"; "B"; "C"] ∧
  (maxUsers <$> RoomManagerM.roomOf "r1" Scenario.fractional) = Some (Finite (5 # 2)) ∧
  Num.leb (Num.of_nat 3) (Finite (5 # 2)) = false ∧
  (maxUsers <$> RoomManagerM.roomOf "r1" Scenario.m3) = Some (Num.of_nat 2) ∧
  ((OMap.keys ∘ users) <$> RoomManagerM.roomOf "r1" Scenario.m3) = Some ["A"; "B"] ∧
  (RoomManagerM.joinRoom "r1" "A" (Scenario.info "A") PwUndefined 3 Scenario.m3).2
    = Ok (0%nat, mkUser "A" "A" "A" 3 true true false participant) ∧
  ((λ room, (λ kv : string * User, (fst kv, role (snd kv))) <$> users room) <$>
     RoomManagerM.roomOf "r1"
       (RoomManagerM.joinRoom "r1" "A" (Scenario.info "A") PwUndefined 3 Scenario.m3).1)
    = Some [("B", host); ("A", participant)].
Proof. vm_compute. repeat split; reflexivity. Qed.

(** C5, amended. [addUser] admits a participant when the count is not yet
    [>=] the capacity and refuses with [RoomFull], leaving the room as it is,
    when it is; the capacity itself never changes. For a capacity that is a
    whole number this bounds the count by the capacity after every
    successful join, and a join at count = capacity (a case of [>=]) is
    refused; in general only the count before the join is below the
    capacity, and a NaN capacity never refuses. The same holds through
    [joinRoom] and for every room object of a reachable state. In a
    reachable state a [joinRoom] for a room that is full fails with
    [RoomFull] and leaves that room as it is when the caller is not already
    in that room and gives a password the room accepts; a member of the room
    who joins it again is admitted, and a refused password fails with
    [InvalidPassword] whatever the count. *)
Theorem capacity_respected :
  (∀ uid info now room room' u,
     RoomM.addUser uid info now room = Ok (room', u) →
     maxUsers room' = maxUsers room ∧
     OMap.size (users room') = S (OMap.size (users room)) ∧
     Num.geb (Num.of_nat (OMap.size (users room))) (maxUsers room) = false ∧
     (∀ z, Num.is_int (maxUsers room) z →
           Z.of_nat (OMap.size (users room')) <= z)) ∧
  (∀ uid info now room,
     Num.geb (Num.of_nat (OMap.size (users room))) (maxUsers room) = true →
     RoomM.addUser uid info now room = Err (RoomFull (maxUsers room))) ∧
  (∀ uid info now room,
     Num.is_int (maxUsers room) (Z.of_nat (OMap.size (users room))) →
     Num.geb (Num.of_nat (OMap.size (users room))) (maxUsers room) = true ∧
     RoomM.addUser uid info now room = Err (RoomFull (maxUsers room))) ∧
  (∀ uid info now room e,
     maxUsers room = NaN → RoomM.addUser uid info now room = Err e →
     e = DuplicateParticipant) ∧
  (∀ m rid uid info pw now m' ref u,
     RoomManagerM.joinRoom rid uid info pw now m = (m', Ok (ref, u)) →
     ∃ room', RoomManagerM.deref ref m' = Some room' ∧
              Num.geb (Num.of_nat (OMap.size (users room') - 1)) (maxUsers room')
                = false ∧
              (∀ z, Num.is_int (maxUsers room') z →
                    Z.of_nat (OMap.size (users room')) <= z)) ∧
  (∀ m ref room,
     reachable m → RoomManagerM.deref ref m = Some room → users room ≠ [] →
     Num.geb (Num.of_nat (OMap.size (users room) - 1)) (maxUsers room) = false ∧
     (∀ z, Num.is_int (maxUsers room) z → Z.of_nat (OMap.size (users room)) <= z)) ∧
  (∀ m rid ref room uid info pw now,
     reachable m →
     RoomManagerM.getRoom rid m = Some ref → RoomManagerM.deref ref m = Some room →
     Num.geb (Num.of_nat (OMap.size (users room))) (maxUsers room) = true →
     member uid rid m = false →
     RoomM.validatePassword (RoomManagerM.passwordOrNull pw) room = true →
     ∃ m', RoomManagerM.joinRoom rid uid info pw now m =
             (m', Err (RoomFull (maxUsers room))) ∧
           RoomManagerM.deref ref m' = Some room ∧
           (users room ≠ [] → RoomManagerM.roomOf rid m' = Some room)) ∧
  (∀ m rid uid info pw now room,
     reachable m → RoomManagerM.roomOf rid m = Some room →
     member uid rid m = true →
     RoomM.validatePassword (RoomManagerM.passwordOrNull pw) room = true →
     ∃ m' ref u', RoomManagerM.joinRoom rid uid info pw now m = (m', Ok (ref, u'))) ∧
  (∀ m rid uid info pw now room,
     reachable m → RoomManagerM.roomOf rid m = Some room →
     RoomM.validatePassword (RoomManagerM.passwordOrNull pw) room = false →
     RoomManagerM.joinRoom rid uid info pw now m = (m, Err InvalidPassword)).
Proof.
  assert (∀ n c, Num.geb (Num.of_nat n) c = false →
            ∀ z, Num.is_int c z → Z.of_nat (S n) <= z) as Hint.
  { intros n c Hge z Hz. rewrite (geb_is_int n c z Hz) in Hge.
    apply bool_decide_eq_false in Hge. lia. }
  assert (∀ uid info now room room' u,
            RoomM.addUser uid info now room = Ok (room', u) →
            maxUsers room' = maxUsers room ∧
            OMap.size (users room') = S (OMap.size (users room)) ∧
            Num.geb (Num.of_nat (OMap.size (users room))) (maxUsers room) = false ∧
            (∀ z, Num.is_int (maxUsers room) z →
                  Z.of_nat (OMap.size (users room')) <= z)) as Hadd.
  { intros uid info now room room' u (Hlt & _ & _ & _ & ->)%addUser_Ok. simpl.
    assert (OMap.size (users room ++ [(uid, u)]) = S (OMap.size (users room))) as Hsz.
    { unfold OMap.size. rewrite length_app. simpl. lia. }
    split; [done|]. split; [done|]. split; [done|].
    intros z Hz. rewrite Hsz. by eapply Hint. }
  assert (∀ uid info now room,
            Num.geb (Num.of_nat (OMap.size (users room))) (maxUsers room) = true →
            RoomM.addUser uid info now room = Err (RoomFull (maxUsers room))) as Hfull.
  { intros uid info now room Hge. unfold RoomM.addUser. by rewrite Hge. }
  assert (∀ m ref room,
            reachable m → RoomManagerM.deref ref m = Some room → users room ≠ [] →
            Num.geb (Num.of_nat (OMap.size (users room) - 1)) (maxUsers room) = false ∧
            (∀ z, Num.is_int (maxUsers room) z →
                  Z.of_nat (OMap.size (users room)) <= z)) as Hreach.
  { intros m ref room Hm Hh Hne. pose proof (reachable_Inv m Hm) as HI.
    destruct (inv_rooms m HI _ _ Hh) as (Hok & _).
    assert (∃ k, OMap.size (users room) = S k) as [k Hk].
    { unfold OMap.size. destruct (users room); [done | by eexists]. }
    rewrite Hk. replace (S k - 1)%nat with k by lia.
    assert (Num.geb (Num.of_nat k) (maxUsers room) = false) as Hge
      by (apply (ok_capacity room Hok); lia).
    split; [done|]. by apply Hint. }
  split; [done|]. split; [done|]. split.
  { intros uid info now room Hz.
    assert (Num.geb (Num.of_nat (OMap.size (users room))) (maxUsers room) = true) as Hge.
    { rewrite (geb_is_int _ _ _ Hz). by apply bool_decide_eq_true. }
    split; [done | by apply Hfull]. }
  split.
  { intros uid info now room e Hnan Ha.
    apply addUser_Err in Ha as [[_ Hge]|[-> _]]; [|done].
    by rewrite Hnan, geb_NaN in Hge. }
  split.
  { intros m rid uid info pw now m' ref u
      (room & room1 & room2 & Hr & Hh & _ & Hh1 & Ha & ->)%joinRoom_Ok.
    exists room2. split.
    { unfold RoomManagerM.deref. simpl. apply list_lookup_insert_eq.
      by eapply lookup_lt_Some. }
    destruct (Hadd _ _ _ _ _ _ Ha) as (Hmax & Hsz & Hge & Hz).
    rewrite Hmax, Hsz. replace (S (OMap.size (users room1)) - 1)%nat
      with (OMap.size (users room1)) by lia.
    split; [done|]. by rewrite <- Hsz. }
  split; [done|]. split.
  { intros m rid ref room uid info pw now Hm Hr Hh Hge Hnm Hpw.
    pose proof (reachable_Inv m Hm) as HI.
    unfold RoomManagerM.getRoom, RoomManagerM.deref in Hr, Hh.
    destruct (inv_rooms m HI _ _ Hh) as (_ & Hact).
    assert (uid ∉ OMap.keys (users room)) as Hnin
      by (eapply member_false; eauto).
    pose proof (leaveRoom_frame_heap uid ref room m Hh Hnin) as Hh1.
    rewrite (joinRoom_guards_passed _ _ _ _ _ _ _ _ _ Hr Hh Hact Hpw Hh1).
    rewrite (Hfull _ _ _ _ Hge). eexists. split; [done|]. split; [done|].
    intros Hne. apply roomOf_Some. exists ref.
    by destruct (leaveRoom_frame uid rid ref room m HI Hr Hh Hnin Hne). }
  split.
  { intros m rid uid info pw now room Hm (ref & Hr & Hh)%roomOf_Some Hmem Hpw.
    pose proof (reachable_Inv m Hm) as HI.
    destruct (inv_rooms m HI _ _ Hh) as (Hok & Hact).
    assert (uid ∈ OMap.keys (users room)) as Hin.
    { apply member_true in Hmem as (ref' & room' & Hr' & Hh' & Hin). congruence. }
    pose proof (leaveRoom_member_heap _ _ _ _ _ HI Hr Hh Hin) as Hh1.
    rewrite (joinRoom_guards_passed _ _ _ _ _ _ _ _ _ Hr Hh Hact Hpw Hh1).
    pose proof (removeUser_size uid room (ok_nodup room Hok) Hin) as Hsz.
    unfold RoomM.addUser. rewrite removeUser_maxUsers.
    rewrite (ok_capacity room Hok) by lia.
    assert (OMap.has uid (users (RoomM.removeUser uid room).1) = false) as ->.
    { destruct (OMap.has uid _) eqn:Hhas; [|done].
      apply omap_has_true in Hhas. by apply removeUser_not_member in Hhas. }
    by eexists _, _, _. }
  intros m rid uid info pw now room Hm (ref & Hr & Hh)%roomOf_Some Hpw.
  pose proof (reachable_Inv m Hm) as HI.
  destruct (inv_rooms m HI _ _ Hh) as (_ & Hact).
  unfold RoomManagerM.joinRoom, RoomManagerM.getRoom, RoomManagerM.deref.
  by rewrite Hr, Hh, Hact, Hpw.
Qed.

(** C5 at the scenario of the specification: capacity 2, A and B join, C is
    refused with [RoomFull] and the room keeps A and B. *)
Lemma capacity_respected_witness :
  (∃ m', RoomManagerM.joinRoom "r1" "A" (Scenario.info "A") PwUndefined 1 Scenario.m1
           = (m', Ok (0%nat, mkUser "A" "A" "A" 1 true true false host))) ∧
  (∃ m', RoomManagerM.joinRoom "r1" "B" (Scenario.info "B") PwUndefined 2 Scenario.m2
           = (m', Ok (0%nat, mkUser "B" "B" "B" 2 true true false participant))) ∧
  reachable Scenario.m3 ∧
  (∃ m' room, RoomManagerM.joinRoom "r1" "C" (Scenario.info "C") PwUndefined 3 Scenario.m3
                = (m', Err (RoomFull (Num.of_Z 2))) ∧
              RoomManagerM.roomOf "r1" Scenario.m3 = Some room ∧
              RoomManagerM.roomOf "r1" m' = Some room ∧
              OMap.keys (users room) = ["A"; "B"]).
Proof.
  split; [eexists; vm_compute; reflexivity|].
  split; [eexists; vm_compute; reflexivity|].
  split; [exact reachable_m3|].
  destruct capacity_respected as (_ & _ & _ & _ & _ & _ & Hjoin & _).
  destruct (RoomManagerM.roomOf "r1" Scenario.m3) as [room|] eqn:Hroom;
    [|by vm_compute in Hroom].
  assert (RoomManagerM.deref 0 Scenario.m3 = Some room) as Hderef.
  { rewrite <- Hroom. reflexivity. }
  assert (maxUsers room = Num.of_Z 2 ∧ OMap.keys (users room) = ["A"; "B"] ∧
          users room ≠ []) as (Hmax & Hkeys & Hne).
  { vm_compute in Hroom. injection Hroom as <-. by vm_compute. }
  destruct (Hjoin Scenario.m3 "r1" 0%nat room "C" (Scenario.info "C") PwUndefined 3
              reachable_m3 eq_refl Hderef) as (m' & Hj & _ & Hsame).
  - rewrite Hmax. unfold OMap.size. rewrite <- (length_map fst).
    unfold OMap.keys in Hkeys. by rewrite Hkeys.
  - vm_compute. reflexivity.
  - vm_compute in Hroom. injection Hroom as <-. vm_compute. reflexivity.
  - rewrite Hmax in Hj. exists m', room. rewrite Hj. by rewrite Hsame.
Defined.




Lemma removeUser_sole uid u room :
  users room = [(uid, u)] →
  RoomM.removeUser uid room = (set_users [] room, Some u).
Proof.
  intros Hus. unfold RoomM.removeUser. rewrite Hus. simpl.
  destruct (decide (uid = uid)); [|done]. simpl.
  by destruct (decide (role u = host)).
Qed.

(** The leave step of the only participant of a directory room. *)
Lemma leaveRoom_sole rid ref uid u room m :
  Inv m → rooms m !! rid = Some ref → heap m !! ref = Some room →
  users room = [(uid, u)] →
  RoomManagerM.leaveRoom uid m =
    ({| heap := <[ref := set_users [] room]> (heap m);
        rooms := delete rid (rooms m);
        userRoomMap := delete uid (userRoomMap m) |}, Some (ref, Some u)).
Proof.
  intros HI Hr Hh Hus.
  assert (userRoomMap m !! uid = Some rid) as Hu.
  { eapply (inv_member m HI); [done..|]. rewrite Hus. simpl. apply list_elem_of_here. }
  destruct (inv_dir m HI _ _ Hr) as [Hne _].
  rewrite (leaveRoom_found _ _ _ _ _ Hu Hne Hr Hh). unfold left_state.
  by rewrite (removeUser_sole _ _ _ Hus).
Qed.

(** C7. In a reachable state, when the only participant of a room of the
    directory calls [leaveRoom], the call returns the room and the removed
    record, and in the state it leaves [getRoom] on the room's identifier is
    absent: the deletion is done by [leaveRoom] itself. *)
Theorem last_leave_deletes_room (m : RoomManager) (Hm : reachable m)
    rid room uid u :
  RoomManagerM.roomOf rid m = Some room →
  users room = [(uid, u)] →
  ∃ m' ref,
    RoomManagerM.leaveRoom uid m = (m', Some (ref, Some u)) ∧
    RoomManagerM.getRoom rid m = Some ref ∧
    RoomManagerM.getRoom rid m' = None.
Proof.
  intros (ref & Hr & Hh)%roomOf_Some Hus.
  pose proof (reachable_Inv m Hm) as HI.
  rewrite (leaveRoom_sole _ _ _ _ _ _ HI Hr Hh Hus).
  eexists _, ref. split; [done|]. split; [done|].
  unfold RoomManagerM.getRoom. simpl. apply lookup_delete_eq.
Qed.

(** C7 at the scenario: A, alone in r1, leaves. *)
Lemma last_leave_deletes_room_witness :
  reachable Scenario.m2 ∧
  (∃ ref, RoomManagerM.getRoom "r1" Scenario.m2 = Some ref) ∧
  RoomManagerM.getRoom "r1" (RoomManagerM.leaveRoom "A" Scenario.m2).1 = None.
Proof.
  split; [exact reachable_m2|].
  destruct (RoomManagerM.roomOf "r1" Scenario.m2) as [room|] eqn:Hroom;
    [|by vm_compute in Hroom].
  destruct (last_leave_deletes_room Scenario.m2 reachable_m2 "r1" room "A"
              (mkUser "A" "A" "A" 1 true true false host) Hroom)
    as (m' & ref & Hl & Hg & Hnone).
  - vm_compute in Hroom. injection Hroom as <-. reflexivity.
  - split; [by exists ref|]. by rewrite Hl.
Defined.

(** C9. In a reachable state, when a participant of room [a] calls
    [joinRoom] for another room [b] and the call fails in [addUser] (room
    full or identifier already present), the state left behind is that of
    the leave step: the participant is no longer in [a], is in no room of the
    directory, and has no entry in the participant-to-room index. The error
    is then in fact [RoomFull]: a participant of [a] is never found in
    [b]. *)
Theorem failed_join_still_leaves (m : RoomManager) (Hm : reachable m)
    a b uid info pw now m' e :
  member uid a m = true → a ≠ b →
  RoomManagerM.joinRoom b uid info pw now m = (m', Err e) →
  (e = DuplicateParticipant ∨ ∃ n, e = RoomFull n) →
  m' = (RoomManagerM.leaveRoom uid m).1 ∧
  member uid a m' = false ∧
  (∀ r, member uid r m' = false) ∧
  userRoomMap m' !! uid = None ∧
  (∃ n, e = RoomFull n).
Proof.
  intros Ha Hab Hj He. pose proof (reachable_Inv m Hm) as HI.
  pose proof (member_index _ _ _ HI Ha) as Hu.
  assert (m' = (RoomManagerM.leaveRoom uid m).1 ∧ ∃ n, e = RoomFull n) as [-> Hfull].
  { apply joinRoom_Err in Hj as [[_ Hcase]|[[_ ->]|[-> (ref & room1 & Hr & Hh1 & Hadd)]]].
    - destruct He as [->|[n ->]]; by destruct Hcase as [?|[?|?]].
    - by destruct He as [?|[n ?]].
    - split; [done|].
      apply addUser_Err in Hadd as [[-> _]|[_ Hin]]; [by eexists|].
      assert (member uid b (RoomManagerM.leaveRoom uid m).1 = true) as Hmb.
      { apply member_true. exists ref, room1. split; [|done].
        rewrite leaveRoom_rooms_other; [done | congruence]. }
      by rewrite leaveRoom_no_member in Hmb. }
  split; [done|]. split; [by apply leaveRoom_no_member|].
  split; [intros r; by apply leaveRoom_no_member|].
  split; [by eapply leaveRoom_member_index | done].
Qed.

(** C9 at the two-room scenario: A, in r1, is refused by the full room r2. *)
Lemma failed_join_still_leaves_witness :
  reachable Scenario.two_rooms ∧
  member "A" "r1" Scenario.two_rooms = true ∧
  (RoomManagerM.joinRoom "r2" "A" (Scenario.info "A") PwUndefined 4 Scenario.two_rooms).2
    = Err (RoomFull (Num.of_Z 1)) ∧
  member "A" "r1"
    (RoomManagerM.joinRoom "r2" "A" (Scenario.info "A") PwUndefined 4 Scenario.two_rooms).1
    = false ∧
  userRoomMap
    (RoomManagerM.joinRoom "r2" "A" (Scenario.info "A") PwUndefined 4 Scenario.two_rooms).1
    !! "A" = None.
Proof.
  split; [exact reachable_two_rooms|]. split; [vm_compute; reflexivity|].
  split; [vm_compute; reflexivity|].
  destruct (RoomManagerM.joinRoom "r2" "A" (Scenario.info "A") PwUndefined 4
              Scenario.two_rooms) as [m' res] eqn:Hj.
  assert (res = Err (RoomFull (Num.of_Z 1))) as ->.
  { assert (res = (RoomManagerM.joinRoom "r2" "A" (Scenario.info "A") PwUndefined 4
                     Scenario.two_rooms).2) as -> by (by rewrite Hj).
    vm_compute. reflexivity. }
  destruct (failed_join_still_leaves Scenario.two_rooms reachable_two_rooms
              "r1" "r2" "A" _ _ _ _ _ eq_refl ltac:(done) Hj)
    as (_ & Hna & _ & Hidx & _).
  - right. by exists (Num.of_Z 1).
  - by split.
Defined.

(** The only participant of a directory room joins that room again, with a
    password the room accepts: the result of [joinRoom], written out. *)
Lemma rejoin_sole_accepted (m : RoomManager) rid ref room uid u info pw now :
  Inv m → rooms m !! rid = Some ref → heap m !! ref = Some room →
  users room = [(uid, u)] →
  RoomM.validatePassword (RoomManagerM.passwordOrNull pw) room = true →
  RoomManagerM.joinRoom rid uid info pw now m =
    let u' := mkUser uid (RoomM.display_name uid info) (infoSocketId info) now
                     true true false host in
    ({| heap := <[ref := set_users [(uid, u')] room]> (heap m);
        rooms := delete rid (rooms m);
        userRoomMap := <[uid := rid]> (delete uid (userRoomMap m)) |},
     Ok (ref, u')).
Proof.
  intros HI Hr Hh Hus Hpw.
  destruct (inv_rooms m HI _ _ Hh) as (Hok & Hact).
  assert (Num.geb (Num.of_nat 0) (maxUsers room) = false) as Hcap.
  { apply (ok_capacity room Hok). rewrite Hus. simpl. lia. }
  pose proof (leaveRoom_sole _ _ _ _ _ _ HI Hr Hh Hus) as Hleave.
  assert (heap (RoomManagerM.leaveRoom uid m).1 !! ref = Some (set_users [] room)) as Hh1.
  { rewrite Hleave. simpl. apply list_lookup_insert_eq. by eapply lookup_lt_Some. }
  rewrite (joinRoom_guards_passed _ _ _ _ _ _ _ _ _ Hr Hh Hact Hpw Hh1).
  unfold RoomM.addUser. simpl. rewrite Hcap. rewrite Hleave.
  unfold joined_state. simpl. by rewrite list_insert_insert_eq.
Qed.

(** C10 as stated fails in a room that requires a password: A, alone in r1,
    joins r1 again without the password. The call throws before the leave
    step; nothing has changed and the directory still holds r1. *)
Lemma rejoin_without_password_fails :
  ((OMap.keys ∘ users) <$> RoomManagerM.roomOf "r1" Scenario.locked) = Some ["A"] ∧
  RoomManagerM.joinRoom "r1" "A" (Scenario.info "A") PwUndefined 5 Scenario.locked
    = (Scenario.locked, Err InvalidPassword) ∧
  RoomManagerM.getRoom "r1" Scenario.locked = Some 0%nat.
Proof. vm_compute. repeat split; reflexivity. Qed.

(** C10, amended. In a reachable state, when the only participant of a room
    of the directory calls [joinRoom] for that same room with a password the
    room accepts (any password when the room requires none), the call
    succeeds: it returns the room object and a new record with role [host]
    for the participant. The leave step has deleted the room from the
    directory and nothing puts it back, so afterwards [getRoom] on its
    identifier is absent, while the participant-to-room index maps the
    participant to that identifier. With a password the room refuses, the
    call fails with invalid-password before the leave step: nothing changes
    and the directory keeps the room. *)
Theorem sole_participant_rejoin (m : RoomManager) (Hm : reachable m)
    rid room uid u info pw now :
  RoomManagerM.roomOf rid m = Some room →
  users room = [(uid, u)] →
  (RoomM.validatePassword (RoomManagerM.passwordOrNull pw) room = true →
   ∃ m' ref u',
     RoomManagerM.joinRoom rid uid info pw now m = (m', Ok (ref, u')) ∧
     RoomManagerM.getRoom rid m = Some ref ∧
     userId u' = uid ∧ role u' = host ∧ joinedAt u' = now ∧
     RoomManagerM.deref ref m' = Some (set_users [(uid, u')] room) ∧
     RoomManagerM.getRoom rid m' = None ∧
     userRoomMap m' !! uid = Some rid) ∧
  (RoomM.validatePassword (RoomManagerM.passwordOrNull pw) room = false →
   RoomManagerM.joinRoom rid uid info pw now m = (m, Err InvalidPassword) ∧
   RoomManagerM.roomOf rid m = Some room).
Proof.
  intros Hroom Hus. pose proof (reachable_Inv m Hm) as HI.
  pose proof Hroom as (ref & Hr & Hh)%roomOf_Some. split.
  - intros Hpw.
    rewrite (rejoin_sole_accepted m rid ref room uid u info pw now HI Hr Hh Hus Hpw).
    eexists _, ref, _. split; [reflexivity|].
    unfold RoomManagerM.getRoom, RoomManagerM.deref. simpl.
    split; [done|]. do 3 (split; [done|]). split; [|split].
    + apply list_lookup_insert_eq. by eapply lookup_lt_Some.
    + apply lookup_delete_eq.
    + apply lookup_insert_eq.
  - intros Hpw. split; [|done].
    destruct (inv_rooms m HI _ _ Hh) as (_ & Hact).
    unfold RoomManagerM.joinRoom, RoomManagerM.getRoom, RoomManagerM.deref.
    by rewrite Hr, Hh, Hact, Hpw.
Qed.

(** C10 at the scenario: A, alone in r1, joins r1 again. *)
Lemma sole_participant_rejoin_witness :
  reachable Scenario.m2 ∧
  (∃ ref u', (RoomManagerM.joinRoom "r1" "A" (Scenario.info "A") PwUndefined 5
                Scenario.m2).2 = Ok (ref, u')) ∧
  RoomManagerM.getRoom "r1"
    (RoomManagerM.joinRoom "r1" "A" (Scenario.info "A") PwUndefined 5 Scenario.m2).1
    = None ∧
  userRoomMap
    (RoomManagerM.joinRoom "r1" "A" (Scenario.info "A") PwUndefined 5 Scenario.m2).1
    !! "A" = Some "r1".
Proof.
  split; [exact reachable_m2|].
  destruct (RoomManagerM.roomOf "r1" Scenario.m2) as [room|] eqn:Hroom;
    [|by vm_compute in Hroom].
  destruct (sole_participant_rejoin Scenario.m2 reachable_m2 "r1" room "A"
              (mkUser "A" "A" "A" 1 true true false host) (Scenario.info "A")
              PwUndefined 5 Hroom) as [Hok _].
  - vm_compute in Hroom. injection Hroom as <-. reflexivity.
  - destruct Hok as (m' & ref & u' & Hj & _ & _ & _ & _ & _ & Hnone & Hidx).
    + vm_compute in Hroom. injection Hroom as <-. reflexivity.
    + rewrite Hj. simpl. split; [by exists ref, u'|]. by split.
Defined.
End manager_claims.

(** ** The peer-connection tracker *)

Section tracker_facts.
Import WebRTCManagerM.
Implicit Types (w : WebRTCManager) (rid a b cid : string).

Lemma connId_truthy a b : truthy (connId a b) = true.
Proof.
  unfold connId. induction a as [|c a IH]; simpl; [done|done].
Qed.

Lemma tracked_true rid a w :
  tracked rid a w = true ↔
  ∃ rc e, connections w !! rid = Some rc ∧ rc !! a = Some e.
Proof.
  unfold tracked. destruct (connections w !! rid) as [rc|] eqn:Hc.
  - rewrite bool_decide_eq_true. split.
    + intros [e He]. by exists rc, e.
    + intros (rc' & e & [= <-] & He). by exists e.
  - split; [done | by intros (rc' & e & [=] & _)].
Qed.

(** An offer between two tracked participants stores a [connecting] link
    under the offerer and stages the offer under ["from-to"]. *)
Lemma handleOffer_tracked rid a b payload now now' w :
  tracked rid a w = true → tracked rid b w = true →
  (handleOffer rid a b payload now now' w).2 = Some (connId a b) ∧
  linkStatus rid a b (handleOffer rid a b payload now now' w).1 = Some connecting ∧
  (timestamp <$> pendingOffers (handleOffer rid a b payload now now' w).1 !! connId a b)
    = Some now'.
Proof.
  intros (rc & ea & Hc & Ha)%tracked_true (rc' & eb & Hc' & Hb)%tracked_true.
  rewrite Hc in Hc'. injection Hc' as <-.
  unfold handleOffer, createPeerConnection. rewrite Hc, Ha, Hb.
  rewrite connId_truthy. simpl. split; [done|]. split.
  - unfold linkStatus. simpl. rewrite lookup_insert_eq. simpl.
    rewrite lookup_insert_eq. simpl. by rewrite lookup_insert_eq.
  - by rewrite lookup_insert_eq.
Qed.

(** [handleAnswer] succeeds exactly when the answerer itself holds a link
    towards the participant it answers. *)
Lemma handleAnswer_success rid a b answer w :
  (handleAnswer rid a b answer w).2 = true ↔ is_Some (linkStatus rid a b w).
Proof.
  unfold handleAnswer, linkStatus.
  destruct (connections w !! rid) as [rc|]; [|by split; [|intros [? ?]]].
  destruct (rc !! a) as [e|]; [|by split; [|intros [? ?]]].
  destruct (peers e !! b) as [l|]; simpl; [|by split; [|intros [? ?]]].
  split; [by eexists | done].
Qed.

(** [handleAnswer] called by [a] changes no link held by somebody else. *)
Lemma handleAnswer_other_entry rid rid' a b c d answer w :
  c ≠ a →
  linkStatus rid' c d (handleAnswer rid a b answer w).1 = linkStatus rid' c d w.
Proof.
  intros Hne. unfold handleAnswer, linkStatus.
  destruct (connections w !! rid) as [rc|] eqn:Hc; [|done].
  destruct (rc !! a) as [e|] eqn:He; [|done].
  destruct (peers e !! b) as [l|] eqn:Hl; [|done]. simpl.
  destruct (decide (rid = rid')) as [<-|Hr].
  - rewrite lookup_insert_eq, Hc. simpl. by rewrite lookup_insert_ne.
  - by rewrite lookup_insert_ne.
Qed.

(** Offer then answer, in general: after an offer from [a] to [b], two
    distinct tracked participants, the matching answer of [b] fails unless
    [b] had a link of its own towards [a], and the link of [a] stays
    [connecting] in every case. *)
Lemma answer_misses_offer rid a b payload answer now now' w :
  tracked rid a w = true → tracked rid b w = true → a ≠ b →
  let w1 := (handleOffer rid a b payload now now' w).1 in
  ((handleAnswer rid b a answer w1).2 = true ↔ is_Some (linkStatus rid b a w)) ∧
  linkStatus rid a b (handleAnswer rid b a answer w1).1 = Some connecting.
Proof.
  intros Ha Hb Hne. simpl.
  destruct (handleOffer_tracked rid a b payload now now' w Ha Hb) as (_ & Hlink & _).
  split.
  - rewrite handleAnswer_success.
    apply tracked_true in Ha as (rc & ea & Hc & Hea).
    apply tracked_true in Hb as (rc' & eb & Hc' & Heb).
    rewrite Hc in Hc'. injection Hc' as <-.
    unfold handleOffer, createPeerConnection, linkStatus.
    rewrite Hc, Hea, Heb, connId_truthy. simpl.
    rewrite lookup_insert_eq. simpl. by rewrite lookup_insert_ne, Heb.
  - by rewrite handleAnswer_other_entry.
Qed.

(** C1, evaluated. With A and B tracked in room R and nothing else, the
    offer of A to B returns ["A-B"] and stores a [connecting] link under A;
    the answer of B to A then returns [false] and the link of A to B is
    still [connecting]. *)
Theorem answer_after_offer_fails :
  (handleOffer "R" "A" "B" "sdp" 100 100 twoPeers).2 = Some "A-B" ∧
  linkStatus "R" "A" "B" (handleOffer "R" "A" "B" "sdp" 100 100 twoPeers).1
    = Some connecting ∧
  (handleAnswer "R" "B" "A" "answer"
     (handleOffer "R" "A" "B" "sdp" 100 100 twoPeers).1).2 = false ∧
  linkStatus "R" "A" "B"
    (handleAnswer "R" "B" "A" "answer"
       (handleOffer "R" "A" "B" "sdp" 100 100 twoPeers).1).1 = Some connecting.
Proof. vm_compute. repeat split; reflexivity. Qed.

(** C2, evaluated. In the history below no [handleOffer("R", "A", "B", _)]
    occurs: only B has offered to A. The answer of B to A nevertheless
    returns [true], and what it marks [connected] is the link B itself
    created by offering. *)
Theorem answer_without_offer_succeeds :
  let history := [TAddUser "R" "A" "sA"; TAddUser "R" "B" "sB";
                  THandleOffer "R" "B" "A" "sdp" 100 100] in
  neverOffered "R" "A" "B" history = true ∧
  (handleAnswer "R" "B" "A" "answer" (trackerAfter history)).2 = true ∧
  linkStatus "R" "B" "A" (trackerAfter history) = Some connecting ∧
  linkStatus "R" "B" "A"
    (handleAnswer "R" "B" "A" "answer" (trackerAfter history)).1 = Some connected.
Proof. vm_compute. repeat split; reflexivity. Qed.

Lemma expiredOffers_spec now w cid :
  cid ∈ expiredOffers now w ↔
  ∃ o, pendingOffers w !! cid = Some o ∧ expired now o = true.
Proof.
  unfold expiredOffers. rewrite list_elem_of_fmap. split.
  - intros ([k o] & -> & [Hexp Hin]%list_elem_of_filter).
    apply elem_of_map_to_list in Hin. by exists o.
  - intros (o & Hl & Hexp). exists (cid, o). split; [done|].
    apply list_elem_of_filter. split; [done|]. by apply elem_of_map_to_list.
Qed.

Lemma NoDup_fst_filter {V} (P : string * V → Prop) `{!∀ x, Decision (P x)}
    (l : list (string * V)) :
  NoDup l.*1 → NoDup (filter P l).*1.
Proof.
  induction l as [|[k v] l IH]; simpl; [done|].
  rewrite NoDup_cons. intros [Hnin Hnd]. rewrite filter_cons.
  destruct (decide (P (k, v))); [|by apply IH].
  simpl. apply NoDup_cons. split; [|by apply IH].
  intros ([k' v'] & Heq & [_ Hin]%list_elem_of_filter)%list_elem_of_fmap.
  simpl in Heq. subst k'. apply Hnin. apply list_elem_of_fmap. by exists (k, v').
Qed.

Lemma cleanupPendingOffers_lookup now w cid :
  pendingOffers (cleanupPendingOffers now w).1 !! cid =
  match pendingOffers w !! cid with
  | Some o => if expired now o then None else Some o
  | None => None
  end.
Proof.
  unfold cleanupPendingOffers. simpl. rewrite foldl_delete_lookup.
  destruct (decide (cid ∈ expiredOffers now w)) as [Hin|Hnin].
  - apply expiredOffers_spec in Hin as (o & -> & ->). done.
  - destruct (pendingOffers w !! cid) as [o|] eqn:Hl; [|done].
    destruct (expired now o) eqn:He; [|done].
    destruct Hnin. apply expiredOffers_spec. by exists o.
Qed.

Lemma cleanupPendingOffers_filter now w :
  pendingOffers (cleanupPendingOffers now w).1 =
  filter (λ kv : string * OfferData, ¬ expired now kv.2 = true) (pendingOffers w).
Proof.
  apply map_eq. intros cid. rewrite cleanupPendingOffers_lookup, map_lookup_filter.
  destruct (pendingOffers w !! cid) as [o|]; simpl; [|done].
  destruct (expired now o) eqn:He; case_guard; simpl; congruence.
Qed.

Lemma cleanupPendingOffers_count now w :
  (cleanupPendingOffers now w).2 =
  size (filter (λ kv : string * OfferData, expired now kv.2 = true) (pendingOffers w)).
Proof.
  unfold cleanupPendingOffers, expiredOffers. simpl. rewrite length_fmap.
  rewrite map_filter_alt, map_size_list_to_map; [done|].
  apply NoDup_fst_filter, NoDup_fst_map_to_list.
Qed.

(** C8. A sweep at clock reading [now] deletes a pending offer exactly when
    [now - timestamp > 30000]: older offers are gone, the others are kept
    with their data. The count reported by [getStats] afterwards is the
    number of offers kept, the sweep returns the number deleted, and the
    connection tables, hence every entry, every link and the other
    statistics, are what they were. *)
Theorem sweep_removes_expired_only (now : Z) (w : WebRTCManager) :
  (∀ cid o, pendingOffers w !! cid = Some o → now - timestamp o > 30000 →
     pendingOffers (cleanupPendingOffers now w).1 !! cid = None) ∧
  (∀ cid o, pendingOffers w !! cid = Some o → now - timestamp o <= 30000 →
     pendingOffers (cleanupPendingOffers now w).1 !! cid = Some o) ∧
  (∀ cid, pendingOffers w !! cid = None →
     pendingOffers (cleanupPendingOffers now w).1 !! cid = None) ∧
  Stats.pendingOffers (getStats (cleanupPendingOffers now w).1) =
    size (filter (λ kv : string * OfferData, now - timestamp kv.2 <= 30000)
                 (pendingOffers w)) ∧
  (Stats.pendingOffers (getStats (cleanupPendingOffers now w).1) +
     (cleanupPendingOffers now w).2 = Stats.pendingOffers (getStats w))%nat ∧
  connections (cleanupPendingOffers now w).1 = connections w ∧
  (∀ rid a b, linkStatus rid a b (cleanupPendingOffers now w).1 = linkStatus rid a b w) ∧
  Stats.totalRooms (getStats (cleanupPendingOffers now w).1) = Stats.totalRooms (getStats w) ∧
  Stats.totalUsers (getStats (cleanupPendingOffers now w).1) = Stats.totalUsers (getStats w) ∧
  Stats.totalConnections (getStats (cleanupPendingOffers now w).1)
    = Stats.totalConnections (getStats w) ∧
  Stats.rooms (getStats (cleanupPendingOffers now w).1) = Stats.rooms (getStats w).
Proof.
  assert (∀ o, expired now o = true ↔ now - timestamp o > 30000) as Hexp.
  { intros o. unfold expired. rewrite Z.gtb_gt. lia. }
  split; [|split; [|split; [|split; [|split]]]].
  - intros cid o Hl Hage. rewrite cleanupPendingOffers_lookup, Hl.
    apply Hexp in Hage. by rewrite Hage.
  - intros cid o Hl Hage. rewrite cleanupPendingOffers_lookup, Hl.
    destruct (expired now o) eqn:He; [|done]. apply Hexp in He. lia.
  - intros cid Hl. by rewrite cleanupPendingOffers_lookup, Hl.
  - simpl. change (foldl _ _ _) with (pendingOffers (cleanupPendingOffers now w).1).
    rewrite cleanupPendingOffers_filter. f_equal. apply map_filter_ext.
    intros cid o _. simpl. split.
    + intros Hn. destruct (expired now o) eqn:He; [done|].
      destruct (Z.gtb_spec (now - timestamp o) 30000) as [|Hle]; [|exact Hle].
      unfold expired in He. rewrite Z.gtb_ltb in He. apply Z.ltb_ge in He. lia.
    + intros Hle Ht. apply Hexp in Ht. lia.
  - rewrite cleanupPendingOffers_count. simpl.
    change (foldl _ _ _) with (pendingOffers (cleanupPendingOffers now w).1).
    rewrite cleanupPendingOffers_filter.
    rewrite <- (map_filter_union_complement
                  (λ kv : string * OfferData, expired now kv.2 = true) (pendingOffers w))
      at 3.
    rewrite map_size_disj_union by apply map_disjoint_filter_complement. lia.
  - repeat split; done.
Qed.

(** C8 on two staged offers, swept at clock reading 31001. *)
Lemma sweep_removes_expired_only_witness :
  (timestamp <$> pendingOffers twoOffers !! "A-B") = Some 1000 ∧
  (timestamp <$> pendingOffers twoOffers !! "B-A") = Some 20000 ∧
  pendingOffers (cleanupPendingOffers 31001 twoOffers).1 !! "A-B" = None ∧
  (timestamp <$> pendingOffers (cleanupPendingOffers 31001 twoOffers).1 !! "B-A")
    = Some 20000 ∧
  linkStatus "R" "A" "B" (cleanupPendingOffers 31001 twoOffers).1 = Some connecting.
Proof.
  split; [vm_compute; reflexivity|]. split; [vm_compute; reflexivity|].
  destruct (sweep_removes_expired_only 31001 twoOffers)
    as (Hold & Hyoung & _ & _ & _ & _ & Hlinks & _).
  destruct (pendingOffers twoOffers !! "A-B") as [o1|] eqn:H1; [|by vm_compute in H1].
  destruct (pendingOffers twoOffers !! "B-A") as [o2|] eqn:H2; [|by vm_compute in H2].
  split; [|split].
  - apply (Hold "A-B" o1 H1). vm_compute in H1. injection H1 as <-. simpl. lia.
  - rewrite (Hyoung "B-A" o2 H2).
    + vm_compute in H2. by injection H2 as <-.
    + vm_compute in H2. injection H2 as <-. simpl. lia.
  - rewrite Hlinks. vm_compute. reflexivity.
Defined.
End tracker_facts.

(** ** The room manager: further properties *)

Section manager_more.
Implicit Types (m : RoomManager) (uid rid : string) (ref : nat) (room : Room).

(** X1. A [joinRoom] that fails with room-not-found, room-inactive or
    invalid-password has changed nothing, and a [joinRoom] for an identifier
    the directory does not hold fails with room-not-found. *)
Theorem joinRoom_early_failure_atomic rid uid info pw now m :
  (∀ m' e, RoomManagerM.joinRoom rid uid info pw now m = (m', Err e) →
           e = RoomNotFound ∨ e = RoomInactive ∨ e = InvalidPassword → m' = m) ∧
  (RoomManagerM.getRoom rid m = None →
   RoomManagerM.joinRoom rid uid info pw now m = (m, Err RoomNotFound)).
Proof.
  split.
  - intros m' e. unfold RoomManagerM.joinRoom, RoomManagerM.getRoom.
    destruct (rooms m !! rid) as [ref|] eqn:Hr; [|by intros [= <- <-]].
    destruct (RoomManagerM.deref ref m) as [room|] eqn:Hh; [|by intros [= <- <-]].
    destruct (isActive room); simpl; [|by intros [= <- <-]].
    destruct (RoomM.validatePassword _ room); simpl; [|by intros [= <- <-]].
    destruct (leaveRoom_deref_is_Some uid m ref) as [room1 Hh1]; [by eexists|].
    rewrite Hh1.
    destruct (RoomM.addUser uid info now room1) as [[room2 u]|e'] eqn:Ha; [done|].
    intros [= <- <-] Hearly.
    apply addUser_Err in Ha as [[-> _]|[-> _]]; by destruct Hearly as [?|[?|?]].
  - unfold RoomManagerM.joinRoom. by intros ->.
Qed.

(** X1 on the scenario: a join with an unknown identifier. *)
Lemma joinRoom_early_failure_atomic_witness :
  RoomManagerM.joinRoom "nowhere" "A" (Scenario.info "A") PwUndefined 9 Scenario.m3
    = (Scenario.m3, Err RoomNotFound).
Proof.
  apply (joinRoom_early_failure_atomic "nowhere" "A" (Scenario.info "A") PwUndefined 9
           Scenario.m3).
  vm_compute. reflexivity.
Defined.

(** X2. Joining the room [createRoom] has just returned fails with
    invalid-password exactly when the room was created with
    [requirePassword] and the password given ([null] when omitted) differs
    from the one in the settings. A room created with [requirePassword] and
    no password can therefore never be joined. *)
Theorem created_room_password uuid now by_ opts m uid info pw now' :
  ((RoomManagerM.joinRoom uuid uid info pw now'
      (RoomManagerM.createRoom uuid now by_ (SettingsObject opts) m).1).2
     = Err InvalidPassword
   ↔ optRequirePassword opts = true ∧
     RoomManagerM.passwordOrNull pw ≠ optPassword opts) ∧
  (optRequirePassword opts = true → optPassword opts = PwUndefined →
   (RoomManagerM.joinRoom uuid uid info pw now'
      (RoomManagerM.createRoom uuid now by_ (SettingsObject opts) m).1).2
     = Err InvalidPassword).
Proof.
  destruct (createRoom_object uuid now by_ opts m) as (ref & _ & _ & Hg & Hd).
  set (room := RoomManagerM.configure opts (RoomM.new uuid by_ now)) in *.
  assert (isActive room = true ∧
          requirePassword (settings room) = optRequirePassword opts ∧
          (optRequirePassword opts = true → password (settings room) = optPassword opts))
    as (Hact & Hreq & Hpw).
  { destruct (configure_spec opts (RoomM.new uuid by_ now))
      as (_ & _ & _ & _ & Hact & _ & Hreq & Hpw).
    fold room in Hact, Hreq, Hpw. split; [done|]. split.
    - rewrite Hreq. simpl. by destruct (optRequirePassword opts).
    - intros Hr. by rewrite Hpw, Hr. }
  set (m1 := (RoomManagerM.createRoom uuid now by_ (SettingsObject opts) m).1) in *.
  assert ((RoomManagerM.joinRoom uuid uid info pw now' m1).2 = Err InvalidPassword
          ↔ RoomM.validatePassword (RoomManagerM.passwordOrNull pw) room = false) as Hiff.
  { destruct (RoomM.validatePassword (RoomManagerM.passwordOrNull pw) room) eqn:Hv.
    - destruct (leaveRoom_deref_is_Some uid m1 ref) as [room1 Hh1]; [by eexists|].
      rewrite (joinRoom_guards_passed _ _ _ _ _ _ _ _ _ Hg Hd Hact Hv Hh1).
      destruct (RoomM.addUser uid info now' room1) as [[room2 u]|e] eqn:Ha;
        simpl; [done|].
      apply addUser_Err in Ha as [[-> _]|[-> _]]; done.
    - unfold RoomManagerM.joinRoom. rewrite Hg, Hd, Hact, Hv. done. }
  assert (RoomM.validatePassword (RoomManagerM.passwordOrNull pw) room = false
          ↔ optRequirePassword opts = true ∧
            RoomManagerM.passwordOrNull pw ≠ optPassword opts) as Hval.
  { unfold RoomM.validatePassword. rewrite Hreq.
    destruct (optRequirePassword opts); simpl; [|by split; [|intros [? _]]].
    rewrite Hpw by done. rewrite bool_decide_eq_false. split.
    - intros Hne. split; [done | congruence].
    - intros [_ Hne]. congruence. }
  split; [by rewrite Hiff, Hval|].
  intros Hr Hu. apply Hiff, Hval. split; [done|]. rewrite Hu. by destruct pw.
Qed.

(** X2 on a room created with [requirePassword] and the password "pw". *)
Lemma created_room_password_witness :
  (RoomManagerM.joinRoom "r9" "A" (Scenario.info "A") (PwString "bad") 2
     (RoomManagerM.createRoom "r9" 1 None (SettingsObject Scenario.withPassword)
        RoomManagerM.init).1).2 = Err InvalidPassword.
Proof.
  destruct (created_room_password "r9" 1 None Scenario.withPassword RoomManagerM.init "A"
              (Scenario.info "A") (PwString "bad") 2) as [Hiff _].
  apply Hiff. split; [reflexivity | simpl; congruence].
Defined.

(** X3. [leaveRoom] is idempotent in every state: a second call for the
    same participant returns [null] and changes nothing. *)
Theorem leaveRoom_idempotent uid m :
  RoomManagerM.leaveRoom uid (RoomManagerM.leaveRoom uid m).1 =
    ((RoomManagerM.leaveRoom uid m).1, None).
Proof.
  destruct (leaveRoom_spec uid m)
    as [[Heq _]|(rid & ref & room & _ & _ & _ & _ & Heq)]; rewrite Heq; simpl.
  - done.
  - unfold RoomManagerM.leaveRoom, left_state. simpl. by rewrite lookup_delete_eq.
Qed.

Lemma reachable_roomy : reachable Scenario.roomy.
Proof.
  apply (reach_step _ (OpJoinRoom "r2" "B" (Scenario.info "B") PwUndefined 3)); [|done].
  apply (reach_step _ (OpCreateRoom "r2" 1 None (SettingsObject no_options))); [|done].
  apply (reach_step _ (OpCreateRoom "r1" 0 None (SettingsObject no_options)));
    [apply reach_init | done].
Qed.

Lemma omap_keys_delete_ne {V} k k' (us : OMap.t V) :
  k ≠ k' → k' ∈ OMap.keys us → k' ∈ OMap.keys (OMap.delete k us).
Proof.
  intros Hne Hin. destruct (OMap.get k' (OMap.delete k us)) as [v|] eqn:Hg.
  - by eapply omap_get_Some_keys.
  - rewrite omap_get_delete_ne in Hg by done. by apply omap_get_None in Hg.
Qed.

Lemma bool_eq_iff (b1 b2 : bool) : (b1 = true ↔ b2 = true) → b1 = b2.
Proof. destruct b1, b2; intros [H1 H2]; auto; [symmetry; auto]. Qed.

(** Under the invariant, the leave step of [uid] keeps the memberships of
    everybody else. *)
Lemma leaveRoom_others m uid v rid :
  Inv m → v ≠ uid →
  member v rid (RoomManagerM.leaveRoom uid m).1 = member v rid m.
Proof.
  intros HI Hne.
  destruct (leaveRoom_spec uid m)
    as [[-> _]|(r & ref & room & Hu & Hner & Hr & Hh & ->)]; [done|].
  apply bool_eq_iff. rewrite !member_true. split.
  - intros (ref' & room' & Hr' & Hh' & Hin).
    apply left_state_rooms_Some in Hr'. simpl in Hh'.
    destruct (decide (ref' = ref)) as [->|Hneq].
    + rewrite list_lookup_insert_eq in Hh' by (by eapply lookup_lt_Some).
      injection Hh' as <-. exists ref, room. split; [done|]. split; [done|].
      rewrite removeUser_keys in Hin. by apply omap_keys_delete_subseteq in Hin.
    + rewrite list_lookup_insert_ne in Hh' by done. by exists ref', room'.
  - intros (ref' & room' & Hr' & Hh' & Hin).
    destruct (decide (ref' = ref)) as [->|Hneq].
    + assert (rid = r) as -> by (by eapply (inv_inj m HI)).
      rewrite Hh in Hh'. injection Hh' as <-.
      assert (v ∈ OMap.keys (users (RoomM.removeUser uid room).1)) as Hin'.
      { rewrite removeUser_keys. apply omap_keys_delete_ne; [congruence | done]. }
      exists ref, (RoomM.removeUser uid room).1. split; [|split; [|done]].
      * unfold left_state. simpl. unfold RoomM.isEmpty, OMap.size.
        destruct (users (RoomM.removeUser uid room).1); [|done].
        by apply elem_of_nil in Hin'.
      * simpl. apply list_lookup_insert_eq. by eapply lookup_lt_Some.
    + exists ref', room'. split; [|split; [|done]].
      * change (rooms (left_state uid r ref room m) !! rid = Some ref').
        rewrite left_state_rooms_ne; [done|]. intros <-. congruence.
      * simpl. by rewrite list_lookup_insert_ne.
Qed.

(** X4. In a reachable state, [leaveRoom] for one participant changes
    nobody else's index entry and nobody else's membership in any room. *)
Theorem leaveRoom_frame_others (m : RoomManager) (Hm : reachable m) uid v :
  v ≠ uid →
  userRoomMap (RoomManagerM.leaveRoom uid m).1 !! v = userRoomMap m !! v ∧
  ∀ rid, member v rid (RoomManagerM.leaveRoom uid m).1 = member v rid m.
Proof.
  intros Hne. pose proof (reachable_Inv m Hm) as HI. split.
  - destruct (leaveRoom_spec uid m)
      as [[-> _]|(r & ref & room & _ & _ & _ & _ & ->)]; [done|].
    simpl. by rewrite lookup_delete_ne.
  - intros rid. by apply leaveRoom_others.
Qed.

(** X4 on the scenario: A leaves, B stays where it is. *)
Lemma leaveRoom_frame_others_witness :
  member "B" "r1" (RoomManagerM.leaveRoom "A" Scenario.m3).1 = true ∧
  userRoomMap (RoomManagerM.leaveRoom "A" Scenario.m3).1 !! "B" = Some "r1".
Proof.
  destruct (leaveRoom_frame_others Scenario.m3 reachable_m3 "A" "B" ltac:(done))
    as [Hidx Hmem].
  rewrite Hidx, Hmem. split; vm_compute; reflexivity.
Defined.

Lemma omap_get_app_fresh {V} k (v : V) (us : OMap.t V) :
  k ∉ OMap.keys us → OMap.get k (us ++ [(k, v)]) = Some v.
Proof.
  induction us as [|[k0 v0] us IH]; simpl.
  - intros _. by rewrite decide_True.
  - rewrite not_elem_of_cons. intros [Hne Hnin].
    rewrite decide_False by congruence. by apply IH.
Qed.

Lemma omap_delete_app_fresh {V} k (v : V) (us : OMap.t V) :
  k ∉ OMap.keys us → OMap.delete k (us ++ [(k, v)]) = us.
Proof.
  induction us as [|[k0 v0] us IH]; simpl.
  - intros _. by rewrite decide_True.
  - rewrite not_elem_of_cons. intros [Hne Hnin].
    rewrite decide_False by congruence. by rewrite IH.
Qed.

(** Removing the participant [addUser] has just appended to a non-empty
    room gives the room back. *)
Lemma removeUser_after_addUser uid info now room room2 u :
  users room ≠ [] → RoomM.addUser uid info now room = Ok (room2, u) →
  RoomM.removeUser uid room2 = (room, Some u).
Proof.
  intros Hne (_ & Hg & _ & Hrole & ->)%addUser_Ok.
  apply omap_get_None in Hg.
  unfold RoomM.removeUser. simpl. rewrite (omap_get_app_fresh _ _ _ Hg).
  rewrite (omap_delete_app_fresh _ _ _ Hg).
  assert (role u = participant) as Hp.
  { rewrite Hrole. unfold OMap.size. by destruct (users room). }
  destruct (decide (role u = host)) as [Hh|_]; [congruence|].
  by destruct room.
Qed.

(** X5. Round trip: in a reachable state, when a newcomer (no index entry)
    joins a non-empty room and then leaves, the whole manager is exactly as
    it was before the join, and [leaveRoom] returns the record [joinRoom]
    had returned. *)
Theorem join_then_leave_restores (m : RoomManager) (Hm : reachable m)
    rid uid info pw now m1 ref u room :
  RoomManagerM.roomOf rid m = Some room → users room ≠ [] →
  userRoomMap m !! uid = None →
  RoomManagerM.joinRoom rid uid info pw now m = (m1, Ok (ref, u)) →
  RoomManagerM.leaveRoom uid m1 = (m, Some (ref, Some u)).
Proof.
  intros (ref0 & Hr0 & Hh0)%roomOf_Some Hne Hnone Hj.
  pose proof (reachable_Inv m Hm) as HI.
  assert (RoomManagerM.leaveRoom uid m = (m, None)) as Hleave.
  { unfold RoomManagerM.leaveRoom. by rewrite Hnone. }
  apply joinRoom_Ok in Hj as (room0 & room1 & room2 & Hr & Hh & _ & Hh1 & Hadd & ->).
  rewrite Hleave in *. simpl in *.
  assert (ref0 = ref) as -> by congruence.
  assert (room1 = room) as -> by congruence.
  destruct (inv_dir m HI _ _ Hr) as [Hrid _].
  assert (ref < length (heap m))%nat as Hlt by (by eapply lookup_lt_Some).
  rewrite (leaveRoom_found uid rid ref room2 (joined_state rid uid ref room2 m)).
  - rewrite (removeUser_after_addUser _ _ _ _ _ _ Hne Hadd). simpl. f_equal.
    unfold left_state. rewrite (removeUser_after_addUser _ _ _ _ _ _ Hne Hadd). simpl.
    assert (RoomM.isEmpty room = false) as ->.
    { unfold RoomM.isEmpty, OMap.size. by destruct (users room). }
    rewrite list_insert_insert_eq, (list_insert_id _ _ _ Hh0).
    rewrite (delete_insert_id _ _ _ Hnone). by destruct m.
  - simpl. apply lookup_insert_eq.
  - done.
  - done.
  - simpl. by apply list_lookup_insert_eq.
Qed.

(** X5 on a scenario: A, unknown so far, joins room r2 where B sits, and
    leaves again. *)
Lemma join_then_leave_restores_witness :
  RoomManagerM.leaveRoom "A"
    (RoomManagerM.joinRoom "r2" "A" (Scenario.info "A") PwUndefined 7
       Scenario.roomy).1 = (Scenario.roomy, Some (1%nat, Some
         (mkUser "A" "A" "A" 7 true true false participant))).
Proof.
  destruct (RoomManagerM.roomOf "r2" Scenario.roomy) as [room|] eqn:Hroom;
    [|by vm_compute in Hroom].
  eapply (join_then_leave_restores Scenario.roomy reachable_roomy "r2" "A"
            (Scenario.info "A") PwUndefined 7 _ 1%nat _ room Hroom).
  - vm_compute in Hroom. by injection Hroom as <-.
  - vm_compute. reflexivity.
  - vm_compute. reflexivity.
Defined.

Lemma emptyRooms_spec m rid :
  rid ∈ RoomManagerM.emptyRooms m ↔
  ∃ ref, rooms m !! rid = Some ref ∧ RoomManagerM.isEmptyAt m ref = true.
Proof.
  unfold RoomManagerM.emptyRooms. rewrite list_elem_of_fmap. split.
  - intros ([k ref] & -> & [Hemp Hin]%list_elem_of_filter).
    apply elem_of_map_to_list in Hin. by exists ref.
  - intros (ref & Hr & Hemp). exists (rid, ref). split; [done|].
    apply list_elem_of_filter. split; [done|]. by apply elem_of_map_to_list.
Qed.

Lemma cleanupEmptyRooms_lookup m rid :
  rooms (RoomManagerM.cleanupEmptyRooms m) !! rid =
  match rooms m !! rid with
  | Some ref => if RoomManagerM.isEmptyAt m ref then None else Some ref
  | None => None
  end.
Proof.
  unfold RoomManagerM.cleanupEmptyRooms. simpl. rewrite foldl_delete_lookup.
  destruct (decide (rid ∈ RoomManagerM.emptyRooms m)) as [Hin|Hnin].
  - apply emptyRooms_spec in Hin as (ref & -> & ->). done.
  - destruct (rooms m !! rid) as [ref|] eqn:Hr; [|done].
    destruct (RoomManagerM.isEmptyAt m ref) eqn:He; [|done].
    destruct Hnin. apply emptyRooms_spec. by exists ref.
Qed.

(** X6. The empty-room sweep deletes from the directory exactly the
    identifiers whose room has no participant. It keeps every other entry,
    the room objects and the participant-to-room index, so nobody's
    membership changes; and running it twice is the same as running it
    once. *)
Theorem cleanupEmptyRooms_spec m :
  (∀ rid ref, rooms m !! rid = Some ref →
     rooms (RoomManagerM.cleanupEmptyRooms m) !! rid =
       if RoomManagerM.isEmptyAt m ref then None else Some ref) ∧
  (∀ rid, rooms m !! rid = None →
     rooms (RoomManagerM.cleanupEmptyRooms m) !! rid = None) ∧
  heap (RoomManagerM.cleanupEmptyRooms m) = heap m ∧
  userRoomMap (RoomManagerM.cleanupEmptyRooms m) = userRoomMap m ∧
  (∀ uid rid, member uid rid (RoomManagerM.cleanupEmptyRooms m) = member uid rid m) ∧
  RoomManagerM.cleanupEmptyRooms (RoomManagerM.cleanupEmptyRooms m) =
    RoomManagerM.cleanupEmptyRooms m.
Proof.
  split; [|split; [|split; [done|split; [done|split]]]].
  - intros rid ref Hr. by rewrite cleanupEmptyRooms_lookup, Hr.
  - intros rid Hr. by rewrite cleanupEmptyRooms_lookup, Hr.
  - intros uid rid. unfold member, RoomManagerM.roomOf, RoomManagerM.getRoom.
    rewrite cleanupEmptyRooms_lookup.
    destruct (rooms m !! rid) as [ref|]; [|done].
    unfold RoomManagerM.isEmptyAt, RoomManagerM.deref. simpl.
    destruct (heap m !! ref) as [room|] eqn:Hh; simpl; [|by rewrite Hh].
    unfold RoomM.isEmpty, OMap.size.
    destruct (users room) as [|p us] eqn:Hus; simpl; [done|].
    by rewrite Hh, Hus.
  - set (m1 := RoomManagerM.cleanupEmptyRooms m).
    assert (rooms (RoomManagerM.cleanupEmptyRooms m1) = rooms m1) as Hrooms.
    { apply map_eq. intros rid. rewrite cleanupEmptyRooms_lookup.
      destruct (rooms m1 !! rid) as [ref|] eqn:Hr; [|done].
      unfold m1 in Hr. rewrite cleanupEmptyRooms_lookup in Hr.
      destruct (rooms m !! rid) as [ref'|]; [|done].
      destruct (RoomManagerM.isEmptyAt m ref') eqn:He; [done|].
      injection Hr as <-.
      change (RoomManagerM.isEmptyAt m1 ref') with (RoomManagerM.isEmptyAt m ref').
      by rewrite He. }
    unfold RoomManagerM.cleanupEmptyRooms at 1.
    change (foldl _ _ _) with (rooms (RoomManagerM.cleanupEmptyRooms m1)).
    rewrite Hrooms. done.
Qed.

(** X6 on the scenario with an empty room r1 and B in r2. *)
Lemma cleanupEmptyRooms_spec_witness :
  rooms (RoomManagerM.cleanupEmptyRooms Scenario.roomy) !! "r1" = None ∧
  rooms (RoomManagerM.cleanupEmptyRooms Scenario.roomy) !! "r2" = Some 1%nat.
Proof.
  destruct (cleanupEmptyRooms_spec Scenario.roomy) as (Hl & _).
  split.
  - rewrite (Hl "r1" 0%nat); vm_compute; reflexivity.
  - rewrite (Hl "r2" 1%nat); vm_compute; reflexivity.
Defined.

(** X7. A room that has been created but not joined yet is deleted by the
    next empty-room sweep: afterwards [getRoom] is absent and every
    [joinRoom] for its identifier fails with room-not-found. *)
Theorem unjoined_room_is_swept uuid now by_ opts m uid info pw now' :
  let m0 := (RoomManagerM.createRoom uuid now by_ (SettingsObject opts) m).1 in
  let m1 := RoomManagerM.cleanupEmptyRooms m0 in
  (∃ ref, (RoomManagerM.createRoom uuid now by_ (SettingsObject opts) m).2 = Ok ref ∧
          RoomManagerM.getRoom uuid m0 = Some ref) ∧
  RoomManagerM.getRoom uuid m1 = None ∧
  RoomManagerM.joinRoom uuid uid info pw now' m1 = (m1, Err RoomNotFound).
Proof.
  intros m0 m1.
  destruct (createRoom_object uuid now by_ opts m) as (ref & Hc & _ & Hg & Hd).
  destruct (configure_spec opts (RoomM.new uuid by_ now)) as (_ & Hnil & _).
  fold m0 in Hg, Hd.
  assert (RoomManagerM.getRoom uuid m1 = None) as Hnone.
  { unfold RoomManagerM.getRoom, m1. rewrite cleanupEmptyRooms_lookup.
    unfold RoomManagerM.getRoom in Hg. rewrite Hg.
    unfold RoomManagerM.isEmptyAt. rewrite Hd.
    unfold RoomM.isEmpty. by rewrite Hnil. }
  split; [exists ref; by rewrite Hc|]. split; [done|].
  unfold RoomManagerM.joinRoom. by rewrite Hnone.
Qed.

(** X8. In a reachable state, [updateUserMedia] for a participant of a room
    sets the flag named by the media type ("audio", "video" or "screen") and
    no other field, returns the updated record, and keeps the order of the
    participants, everybody else's record, the directory and the index. For
    any other media type it returns the record as it is. *)
Theorem updateUserMedia_sets_flag (m : RoomManager) (Hm : reachable m)
    rid room uid u mediaType enabled :
  RoomManagerM.roomOf rid m = Some room →
  OMap.get uid (users room) = Some u →
  ∃ m' u' room',
    RoomManagerM.updateUserMedia uid mediaType enabled m = (m', Some u') ∧
    isAudioEnabled u' = (if decide (mediaType = "audio") then enabled
                         else isAudioEnabled u) ∧
    isVideoEnabled u' = (if decide (mediaType = "video") then enabled
                         else isVideoEnabled u) ∧
    isScreenSharing u' = (if decide (mediaType = "screen") then enabled
                          else isScreenSharing u) ∧
    (userId u', name u', socketId u', joinedAt u', role u') =
      (userId u, name u, socketId u, joinedAt u, role u) ∧
    RoomManagerM.roomOf rid m' = Some room' ∧
    OMap.get uid (users room') = Some u' ∧
    (∀ v, v ≠ uid → OMap.get v (users room') = OMap.get v (users room)) ∧
    OMap.keys (users room') = OMap.keys (users room) ∧
    rooms m' = rooms m ∧ userRoomMap m' = userRoomMap m.
Proof.
  intros (ref & Hr & Hh)%roomOf_Some Hg.
  pose proof (reachable_Inv m Hm) as HI.
  assert (userRoomMap m !! uid = Some rid) as Hu.
  { eapply (inv_member m HI); [done..|]. by eapply omap_get_Some_keys. }
  destruct (inv_dir m HI _ _ Hr) as [Hne _].
  unfold RoomManagerM.updateUserMedia, RoomManagerM.getUserRoom, RoomManagerM.getRoom,
    RoomManagerM.deref.
  rewrite Hu, (truthy_nonempty _ Hne), Hr, Hh.
  unfold RoomM.updateUserMedia. rewrite Hg.
  eexists _, _, _. split; [reflexivity|].
  assert (ref < length (heap m))%nat as Hlt by (by eapply lookup_lt_Some).
  do 4 (split; [repeat case_decide; by simplify_eq/=|]).
  split.
  { apply roomOf_Some. exists ref. simpl. split; [done|].
    by apply list_lookup_insert_eq. }
  simpl. split; [apply omap_get_set_eq|].
  split; [intros v Hv; by apply omap_get_set_ne|].
  split; [by eapply omap_keys_set_present | done].
Qed.

(** X8 on the scenario: A switches its camera off. *)
Lemma updateUserMedia_sets_flag_witness :
  ∃ m' u', RoomManagerM.updateUserMedia "A" "video" false Scenario.m3 = (m', Some u') ∧
           isVideoEnabled u' = false ∧ isAudioEnabled u' = true ∧ role u' = host.
Proof.
  destruct (RoomManagerM.roomOf "r1" Scenario.m3) as [room|] eqn:Hroom;
    [|by vm_compute in Hroom].
  destruct (updateUserMedia_sets_flag Scenario.m3 reachable_m3 "r1" room "A"
              (mkUser "A" "A" "A" 1 true true false host) "video" false Hroom)
    as (m' & u' & room' & Hup & Ha & Hv & _ & Hsame & _).
  - vm_compute in Hroom. by injection Hroom as <-.
  - exists m', u'. split; [done|]. split; [done|]. split; [done|].
    by injection Hsame as _ _ _ _ ->.
Defined.

(** The fields [addUser] fills in from its arguments. *)
Lemma addUser_record uid info now room room' u :
  RoomM.addUser uid info now room = Ok (room', u) →
  socketId u = infoSocketId info ∧ joinedAt u = now ∧
  name u = RoomM.display_name uid info ∧
  isAudioEnabled u = true ∧ isVideoEnabled u = true ∧ isScreenSharing u = false.
Proof.
  unfold RoomM.addUser.
  destruct (Num.geb (Num.of_nat (OMap.size (users room))) (maxUsers room)); [done|].
  destruct (OMap.has uid (users room)); [done|]. by intros [= <- <-].
Qed.

(** X9. [getUserBySocketId] returns the first participant, in insertion
    order, whose socket identifier is the one asked for, and nothing exactly
    when no participant has it. A participant added with a socket
    identifier nobody in the room uses is found by it. *)
Theorem getUserBySocketId_spec sid room :
  match RoomM.getUserBySocketId sid room with
  | Some u => socketId u = sid ∧
              ∃ us1 k us2, users room = us1 ++ (k, u) :: us2 ∧
                           Forall (λ kv, socketId (snd kv) ≠ sid) us1
  | None => Forall (λ kv : string * User, socketId (snd kv) ≠ sid) (users room)
  end ∧
  (∀ uid info now room' u,
     RoomM.getUserBySocketId sid room = None →
     RoomM.addUser uid info now room = Ok (room', u) →
     infoSocketId info = sid →
     RoomM.getUserBySocketId sid room' = Some u).
Proof.
  unfold RoomM.getUserBySocketId. split.
  - induction (users room) as [|[k0 u0] us IH]; simpl; [done|].
    destruct (decide (socketId u0 = sid)) as [Heq|Hne].
    + split; [done|]. by exists [], k0, us.
    + destruct (RoomM.findBySocketId sid us) as [u|].
      * destruct IH as [Hs (us1 & k & us2 & -> & Hall)]. split; [done|].
        exists ((k0, u0) :: us1), k, us2. split; [done|]. by constructor.
      * by constructor.
  - intros uid info now room' u Hnone Hadd Hsid.
    pose proof (addUser_record _ _ _ _ _ _ Hadd) as (Hu & _).
    apply addUser_Ok in Hadd as (_ & _ & _ & _ & ->). simpl.
    rewrite Hsid in Hu. revert Hnone. induction (users room) as [|[k0 u0] us IH]; simpl.
    + intros _. by rewrite decide_True.
    + destruct (decide (socketId u0 = sid)); [done|]. apply IH.
Qed.
End manager_more.

(** ** The peer-connection tracker: further properties *)

Section tracker_more.
Import WebRTCManagerM.
Implicit Types (w : WebRTCManager) (rid a b uid cid : string).

Lemma entryOf_insert_eq rid uid e rc (c : gmap string (gmap string PeerEntry)) po :
  entryOf rid uid {| connections := <[rid := <[uid := e]> rc]> c; pendingOffers := po |}
    = Some e.
Proof. unfold entryOf. simpl. by rewrite !lookup_insert_eq. Qed.

Lemma entryOf_insert_other rid uid rid' uid' e rc w po :
  connections w !! rid = Some rc → (rid', uid') ≠ (rid, uid) →
  entryOf rid' uid'
    {| connections := <[rid := <[uid := e]> rc]> (connections w); pendingOffers := po |}
    = entryOf rid' uid' w.
Proof.
  intros Hc Hne. unfold entryOf. simpl.
  destruct (decide (rid = rid')) as [<-|Hr].
  - rewrite lookup_insert_eq, Hc. apply lookup_insert_ne. congruence.
  - by rewrite lookup_insert_ne.
Qed.

Lemma linkStatus_entryOf rid a b w :
  linkStatus rid a b w =
  match entryOf rid a w with
  | Some e => status <$> peers e !! b
  | None => None
  end.
Proof. unfold linkStatus, entryOf. by destruct (connections w !! rid). Qed.

Lemma tracked_entryOf rid uid w :
  tracked rid uid w = true ↔ is_Some (entryOf rid uid w).
Proof.
  unfold tracked, entryOf. destruct (connections w !! rid) as [rc|].
  - apply bool_decide_eq_true.
  - split; [done | by intros [? ?]].
Qed.

(** X10. [addUser] for a participant the tracker already holds changes
    nothing and returns the existing entry (links and media state
    included, whatever socket identifier is passed). For a new participant
    it stores and returns a fresh entry (no link, audio and video on, screen
    off) and leaves every other entry and the pending offers as they are. *)
Theorem tracker_addUser_spec rid uid sid w :
  (∀ e, entryOf rid uid w = Some e → addUser rid uid sid w = (w, e)) ∧
  (entryOf rid uid w = None →
   (addUser rid uid sid w).2 = newEntry sid ∧
   entryOf rid uid (addUser rid uid sid w).1 = Some (newEntry sid) ∧
   (∀ rid' uid', (rid', uid') ≠ (rid, uid) →
      entryOf rid' uid' (addUser rid uid sid w).1 = entryOf rid' uid' w) ∧
   pendingOffers (addUser rid uid sid w).1 = pendingOffers w).
Proof.
  unfold entryOf, addUser, initializeRoom. split.
  - intros e. destruct (connections w !! rid) as [rc|] eqn:Hc; [|done].
    intros He. rewrite Hc. simpl. by rewrite He.
  - destruct (connections w !! rid) as [rc|] eqn:Hc.
    + intros He. rewrite Hc. simpl. rewrite He. simpl.
      split; [done|]. split; [by rewrite !lookup_insert_eq|]. split; [|done].
      intros rid' uid' Hne. destruct (decide (rid = rid')) as [<-|Hr].
      * rewrite lookup_insert_eq, Hc. apply lookup_insert_ne. congruence.
      * by rewrite lookup_insert_ne.
    + intros _. simpl. rewrite lookup_insert_eq. simpl. rewrite lookup_empty. simpl.
      split; [done|]. split; [by rewrite !lookup_insert_eq|]. split; [|done].
      intros rid' uid' Hne. rewrite insert_insert_eq.
      destruct (decide (rid = rid')) as [<-|Hr].
      * rewrite lookup_insert_eq, Hc. rewrite lookup_insert_ne by congruence.
        apply lookup_empty.
      * by rewrite lookup_insert_ne.
Qed.

(** X10 on the two-peer tracker: A connects again with another socket. *)
Lemma tracker_addUser_spec_witness :
  (addUser "R" "A" "other-socket" twoPeers).1 = twoPeers ∧
  socketId (addUser "R" "A" "other-socket" twoPeers).2 = "sA".
Proof.
  destruct (tracker_addUser_spec "R" "A" "other-socket" twoPeers) as [Hkeep _].
  rewrite (Hkeep (newEntry "sA")); [done|]. vm_compute. reflexivity.
Defined.

(** X11. [removeUser] returns [false] and changes nothing when the
    participant is not tracked. Otherwise it returns [true], the participant
    is no longer tracked, the room's bucket is not left empty, and every
    other entry is untouched, including links other participants hold
    towards the one removed; the pending offers are not touched either. *)
Theorem tracker_removeUser_spec rid uid w :
  (entryOf rid uid w = None → removeUser rid uid w = (w, false)) ∧
  (is_Some (entryOf rid uid w) →
   (removeUser rid uid w).2 = true ∧
   entryOf rid uid (removeUser rid uid w).1 = None ∧
   connections (removeUser rid uid w).1 !! rid ≠ Some ∅ ∧
   (∀ rid' uid', (rid', uid') ≠ (rid, uid) →
      entryOf rid' uid' (removeUser rid uid w).1 = entryOf rid' uid' w) ∧
   (∀ rid' c, c ≠ uid →
      linkStatus rid' c uid (removeUser rid uid w).1 = linkStatus rid' c uid w) ∧
   pendingOffers (removeUser rid uid w).1 = pendingOffers w).
Proof.
  assert (is_Some (entryOf rid uid w) →
          (removeUser rid uid w).2 = true ∧
          entryOf rid uid (removeUser rid uid w).1 = None ∧
          connections (removeUser rid uid w).1 !! rid ≠ Some ∅ ∧
          (∀ rid' uid', (rid', uid') ≠ (rid, uid) →
             entryOf rid' uid' (removeUser rid uid w).1 = entryOf rid' uid' w) ∧
          pendingOffers (removeUser rid uid w).1 = pendingOffers w) as Hmain.
  { unfold entryOf, removeUser.
    destruct (connections w !! rid) as [rc|] eqn:Hc; [|by intros [? ?]].
    intros [e He]. rewrite He. simpl. split; [done|].
    destruct (Nat.eqb_spec (size (delete uid rc)) 0) as [Hz|Hnz]; simpl.
    - apply map_size_empty_inv in Hz.
      rewrite lookup_delete_eq. split; [done|]. split; [done|]. split; [|done].
      intros rid' uid' Hne. destruct (decide (rid = rid')) as [<-|Hr].
      + rewrite lookup_delete_eq, Hc.
        assert (uid' ≠ uid) as Hu by congruence.
        rewrite <- (lookup_delete_ne rc uid uid') by done. by rewrite Hz, lookup_empty.
      + by rewrite lookup_delete_ne.
    - rewrite lookup_insert_eq, lookup_delete_eq. split; [done|]. split.
      + intros [= Hemp]. apply Hnz. rewrite Hemp. apply map_size_empty.
      + split; [|done]. intros rid' uid' Hne.
        destruct (decide (rid = rid')) as [<-|Hr].
        * rewrite lookup_insert_eq, Hc. apply lookup_delete_ne. congruence.
        * by rewrite lookup_insert_ne. }
  split.
  - unfold entryOf, removeUser. destruct (connections w !! rid) as [rc|]; [|done].
    by intros ->.
  - intros Hs. destruct (Hmain Hs) as (H1 & H2 & H3 & H4 & H5).
    repeat split; try done.
    intros rid' c Hne. rewrite !linkStatus_entryOf, H4; [done | congruence].
Qed.

(** X11 when B has offered to A and A is removed: the link of B towards A
    and the staged offer are still there. *)
Lemma tracker_removeUser_spec_witness :
  tracked "R" "A" (removeUser "R" "A" twoOffers).1 = false ∧
  linkStatus "R" "B" "A" (removeUser "R" "A" twoOffers).1 = Some connecting ∧
  size (pendingOffers (removeUser "R" "A" twoOffers).1) = 2%nat.
Proof.
  destruct (tracker_removeUser_spec "R" "A" twoOffers) as [_ Hrem].
  destruct Hrem as (_ & Hgone & _ & _ & Hlinks & Hpend).
  { apply tracked_entryOf. vm_compute. reflexivity. }
  split; [|split].
  - destruct (tracked "R" "A" (removeUser "R" "A" twoOffers).1) eqn:Ht; [|done].
    apply tracked_entryOf in Ht as [e He]. congruence.
  - rewrite Hlinks by done. vm_compute. reflexivity.
  - rewrite Hpend. vm_compute. reflexivity.
Defined.

(** X12. Round trip: adding a participant the tracker does not hold and
    removing it again gives back the tracker exactly as it was, provided the
    room's bucket, when there is one, is not empty. *)
Theorem tracker_add_then_remove rid uid sid w :
  entryOf rid uid w = None → connections w !! rid ≠ Some ∅ →
  removeUser rid uid (addUser rid uid sid w).1 = (w, true).
Proof.
  unfold entryOf, addUser, initializeRoom, removeUser.
  destruct (connections w !! rid) as [rc|] eqn:Hc.
  - intros He Hne. rewrite Hc. simpl. rewrite He. simpl.
    rewrite !lookup_insert_eq. rewrite (delete_insert_id _ _ _ He).
    destruct (Nat.eqb_spec (size rc) 0) as [Hz|_].
    + apply map_size_empty_inv in Hz. congruence.
    + rewrite insert_insert_eq, (insert_id _ _ _ Hc). by destruct w.
  - intros _ _. simpl. rewrite lookup_insert_eq. simpl. rewrite lookup_empty. simpl.
    rewrite !lookup_insert_eq. rewrite delete_insert_id by apply lookup_empty.
    rewrite map_size_empty. simpl.
    rewrite insert_insert_eq, (delete_insert_id _ _ _ Hc). by destruct w.
Qed.

(** X12 on the two-peer tracker and a newcomer C. *)
Lemma tracker_add_then_remove_witness :
  removeUser "R" "C" (addUser "R" "C" "sC" twoPeers).1 = (twoPeers, true).
Proof.
  apply (tracker_add_then_remove "R" "C" "sC" twoPeers).
  - vm_compute. reflexivity.
  - vm_compute. intros Heq. discriminate Heq.
Defined.

Lemma createPeerConnection_untracked rid a b now w :
  tracked rid a w = false ∨ tracked rid b w = false →
  createPeerConnection rid a b now w = (w, None).
Proof.
  unfold tracked, createPeerConnection.
  destruct (connections w !! rid) as [rc|]; [|done].
  rewrite !bool_decide_eq_false.
  destruct (rc !! a) as [ea|], (rc !! b) as [eb|]; try done.
  intros [Hn|Hn]; destruct Hn; by eexists.
Qed.

(** X13. [handleOffer] returns [null] exactly when the offerer or the
    target is not tracked in the room, and it has then changed nothing: no
    link and no pending offer is left behind. *)
Theorem handleOffer_untracked rid a b payload now now' w :
  ((handleOffer rid a b payload now now' w).2 = None ↔
   tracked rid a w = false ∨ tracked rid b w = false) ∧
  ((handleOffer rid a b payload now now' w).2 = None →
   (handleOffer rid a b payload now now' w).1 = w).
Proof.
  assert (tracked rid a w = false ∨ tracked rid b w = false →
          handleOffer rid a b payload now now' w = (w, None)) as Hfail.
  { intros Hu. unfold handleOffer. by rewrite (createPeerConnection_untracked _ _ _ _ _ Hu). }
  assert ((handleOffer rid a b payload now now' w).2 = None →
          tracked rid a w = false ∨ tracked rid b w = false) as Hconv.
  { intros Hnone. destruct (tracked rid a w) eqn:Ha; [|by left].
    destruct (tracked rid b w) eqn:Hb; [|by right].
    destruct (handleOffer_tracked rid a b payload now now' w Ha Hb) as [Hsome _].
    congruence. }
  split; [split; [done | by intros ->%Hfail]|].
  by intros ->%Hconv%Hfail.
Qed.

(** X13 on the two-peer tracker: an offer to somebody who is not there. *)
Lemma handleOffer_untracked_witness :
  handleOffer "R" "A" "Z" "sdp" 5 5 twoPeers = (twoPeers, None).
Proof.
  destruct (handleOffer_untracked "R" "A" "Z" "sdp" 5 5 twoPeers) as [Hiff Hsame].
  assert ((handleOffer "R" "A" "Z" "sdp" 5 5 twoPeers).2 = None) as Hnone.
  { apply Hiff. right. vm_compute. reflexivity. }
  specialize (Hsame Hnone).
  destruct (handleOffer "R" "A" "Z" "sdp" 5 5 twoPeers) as [w' r]. simpl in *.
  by subst.
Defined.

(** A successful [handleOffer] stages its offer under ["from-to"]. *)
Lemma handleOffer_pending rid a b payload now now' w :
  (handleOffer rid a b payload now now' w).2 ≠ None →
  pendingOffers (handleOffer rid a b payload now now' w).1 =
    <[connId a b := {| roomId := rid; fromUserId := a; toUserId := b;
                       offer := payload; timestamp := now' |}]> (pendingOffers w).
Proof.
  unfold handleOffer, createPeerConnection.
  destruct (connections w !! rid) as [rc|]; [|done].
  destruct (rc !! a) as [ea|]; [|done]. destruct (rc !! b) as [eb|]; [|done].
  by rewrite connId_truthy.
Qed.

(** X14. A successful [handleOffer] stages the offer under ["from-to"] with
    its payload and clock reading, replacing an offer already staged under
    that identifier: the pending-offer count of [getStats] grows by one for
    a new identifier and stays the same for a repeated one. The offerer's
    link to the target is (again) [connecting], and no other link
    changes. *)
Theorem handleOffer_stages rid a b payload now now' w :
  tracked rid a w = true → tracked rid b w = true →
  pendingOffers (handleOffer rid a b payload now now' w).1 !! connId a b =
    Some {| roomId := rid; fromUserId := a; toUserId := b;
            offer := payload; timestamp := now' |} ∧
  (∀ cid, cid ≠ connId a b →
     pendingOffers (handleOffer rid a b payload now now' w).1 !! cid =
     pendingOffers w !! cid) ∧
  Stats.pendingOffers (getStats (handleOffer rid a b payload now now' w).1) =
    match pendingOffers w !! connId a b with
    | Some _ => Stats.pendingOffers (getStats w)
    | None => S (Stats.pendingOffers (getStats w))
    end ∧
  linkStatus rid a b (handleOffer rid a b payload now now' w).1 = Some connecting ∧
  (∀ rid' c d, (rid', c, d) ≠ (rid, a, b) →
     linkStatus rid' c d (handleOffer rid a b payload now now' w).1 =
     linkStatus rid' c d w).
Proof.
  intros Ha Hb.
  destruct (handleOffer_tracked rid a b payload now now' w Ha Hb) as (_ & Hlink & _).
  apply tracked_true in Ha as (rc & ea & Hc & Hea).
  apply tracked_true in Hb as (rc' & eb & Hc' & Heb).
  rewrite Hc in Hc'. injection Hc' as <-.
  split; [|split; [|split; [|split; [done|]]]].
  - unfold handleOffer, createPeerConnection. rewrite Hc, Hea, Heb, connId_truthy.
    simpl. by rewrite lookup_insert_eq.
  - intros cid Hne. unfold handleOffer, createPeerConnection.
    rewrite Hc, Hea, Heb, connId_truthy. simpl. by rewrite lookup_insert_ne.
  - unfold handleOffer, createPeerConnection. rewrite Hc, Hea, Heb, connId_truthy.
    simpl. rewrite map_size_insert. by destruct (pendingOffers w !! connId a b).
  - intros rid' c d Hne. unfold handleOffer, createPeerConnection.
    rewrite Hc, Hea, Heb, connId_truthy. simpl.
    rewrite !linkStatus_entryOf.
    destruct (decide ((rid', c) = (rid, a))) as [[= -> ->]|Hne'].
    + rewrite entryOf_insert_eq. unfold entryOf. rewrite Hc, Hea. simpl.
      rewrite lookup_insert_ne; [done | congruence].
    + by rewrite entryOf_insert_other.
Qed.

(** X14 on the tracker with two staged offers: A offers to B once more. *)
Lemma handleOffer_stages_witness :
  Stats.pendingOffers (getStats (handleOffer "R" "A" "B" "sdp3" 25000 25000 twoOffers).1)
    = 2%nat ∧
  (timestamp <$>
     pendingOffers (handleOffer "R" "A" "B" "sdp3" 25000 25000 twoOffers).1 !! "A-B")
    = Some 25000.
Proof.
  destruct (handleOffer_stages "R" "A" "B" "sdp3" 25000 25000 twoOffers)
    as (Hst & _ & Hcount & _); [vm_compute; reflexivity..|].
  split.
  - rewrite Hcount. vm_compute. reflexivity.
  - change "A-B" with (connId "A" "B"). by rewrite Hst.
Defined.

(** X15. Pending offers are removed by the expiry sweep only: every other
    operation of the tracker, an answer or the removal of either participant
    included, keeps every staged identifier (a new offer may replace the
    data staged under it). *)
Theorem pending_offers_only_swept op w cid :
  (∀ now, op ≠ TCleanupPendingOffers now) →
  is_Some (pendingOffers w !! cid) →
  is_Some (pendingOffers (trackerRun op w) !! cid).
Proof.
  intros Hop Hs. destruct op as [rid uid sid|rid uid|rid a b now|rid a b p now now'
                                 |rid a b ans|rid uid mt en|now]; simpl.
  - unfold addUser, initializeRoom.
    destruct (connections w !! rid) as [rc|] eqn:Hc; simpl.
    + rewrite Hc. simpl. by destruct (rc !! uid).
    + rewrite lookup_insert_eq. simpl. by rewrite lookup_empty.
  - unfold removeUser. destruct (connections w !! rid) as [rc|]; [|done].
    by destruct (rc !! uid).
  - unfold createPeerConnection. destruct (connections w !! rid) as [rc|]; [|done].
    by destruct (rc !! a), (rc !! b).
  - unfold handleOffer, createPeerConnection.
    destruct (connections w !! rid) as [rc|]; [|done].
    destruct (rc !! a), (rc !! b); try done.
    rewrite connId_truthy. simpl. rewrite lookup_insert. by case_decide.
  - unfold handleAnswer. destruct (connections w !! rid) as [rc|]; [|done].
    destruct (rc !! a) as [e|]; [|done]. by destruct (peers e !! b).
  - unfold updateMediaState. destruct (connections w !! rid) as [rc|]; [|done].
    by destruct (rc !! uid).
  - by destruct (Hop now).
Qed.

(** X15 on the tracker with two staged offers: B answers A. *)
Lemma pending_offers_only_swept_witness :
  (handleAnswer "R" "B" "A" "answer" twoOffers).2 = true ∧
  is_Some (pendingOffers (handleAnswer "R" "B" "A" "answer" twoOffers).1 !! "B-A").
Proof.
  split; [vm_compute; reflexivity|].
  apply (pending_offers_only_swept (THandleAnswer "R" "B" "A" "answer") twoOffers "B-A").
  - done.
  - vm_compute. by eexists.
Defined.

(** X16. An offer staged at clock reading [now'] is still pending after a
    sweep at reading [t] exactly when [t - now' <= 30000]. *)
Theorem staged_offer_lifetime rid a b payload now now' t w :
  tracked rid a w = true → tracked rid b w = true →
  pendingOffers
    (cleanupPendingOffers t (handleOffer rid a b payload now now' w).1).1 !! connId a b =
    if t - now' >? 30000 then None
    else Some {| roomId := rid; fromUserId := a; toUserId := b;
                 offer := payload; timestamp := now' |}.
Proof.
  intros Ha Hb.
  destruct (handleOffer_tracked rid a b payload now now' w Ha Hb) as (Hres & _).
  rewrite cleanupPendingOffers_lookup, handleOffer_pending by (by rewrite Hres).
  by rewrite lookup_insert_eq.
Qed.

(** X16 on the two-peer tracker: staged at 1000, swept at 31000 and 31001. *)
Lemma staged_offer_lifetime_witness :
  is_Some (pendingOffers
    (cleanupPendingOffers 31000 (handleOffer "R" "A" "B" "sdp" 1000 1000 twoPeers).1).1
    !! "A-B") ∧
  pendingOffers
    (cleanupPendingOffers 31001 (handleOffer "R" "A" "B" "sdp" 1000 1000 twoPeers).1).1
    !! "A-B" = None.
Proof.
  change "A-B" with (connId "A" "B").
  rewrite !(staged_offer_lifetime "R" "A" "B" "sdp" 1000 1000 _ twoPeers)
    by (vm_compute; reflexivity).
  split; [by eexists | done].
Defined.

(** X17. Sweeps compose: a sweep at reading [t2] after a sweep at an earlier
    reading [t1] leaves the state a single sweep at [t2] leaves, and a second
    sweep at the same reading deletes nothing. *)
Theorem sweeps_compose t1 t2 w :
  t1 <= t2 →
  (cleanupPendingOffers t2 (cleanupPendingOffers t1 w).1).1 =
    (cleanupPendingOffers t2 w).1 ∧
  cleanupPendingOffers t2 (cleanupPendingOffers t2 w).1 =
    ((cleanupPendingOffers t2 w).1, 0%nat).
Proof.
  intros Hle.
  assert (∀ o, expired t1 o = true → expired t2 o = true) as Hmono.
  { intros o. unfold expired. rewrite !Z.gtb_gt. lia. }
  assert (∀ t u v, connections (cleanupPendingOffers t u).1 = connections u ∧
            (pendingOffers (cleanupPendingOffers t u).1 = pendingOffers v →
             connections u = connections v →
             (cleanupPendingOffers t u).1 = v)) as Hext.
  { intros t u v. split; [done|]. intros Hp Hc. destruct v as [vc vp]. simpl in *.
    unfold cleanupPendingOffers in *. simpl in *. by rewrite Hp, Hc. }
  split.
  - apply Hext; [|done]. apply map_eq. intros cid.
    rewrite !cleanupPendingOffers_lookup.
    destruct (pendingOffers w !! cid) as [o|]; [|done].
    destruct (expired t1 o) eqn:H1; [by rewrite (Hmono _ H1)|done].
  - set (w1 := (cleanupPendingOffers t2 w).1).
    assert (expiredOffers t2 w1 = []) as Hnil.
    { destruct (expiredOffers t2 w1) as [|cid l] eqn:He; [done|].
      assert (cid ∈ expiredOffers t2 w1) as Hin by (rewrite He; apply list_elem_of_here).
      apply expiredOffers_spec in Hin as (o & Hl & Hexp).
      unfold w1 in Hl. rewrite cleanupPendingOffers_lookup in Hl.
      destruct (pendingOffers w !! cid) as [o'|]; [|done].
      destruct (expired t2 o') eqn:H2; [done|]. injection Hl as ->. congruence. }
    clearbody w1. unfold cleanupPendingOffers. rewrite Hnil. simpl. by destruct w1.
Qed.

(** X17 on the tracker with offers staged at 1000 and 20000. *)
Lemma sweeps_compose_witness :
  (cleanupPendingOffers 60000 (cleanupPendingOffers 31001 twoOffers).1).1 =
    (cleanupPendingOffers 60000 twoOffers).1.
Proof. apply (sweeps_compose 31001 60000 twoOffers). lia. Defined.

Lemma string_app_cons c (s t : string) : (String c s ++ t = String c (s ++ t))%string.
Proof. reflexivity. Qed.

Lemma string_app_nil_l (t : string) : ("" ++ t = t)%string.
Proof. reflexivity. Qed.

Lemma string_app_assoc (s1 s2 s3 : string) :
  ((s1 ++ s2) ++ s3 = s1 ++ (s2 ++ s3))%string.
Proof.
  induction s1 as [|c s1 IH]; [done|].
  by rewrite !string_app_cons, IH.
Qed.

(** X18. Connection identifiers determine the pair when the first
    identifier contains no ['-'], and only then in general: the pairs
    ["a-b", "c"] and ["a", "b-c"] get the same identifier. Pending offers are
    kept under the connection identifier alone: of two successful offers
    whose identifiers coincide, whatever the rooms, the later one replaces
    the earlier one and the number of pending offers stays the same; when
    the identifiers differ, both are pending. *)
Theorem connId_pairs :
  (∀ a a' b b', dashFree a = true → dashFree a' = true →
     connId a b = connId a' b' → a = a' ∧ b = b') ∧
  (∀ a b c, connId (connId a b) c = connId a (connId b c)) ∧
  (∀ rid a b payload now now' rid' a' b' payload' t t' w,
     (handleOffer rid a b payload now now' w).2 ≠ None →
     (handleOffer rid' a' b' payload' t t'
        (handleOffer rid a b payload now now' w).1).2 ≠ None →
     (connId a b = connId a' b' →
      pendingOffers (handleOffer rid' a' b' payload' t t'
                       (handleOffer rid a b payload now now' w).1).1 !! connId a b =
        Some {| roomId := rid'; fromUserId := a'; toUserId := b';
                offer := payload'; timestamp := t' |} ∧
      size (pendingOffers (handleOffer rid' a' b' payload' t t'
                             (handleOffer rid a b payload now now' w).1).1) =
        size (pendingOffers (handleOffer rid a b payload now now' w).1)) ∧
     (connId a b ≠ connId a' b' →
      pendingOffers (handleOffer rid' a' b' payload' t t'
                       (handleOffer rid a b payload now now' w).1).1 !! connId a b =
        Some {| roomId := rid; fromUserId := a; toUserId := b;
                offer := payload; timestamp := now' |} ∧
      pendingOffers (handleOffer rid' a' b' payload' t t'
                       (handleOffer rid a b payload now now' w).1).1 !! connId a' b' =
        Some {| roomId := rid'; fromUserId := a'; toUserId := b';
                offer := payload'; timestamp := t' |})).
Proof.
  split; [|split].
  - unfold connId. induction a as [|x a IH]; intros [|x' a'] b b';
      rewrite ?string_app_cons, ?string_app_nil_l.
    + by intros _ _ [= ->].
    + intros _ Hd. intros [= <- _]. by simpl in Hd.
    + intros Hd _. intros [= -> _]. by simpl in Hd.
    + simpl. destruct (Ascii.eqb x dash); [done|]. destruct (Ascii.eqb x' dash); [done|].
      intros Ha Ha' [= -> Heq]. destruct (IH a' b b' Ha Ha' Heq) as [-> ->]. done.
  - intros a b c. unfold connId. by rewrite string_app_assoc, string_app_cons.
  - intros rid a b payload now now' rid' a' b' payload' t t' w H1 H2.
    rewrite (handleOffer_pending _ _ _ _ _ _ _ H2).
    rewrite (handleOffer_pending _ _ _ _ _ _ _ H1). split.
    + intros <-. split; [apply lookup_insert_eq|].
      apply map_size_insert_Some. eexists. apply lookup_insert_eq.
    + intros Hne. split; [|apply lookup_insert_eq].
      rewrite lookup_insert_ne by done. apply lookup_insert_eq.
Qed.

(** X18 on concrete identifiers: the offer of "a" to "b-c" replaces the one
    of "a-b" to "c". *)
Lemma connId_pairs_witness :
  connId "alice" "bob" ≠ connId "al" "ice-bob" ∧
  connId "a-b" "c" = connId "a" "b-c" ∧
  (fromUserId <$>
     pendingOffers (handleOffer "R" "a" "b-c" "sdp2" 2 2
                      (handleOffer "R" "a-b" "c" "sdp1" 1 1 dashPeers).1).1 !! "a-b-c")
    = Some "a" ∧
  size (pendingOffers (handleOffer "R" "a" "b-c" "sdp2" 2 2
                         (handleOffer "R" "a-b" "c" "sdp1" 1 1 dashPeers).1).1)
    = 1%nat.
Proof.
  destruct connId_pairs as (Hinj & Hamb & Hoffers). split; [|split].
  - intros Heq. destruct (Hinj "alice" "al" "bob" "ice-bob" eq_refl eq_refl Heq) as [Ha _].
    discriminate Ha.
  - exact (Hamb "a" "b" "c").
  - destruct (Hoffers "R" "a-b" "c" "sdp1" 1 1 "R" "a" "b-c" "sdp2" 2 2 dashPeers)
      as [Hsame _]; [by vm_compute..|].
    destruct (Hsame (Hamb "a" "b" "c")) as [Hl Hsz].
    split.
    + change "a-b-c" with (connId "a-b" "c"). by rewrite Hl.
    + rewrite Hsz. vm_compute. reflexivity.
Defined.

(** X19. [updateMediaState] returns [null] and changes nothing for a
    participant that is not tracked. Otherwise it sets the key named by the
    media type, whatever that name is apart from ["__proto__"], under which
    a plain object stores nothing: the snapshot then stays as it is. It
    returns the snapshot and keeps the other keys, the participant's links
    and socket, every other entry and the pending offers. *)
Theorem updateMediaState_spec rid uid mediaType enabled w :
  (entryOf rid uid w = None →
   updateMediaState rid uid mediaType enabled w = (w, None)) ∧
  (∀ e, entryOf rid uid w = Some e →
   ∃ ms e',
     (updateMediaState rid uid mediaType enabled w).2 = Some ms ∧
     (mediaType ≠ "__proto__" → ms !! mediaType = Some enabled) ∧
     (mediaType = "__proto__" → ms = mediaState e) ∧
     (∀ k, k ≠ mediaType → ms !! k = mediaState e !! k) ∧
     entryOf rid uid (updateMediaState rid uid mediaType enabled w).1 = Some e' ∧
     mediaState e' = ms ∧ peers e' = peers e ∧ socketId e' = socketId e ∧
     isInitiator e' = isInitiator e ∧
     (∀ rid' uid', (rid', uid') ≠ (rid, uid) →
        entryOf rid' uid' (updateMediaState rid uid mediaType enabled w).1 =
        entryOf rid' uid' w) ∧
     pendingOffers (updateMediaState rid uid mediaType enabled w).1 = pendingOffers w).
Proof.
  unfold updateMediaState. split.
  - unfold entryOf. destruct (connections w !! rid) as [rc|]; [|done]. by intros ->.
  - intros e He. unfold entryOf in He.
    destruct (connections w !! rid) as [rc|] eqn:Hc; [|done]. rewrite He. simpl.
    eexists _, _. split; [reflexivity|].
    split; [intros Hne; unfold assignKey; rewrite decide_False by done;
            apply lookup_insert_eq|].
    split; [intros ->; unfold assignKey; by rewrite decide_True|].
    split; [intros k Hk; unfold assignKey; case_decide; [done|];
            by apply lookup_insert_ne|].
    split; [apply entryOf_insert_eq|].
    do 4 (split; [reflexivity|]). split; [|done].
    intros rid' uid' Hne. by apply entryOf_insert_other.
Qed.

(** X19 on the two-peer tracker: A mutes, something unknown is set, and
    ["__proto__"] is not stored. *)
Lemma updateMediaState_spec_witness :
  ((updateMediaState "R" "A" "audio" false twoPeers).2 ≫= (.!! "audio")) = Some false ∧
  ((updateMediaState "R" "A" "volume" true twoPeers).2 ≫= (.!! "volume")) = Some true ∧
  (updateMediaState "R" "A" "__proto__" true twoPeers).2 = Some (mediaState (newEntry "sA")).
Proof.
  destruct (updateMediaState_spec "R" "A" "audio" false twoPeers) as [_ H1].
  destruct (updateMediaState_spec "R" "A" "volume" true twoPeers) as [_ H2].
  destruct (updateMediaState_spec "R" "A" "__proto__" true twoPeers) as [_ H3].
  destruct (H1 (newEntry "sA")) as (ms1 & _ & -> & Hk1 & _); [vm_compute; reflexivity|].
  destruct (H2 (newEntry "sA")) as (ms2 & _ & -> & Hk2 & _); [vm_compute; reflexivity|].
  destruct (H3 (newEntry "sA")) as (ms3 & _ & -> & _ & Hk3 & _); [vm_compute; reflexivity|].
  simpl. rewrite Hk1, Hk2, Hk3 by done. done.
Defined.

(** X20. The two stores after a media toggle. When both hold the
    participant, [Room.updateUserMedia] and [updateMediaState] called with
    the same media type and value agree on that flag for "audio", "video"
    and "screen". For any other media type the room record is returned
    unchanged while the tracker's snapshot gains that key; only under
    ["__proto__"] does the snapshot stay as it is, too. *)
Theorem media_toggle_agreement uid mediaType enabled room u rid w e :
  OMap.get uid (users room) = Some u → entryOf rid uid w = Some e →
  ∃ u' ms,
    (RoomM.updateUserMedia uid mediaType enabled room).2 = Some u' ∧
    (updateMediaState rid uid mediaType enabled w).2 = Some ms ∧
    (mediaType ≠ "__proto__" → ms !! mediaType = Some enabled) ∧
    (mediaType = "__proto__" → ms = mediaState e) ∧
    match roomFlag mediaType u' with
    | Some flag => flag = enabled ∧ ms !! mediaType = Some flag
    | None => u' = u
    end.
Proof.
  intros Hg He.
  assert (∃ ms, (updateMediaState rid uid mediaType enabled w).2 = Some ms ∧
                ms = assignKey mediaType enabled (mediaState e)) as (ms & Hms & Heq).
  { unfold updateMediaState. unfold entryOf in He.
    destruct (connections w !! rid) as [rc|]; [|done]. rewrite He. by eexists. }
  unfold RoomM.updateUserMedia. rewrite Hg. simpl.
  eexists _, ms. split; [reflexivity|]. split; [done|].
  assert (mediaType ≠ "__proto__" → ms !! mediaType = Some enabled) as Hset.
  { intros Hne. rewrite Heq. unfold assignKey. rewrite decide_False by done.
    apply lookup_insert_eq. }
  split; [done|].
  split; [intros ->; rewrite Heq; unfold assignKey; by rewrite decide_True|].
  unfold roomFlag. repeat case_decide; simplify_eq/=; try done;
    (split; [done | by apply Hset]).
Qed.

(** X20 for A in the scenario room and in the two-peer tracker. *)
Lemma media_toggle_agreement_witness :
  ∃ u' ms,
    (RoomM.updateUserMedia "A" "screen" true
       (RoomM.new "r" None 0)).2 = None ∧
    (RoomM.updateUserMedia "A" "screen" true
       (set_users [("A", mkUser "A" "A" "sA" 0 true true false host)]
                  (RoomM.new "r" None 0))).2 = Some u' ∧
    isScreenSharing u' = true ∧
    (updateMediaState "R" "A" "screen" true twoPeers).2 = Some ms ∧
    ms !! "screen" = Some true.
Proof.
  destruct (media_toggle_agreement "A" "screen" true
              (set_users [("A", mkUser "A" "A" "sA" 0 true true false host)]
                         (RoomM.new "r" None 0))
              (mkUser "A" "A" "sA" 0 true true false host) "R" twoPeers (newEntry "sA"))
    as (u' & ms & Hu & Hms & Hset & _ & Hflag).
  - reflexivity.
  - vm_compute. reflexivity.
  - exists u', ms. split; [reflexivity|]. split; [done|]. split; [|split; [done|]].
    + vm_compute in Hu. injection Hu as <-. reflexivity.
    + by apply Hset.
Defined.

Lemma noEmptyBucket_insert rid uid e rc w po :
  noEmptyBucket w →
  noEmptyBucket {| connections := <[rid := <[uid := e]> rc]> (connections w);
                   pendingOffers := po |}.
Proof.
  intros Hw rid' rc'. simpl. rewrite lookup_insert. case_decide.
  - intros [= <-]. apply insert_non_empty.
  - apply Hw.
Qed.

Lemma trackerRun_noEmptyBucket op w : noEmptyBucket w → noEmptyBucket (trackerRun op w).
Proof.
  intros Hw. destruct op as [rid uid sid|rid uid|rid a b now|rid a b p now now'
                             |rid a b ans|rid uid mt en|now]; simpl.
  - unfold addUser, initializeRoom.
    destruct (connections w !! rid) as [rc|] eqn:Hc; simpl.
    + rewrite Hc. simpl. destruct (rc !! uid); [done|]. by apply noEmptyBucket_insert.
    + rewrite lookup_insert_eq. simpl. rewrite lookup_empty. simpl.
      rewrite insert_insert_eq. by apply noEmptyBucket_insert.
  - unfold removeUser. destruct (connections w !! rid) as [rc|] eqn:Hc; [|done].
    destruct (rc !! uid); [|done]. simpl.
    destruct (Nat.eqb_spec (size (delete uid rc)) 0) as [Hz|Hnz].
    + intros rid' rc'. simpl. rewrite lookup_delete. case_decide; [done | apply Hw].
    + intros rid' rc'. simpl. rewrite lookup_insert. case_decide; [|apply Hw].
      intros [= <-] Hemp. apply Hnz. rewrite Hemp. apply map_size_empty.
  - unfold createPeerConnection. destruct (connections w !! rid) as [rc|]; [|done].
    destruct (rc !! a), (rc !! b); try done. by apply noEmptyBucket_insert.
  - unfold handleOffer, createPeerConnection.
    destruct (connections w !! rid) as [rc|]; [|done].
    destruct (rc !! a), (rc !! b); try done.
    rewrite connId_truthy. simpl. by apply noEmptyBucket_insert.
  - unfold handleAnswer. destruct (connections w !! rid) as [rc|]; [|done].
    destruct (rc !! a) as [e|]; [|done]. destruct (peers e !! b); [|done].
    by apply noEmptyBucket_insert.
  - unfold updateMediaState. destruct (connections w !! rid) as [rc|]; [|done].
    destruct (rc !! uid); [|done]. by apply noEmptyBucket_insert.
  - done.
Qed.

(** X21. After any history of tracker operations no room bucket is empty:
    the rooms [getStats] counts and lists are exactly the rooms with at
    least one tracked participant. *)
Theorem tracker_no_empty_bucket (ops : list TrackerOp) :
  noEmptyBucket (trackerAfter ops) ∧
  ∀ rid rs, Stats.rooms (getStats (trackerAfter ops)) !! rid = Some rs →
            Stats.userCount rs ≠ 0%nat.
Proof.
  assert (noEmptyBucket (trackerAfter ops)) as Hinv.
  { unfold trackerAfter.
    assert (noEmptyBucket init) as Hinit by (intros rid rc; simpl; by rewrite lookup_empty).
    revert Hinit. generalize init.
    induction ops as [|op ops IH]; intros w Hw; simpl; [done|].
    apply IH. by apply trackerRun_noEmptyBucket. }
  split; [done|].
  intros rid rs. simpl. rewrite lookup_fmap.
  destruct (connections (trackerAfter ops) !! rid) as [rc|] eqn:Hc; [|done].
  simpl. intros [= <-]. simpl. intros Hz%map_size_empty_inv. by apply (Hinv rid rc).
Qed.

(** X21 after A and B were added and removed again: no room is left. *)
Lemma tracker_no_empty_bucket_witness :
  let ops := [TAddUser "R" "A" "sA"; TAddUser "R" "B" "sB";
              TRemoveUser "R" "A"; TRemoveUser "R" "B"] in
  Stats.totalRooms (getStats (trackerAfter ops)) = 0%nat ∧
  connections (trackerAfter ops) !! "R" ≠ Some ∅.
Proof.
  intros ops. split; [vm_compute; reflexivity|].
  destruct (tracker_no_empty_bucket ops) as [Hinv _].
  intros Hc. by apply (Hinv "R" ∅ Hc).
Defined.

Lemma set_status_idem st (l : PeerLink) : set_status st (set_status st l) = set_status st l.
Proof. done. Qed.

(** X22. [handleAnswer] touches one link only: the pending offers, every
    entry's socket and media state, and every link other than the one from
    the answerer to its target are as before. When it succeeds that link is
    [connected] and keeps its identifier and creation time; and a repeated
    answer gives the same result and changes nothing more. *)
Theorem handleAnswer_frame rid a b answer w :
  pendingOffers (handleAnswer rid a b answer w).1 = pendingOffers w ∧
  (∀ rid' c d, (rid', c, d) ≠ (rid, a, b) →
     linkStatus rid' c d (handleAnswer rid a b answer w).1 = linkStatus rid' c d w) ∧
  (∀ rid' c, tracked rid' c (handleAnswer rid a b answer w).1 = tracked rid' c w) ∧
  ((handleAnswer rid a b answer w).2 = true →
     linkStatus rid a b (handleAnswer rid a b answer w).1 = Some connected) ∧
  handleAnswer rid a b answer (handleAnswer rid a b answer w).1 =
    handleAnswer rid a b answer w.
Proof.
  unfold handleAnswer.
  destruct (connections w !! rid) as [rc|] eqn:Hc;
    [|simpl; rewrite Hc; by repeat split].
  destruct (rc !! a) as [e|] eqn:He;
    [|simpl; rewrite Hc, He; by repeat split].
  destruct (peers e !! b) as [l|] eqn:Hl;
    [|simpl; rewrite Hc, He, Hl; by repeat split].
  simpl. split; [done|]. split; [|split; [|split]].
  - intros rid' c d Hne. rewrite !linkStatus_entryOf.
    destruct (decide ((rid', c) = (rid, a))) as [[= -> ->]|Hne'].
    + rewrite entryOf_insert_eq. unfold entryOf. rewrite Hc, He. simpl.
      rewrite lookup_insert_ne; [done | congruence].
    + by rewrite entryOf_insert_other.
  - intros rid' c. apply bool_eq_iff. rewrite !tracked_entryOf.
    destruct (decide ((rid', c) = (rid, a))) as [[= -> ->]|Hne'].
    + rewrite entryOf_insert_eq. unfold entryOf. rewrite Hc, He. by split.
    + by rewrite entryOf_insert_other.
  - intros _. rewrite linkStatus_entryOf, entryOf_insert_eq. simpl.
    by rewrite lookup_insert_eq.
  - rewrite !lookup_insert_eq. simpl. rewrite lookup_insert_eq. simpl.
    by rewrite !insert_insert_eq.
Qed.

(** X22 on the tracker with two staged offers: B answers A twice. *)
Lemma handleAnswer_frame_witness :
  linkStatus "R" "B" "A" (handleAnswer "R" "B" "A" "answer" twoOffers).1 = Some connected ∧
  linkStatus "R" "A" "B" (handleAnswer "R" "B" "A" "answer" twoOffers).1 = Some connecting.
Proof.
  destruct (handleAnswer_frame "R" "B" "A" "answer" twoOffers)
    as (_ & Hother & _ & Hok & _).
  split.
  - apply Hok. vm_compute. reflexivity.
  - rewrite Hother by done. vm_compute. reflexivity.
Defined.
End tracker_more.

(** ** The socket event limiter *)

Section limiter_facts.
Import RateLimiterM.
Implicit Types (t : gmap string Limiter) (address eventType : string).

Lemma accepted_cons (ok : bool) (oks : list bool) :
  accepted (ok :: oks) = ((if ok then 1 else 0) + accepted oks)%nat.
Proof. unfold accepted. rewrite filter_cons. by destruct ok. Qed.

Lemma runChecks_cons address eventType maxEvents windowMs now rest t :
  runChecks address eventType maxEvents windowMs (now :: rest) t =
  ((runChecks address eventType maxEvents windowMs rest
      (checkSocketRateLimit address eventType maxEvents windowMs now t).1).1,
   (checkSocketRateLimit address eventType maxEvents windowMs now t).2 ::
   (runChecks address eventType maxEvents windowMs rest
      (checkSocketRateLimit address eventType maxEvents windowMs now t).1).2).
Proof.
  simpl. destruct (checkSocketRateLimit _ _ _ _ now t) as [t1 ok]. simpl.
  by destruct (runChecks _ _ _ _ rest t1).
Qed.

(** Calls inside a window that is already open: what is left of the budget
    is let through, the rest is refused. *)
Lemma runChecks_open_window address eventType maxEvents windowMs times :
  ∀ t c r,
    t !! limiterKey address eventType = Some {| count := c; resetTime := r |} →
    Forall (λ now, now <= r) times →
    accepted (runChecks address eventType maxEvents windowMs times t).2 =
      Nat.min (length times) (Z.to_nat (maxEvents - c)).
Proof.
  induction times as [|now rest IH]; intros t c r Ht Hall; [done|].
  apply Forall_cons in Hall as [Hnow Hrest].
  rewrite runChecks_cons. cbn [fst snd]. rewrite accepted_cons.
  change (length (now :: rest)) with (S (length rest)).
  unfold checkSocketRateLimit. rewrite Ht. cbn [count resetTime].
  destruct (Z.gtb_spec now r) as [|_]; [lia|].
  destruct (Z.geb_spec c maxEvents) as [Hfull|Hroom]; cbn [fst snd].
  - rewrite (IH t c r Ht Hrest). lia.
  - rewrite (IH _ (c + 1) r); [lia | apply lookup_insert_eq | done].
Qed.

(** X23. Within one window the limiter lets through at most [maxEvents]
    calls, but always the first: for a key without entry, followed by calls
    that all arrive no later than the end of the window the first call
    opens, the number of accepted calls is the smaller of the number of
    calls and [max 1 maxEvents]. *)
Theorem limiter_window_cap address eventType maxEvents windowMs now rest t :
  t !! limiterKey address eventType = None →
  Forall (λ now', now' <= now + windowMs) rest →
  head (runChecks address eventType maxEvents windowMs (now :: rest) t).2 = Some true ∧
  accepted (runChecks address eventType maxEvents windowMs (now :: rest) t).2 =
    Nat.min (S (length rest)) (Z.to_nat (Z.max 1 maxEvents)).
Proof.
  intros Ht Hall. rewrite runChecks_cons. cbn [fst snd]. rewrite accepted_cons.
  unfold checkSocketRateLimit. rewrite Ht. cbn [fst snd]. split; [done|].
  rewrite (runChecks_open_window _ _ _ _ rest _ 1 (now + windowMs));
    [lia | apply lookup_insert_eq | done].
Qed.

(** X23 with a budget of 2: of four calls in the window two are accepted. *)
Lemma limiter_window_cap_witness :
  (runChecks "10.0.0.1" "offer" 2 60000 [0; 10; 20; 60000] ∅).2 =
    [true; true; false; false] ∧
  accepted (runChecks "10.0.0.1" "offer" 2 60000 [0; 10; 20; 60000] ∅).2 = 2%nat.
Proof.
  split; [vm_compute; reflexivity|].
  destruct (limiter_window_cap "10.0.0.1" "offer" 2 60000 0 [10; 20; 60000] ∅) as [_ Hacc].
  - apply lookup_empty.
  - repeat constructor; lia.
  - rewrite Hacc. reflexivity.
Defined.

(** X24. A call is refused exactly when the key has an entry whose window
    is still open ([now <= resetTime]) and whose count has reached
    [maxEvents]. A refused call changes nothing, and no call changes the
    entry of another key. *)
Theorem limiter_refusal address eventType maxEvents windowMs now t :
  ((checkSocketRateLimit address eventType maxEvents windowMs now t).2 = false ↔
   ∃ l, t !! limiterKey address eventType = Some l ∧
        now <= resetTime l ∧ maxEvents <= count l) ∧
  ((checkSocketRateLimit address eventType maxEvents windowMs now t).2 = false →
   (checkSocketRateLimit address eventType maxEvents windowMs now t).1 = t) ∧
  (∀ k, k ≠ limiterKey address eventType →
     (checkSocketRateLimit address eventType maxEvents windowMs now t).1 !! k = t !! k).
Proof.
  unfold checkSocketRateLimit.
  destruct (t !! limiterKey address eventType) as [l|] eqn:Ht; simpl.
  - destruct (Z.gtb_spec now (resetTime l)) as [Hgt|Hle]; simpl.
    + split; [|split; [done|]].
      * split; [done|]. intros (l' & [= <-] & ? & ?). lia.
      * intros k Hk. by rewrite lookup_insert_ne.
    + destruct (Z.geb_spec (count l) maxEvents) as [Hfull|Hroom]; simpl.
      * split; [|by split]. split; [|done]. intros _. exists l. repeat split; [done|lia].
      * split; [|split; [done|]].
        -- split; [done|]. intros (l' & [= <-] & ? & ?). lia.
        -- intros k Hk. by rewrite lookup_insert_ne.
  - split; [|split; [done|]].
    + split; [done|]. by intros (l' & [=] & _).
    + intros k Hk. by rewrite lookup_insert_ne.
Qed.

(** X24 once the budget of 2 is used up. *)
Lemma limiter_refusal_witness :
  let t := (runChecks "10.0.0.1" "offer" 2 60000 [0; 10] ∅).1 in
  checkSocketRateLimit "10.0.0.1" "offer" 2 60000 20 t = (t, false).
Proof.
  intros t.
  destruct (limiter_refusal "10.0.0.1" "offer" 2 60000 20 t) as (Hiff & Hsame & _).
  assert ((checkSocketRateLimit "10.0.0.1" "offer" 2 60000 20 t).2 = false) as Hno.
  { apply Hiff. exists {| count := 2; resetTime := 60000 |}.
    split; [vm_compute; reflexivity|]. simpl. lia. }
  specialize (Hsame Hno).
  destruct (checkSocketRateLimit "10.0.0.1" "offer" 2 60000 20 t) as [t' ok].
  simpl in *. by subst.
Defined.

Lemma cleanupLimiter_lookup now t k :
  cleanupLimiter now t !! k =
  match t !! k with
  | Some l => if now >? resetTime l then None else Some l
  | None => None
  end.
Proof.
  unfold cleanupLimiter. rewrite map_lookup_filter.
  destruct (t !! k) as [l|]; simpl; [|done].
  destruct (now >? resetTime l) eqn:He; case_guard; simpl; congruence.
Qed.

(** X25. The periodic clean-up deletes exactly the entries whose window has
    ended ([now > resetTime]), and it never changes what a later call gets:
    a call at a clock reading not before the clean-up has the same answer,
    and leaves the same entry for its key, with or without the clean-up. *)
Theorem limiter_cleanup_transparent address eventType maxEvents windowMs now now' t :
  (∀ k l, t !! k = Some l →
     cleanupLimiter now t !! k = if now >? resetTime l then None else Some l) ∧
  (now <= now' →
   (checkSocketRateLimit address eventType maxEvents windowMs now'
      (cleanupLimiter now t)).2 =
   (checkSocketRateLimit address eventType maxEvents windowMs now' t).2 ∧
   (checkSocketRateLimit address eventType maxEvents windowMs now'
      (cleanupLimiter now t)).1 !! limiterKey address eventType =
   (checkSocketRateLimit address eventType maxEvents windowMs now' t).1
     !! limiterKey address eventType).
Proof.
  split.
  - intros k l Hk. by rewrite cleanupLimiter_lookup, Hk.
  - intros Hle. unfold checkSocketRateLimit. rewrite cleanupLimiter_lookup.
    destruct (t !! limiterKey address eventType) as [l|] eqn:Ht; simpl.
    + destruct (Z.gtb_spec now (resetTime l)) as [Hgt|Hnot]; simpl.
      * destruct (Z.gtb_spec now' (resetTime l)) as [_|]; [|lia]. simpl.
        by rewrite !lookup_insert_eq.
      * destruct (now' >? resetTime l); simpl; [by rewrite !lookup_insert_eq|].
        destruct (count l >=? maxEvents); simpl.
        -- rewrite cleanupLimiter_lookup, Ht.
           destruct (Z.gtb_spec now (resetTime l)); [lia | done].
        -- by rewrite !lookup_insert_eq.
    + by rewrite !lookup_insert_eq.
Qed.

(** X25 on a table whose only window ended at 60000, cleaned at 70000. *)
Lemma limiter_cleanup_transparent_witness :
  let t := (runChecks "10.0.0.1" "offer" 2 60000 [0; 10] ∅).1 in
  cleanupLimiter 70000 t !! limiterKey "10.0.0.1" "offer" = None ∧
  (checkSocketRateLimit "10.0.0.1" "offer" 2 60000 80000 (cleanupLimiter 70000 t)).2 =
  (checkSocketRateLimit "10.0.0.1" "offer" 2 60000 80000 t).2.
Proof.
  intros t.
  destruct (limiter_cleanup_transparent "10.0.0.1" "offer" 2 60000 70000 80000 t)
    as [Hdel Hsame].
  split.
  - rewrite (Hdel _ {| count := 2; resetTime := 60000 |}); [done|].
    vm_compute. reflexivity.
  - apply Hsame. lia.
Defined.
End limiter_facts.

(** ** The room manager: lookups and frames *)

Section manager_lookups.
Implicit Types (m : RoomManager) (uid rid : string) (ref : nat) (room : Room).

(** X9 on an empty room: the participant added with socket "sA" is found. *)
Lemma getUserBySocketId_spec_witness :
  ∃ room' u,
    RoomM.addUser "A" {| infoName := None; infoSocketId := "sA" |} 4
      (RoomM.new "r" None 0) = Ok (room', u) ∧
    RoomM.getUserBySocketId "sA" room' = Some u ∧
    RoomM.getUserBySocketId "sB" room' = None.
Proof.
  destruct (RoomM.addUser "A" {| infoName := None; infoSocketId := "sA" |} 4
              (RoomM.new "r" None 0)) as [[room' u]|e] eqn:Hadd;
    [|by vm_compute in Hadd].
  exists room', u. split; [done|].
  destruct (getUserBySocketId_spec "sA" (RoomM.new "r" None 0)) as [_ Hfound].
  split.
  - by apply (Hfound "A" {| infoName := None; infoSocketId := "sA" |} 4 room' u).
  - vm_compute in Hadd. injection Hadd as <- <-. reflexivity.
Defined.

(** X26. In a reachable state [getUserRoom] returns the room a participant
    is in. After the only participant of a room has joined that room again
    (which succeeds but leaves the room out of the directory), [getUserRoom]
    finds no room for it and [updateUserMedia] returns [null] without
    changing anything. *)
Theorem getUserRoom_follows_membership (m : RoomManager) (Hm : reachable m) :
  (∀ uid rid, member uid rid m = true →
     RoomManagerM.getUserRoom uid m = RoomManagerM.getRoom rid m ∧
     is_Some (RoomManagerM.getUserRoom uid m)) ∧
  (∀ rid room uid u info pw now mediaType enabled,
     RoomManagerM.roomOf rid m = Some room → users room = [(uid, u)] →
     RoomM.validatePassword (RoomManagerM.passwordOrNull pw) room = true →
     let m' := (RoomManagerM.joinRoom rid uid info pw now m).1 in
     RoomManagerM.getUserRoom uid m' = None ∧
     RoomManagerM.updateUserMedia uid mediaType enabled m' = (m', None)).
Proof.
  pose proof (reachable_Inv m Hm) as HI. split.
  - intros uid rid Hmem. pose proof (member_index _ _ _ HI Hmem) as Hu.
    apply member_true in Hmem as (ref & room & Hr & _).
    destruct (inv_dir m HI _ _ Hr) as [Hne _].
    unfold RoomManagerM.getUserRoom, RoomManagerM.getRoom.
    rewrite Hu, (truthy_nonempty _ Hne), Hr. split; [done | by eexists].
  - intros rid room uid u info pw now mediaType enabled
      (ref & Hr & Hh)%roomOf_Some Hus Hpw m'.
    assert (RoomManagerM.getUserRoom uid m' = None) as Hgu.
    { unfold m'.
      rewrite (rejoin_sole_accepted m rid ref room uid u info pw now HI Hr Hh Hus Hpw).
      unfold RoomManagerM.getUserRoom, RoomManagerM.getRoom. simpl.
      rewrite lookup_insert_eq, lookup_delete_eq. by destruct (truthy rid). }
    split; [done|]. unfold RoomManagerM.updateUserMedia. by rewrite Hgu.
Qed.

(** X26 on the scenario: A, alone in r1, joins r1 again and then toggles
    its microphone. *)
Lemma getUserRoom_follows_membership_witness :
  RoomManagerM.getUserRoom "A" Scenario.m2 = Some 0%nat ∧
  (RoomManagerM.updateUserMedia "A" "audio" false
     (RoomManagerM.joinRoom "r1" "A" (Scenario.info "A") PwUndefined 5 Scenario.m2).1).2
    = None.
Proof.
  destruct (getUserRoom_follows_membership Scenario.m2 reachable_m2) as [Hin Hre].
  split.
  - destruct (Hin "A" "r1") as [-> _]; vm_compute; reflexivity.
  - destruct (RoomManagerM.roomOf "r1" Scenario.m2) as [room|] eqn:Hroom;
      [|by vm_compute in Hroom].
    destruct (Hre "r1" room "A" (mkUser "A" "A" "A" 1 true true false host)
                (Scenario.info "A") PwUndefined 5 "audio" false Hroom) as [_ ->].
    + vm_compute in Hroom. by injection Hroom as <-.
    + vm_compute in Hroom. by injection Hroom as <-.
    + done.
Defined.

(** X27. In a reachable state a [joinRoom] call by one participant, whatever
    its outcome, changes nobody else's membership in any room. *)
Theorem joinRoom_frame_others (m : RoomManager) (Hm : reachable m)
    rid uid info pw now v r :
  v ≠ uid →
  member v r (RoomManagerM.joinRoom rid uid info pw now m).1 = member v r m.
Proof.
  intros Hne. pose proof (reachable_Inv m Hm) as HI.
  assert (∀ rid', member v rid' (RoomManagerM.leaveRoom uid m).1 = member v rid' m)
    as Hleave by (intros rid'; by apply leaveRoom_others).
  destruct (RoomManagerM.joinRoom rid uid info pw now m) as [m' [[ref u]|e]] eqn:Hj.
  - apply joinRoom_Ok in Hj as (room & room1 & room2 & Hr & Hh & _ & Hh1 & Ha & ->).
    simpl. rewrite <- Hleave.
    apply addUser_Ok in Ha as (_ & _ & _ & _ & ->).
    set (m1 := (RoomManagerM.leaveRoom uid m).1) in *.
    assert (ref < length (heap m1))%nat as Hlt by (by eapply lookup_lt_Some).
    apply bool_eq_iff. rewrite !member_true. simpl. split.
    + intros (ref' & room' & Hr' & Hh' & Hin).
      destruct (decide (ref' = ref)) as [->|Hneq].
      * rewrite list_lookup_insert_eq in Hh' by done. injection Hh' as <-.
        simpl in Hin. unfold OMap.keys in Hin. rewrite map_app in Hin.
        apply elem_of_app in Hin as [Hin|Hx]; [by exists ref, room1|].
        apply list_elem_of_singleton in Hx. done.
      * rewrite list_lookup_insert_ne in Hh' by done. by exists ref', room'.
    + intros (ref' & room' & Hr' & Hh' & Hin).
      destruct (decide (ref' = ref)) as [->|Hneq].
      * exists ref, (set_users (users room1 ++ [(uid, u)]) room1).
        split; [done|]. split; [by apply list_lookup_insert_eq|]. simpl.
        assert (room' = room1) as -> by congruence.
        unfold OMap.keys. rewrite map_app. apply elem_of_app. by left.
      * exists ref', room'. split; [done|]. split; [|done].
        by rewrite list_lookup_insert_ne.
  - apply joinRoom_Err in Hj as [[-> _]|[[-> _]|[-> _]]]; simpl; [done|by rewrite Hleave..].
Qed.

(** X27 on the two-room scenario: B stays in r2 while A is refused there. *)
Lemma joinRoom_frame_others_witness :
  member "B" "r2"
    (RoomManagerM.joinRoom "r2" "A" (Scenario.info "A") PwUndefined 4
       Scenario.two_rooms).1 = true.
Proof.
  rewrite (joinRoom_frame_others Scenario.two_rooms reachable_two_rooms) by done.
  vm_compute. reflexivity.
Defined.
End manager_lookups.

(** ** The tracker's statistics *)

Section tracker_stats.
Import WebRTCManagerM.
Implicit Types (w : WebRTCManager) (rid a b uid : string).

(** Sums over a table, as the loops of [getStats] accumulate them. *)
Lemma sum_fold_insert {V} (g : V → nat) k v (m : gmap string V) :
  (map_fold (λ _ x acc, acc + g x) 0 (<[k := v]> m) +
     match m !! k with Some v0 => g v0 | None => 0 end =
   map_fold (λ _ x acc, acc + g x) 0 m + g v)%nat.
Proof.
  destruct (m !! k) as [v0|] eqn:Hk.
  - rewrite <- insert_delete_eq.
    rewrite map_fold_insert_L; [|intros; lia | apply lookup_delete_eq].
    rewrite (map_fold_delete_L _ _ k v0 m); [lia | intros; lia | done].
  - rewrite map_fold_insert_L; [lia | intros; lia | done].
Qed.

Lemma sum_fold_delete {V} (g : V → nat) k v (m : gmap string V) :
  m !! k = Some v →
  (map_fold (λ _ x acc, acc + g x) 0 (delete k m) + g v =
   map_fold (λ _ x acc, acc + g x) 0 m)%nat.
Proof.
  intros Hk. rewrite (map_fold_delete_L _ _ k v m); [lia | intros; lia | done].
Qed.

(** X28. What a successful [handleOffer] does to [getStats]: the room and
    participant totals stay, and the connection total grows by one when the
    offerer had no link to the target yet and stays when it had one. *)
Theorem handleOffer_stats rid a b payload now now' w :
  tracked rid a w = true → tracked rid b w = true →
  Stats.totalRooms (getStats (handleOffer rid a b payload now now' w).1) =
    Stats.totalRooms (getStats w) ∧
  Stats.totalUsers (getStats (handleOffer rid a b payload now now' w).1) =
    Stats.totalUsers (getStats w) ∧
  Stats.totalConnections (getStats (handleOffer rid a b payload now now' w).1) =
    match linkStatus rid a b w with
    | Some _ => Stats.totalConnections (getStats w)
    | None => S (Stats.totalConnections (getStats w))
    end.
Proof.
  intros (rc & ea & Hc & Hea)%tracked_true (rc' & eb & Hc' & Heb)%tracked_true.
  rewrite Hc in Hc'. injection Hc' as <-.
  unfold handleOffer, createPeerConnection, linkStatus.
  rewrite Hc, Hea, Heb, connId_truthy. cbn [fst snd getStats connections
    Stats.totalRooms Stats.totalUsers Stats.totalConnections].
  set (link := {| connectionId := connId a b; peerId := b; status := connecting;
                  createdAt := now |}).
  set (ea' := {| socketId := socketId ea; peers := <[b := link]> (peers ea);
                 isInitiator := isInitiator ea; mediaState := mediaState ea |}).
  split; [|split].
  - apply map_size_insert_Some. by eexists.
  - pose proof (sum_fold_insert (λ rc0 : gmap string PeerEntry, size rc0) rid
                  (<[a := ea']> rc) (connections w)) as Hsum.
    rewrite Hc in Hsum. rewrite (map_size_insert_Some a ea' rc) in Hsum by (by eexists).
    lia.
  - pose proof (sum_fold_insert roomConnectionCount rid (<[a := ea']> rc)
                  (connections w)) as Hsum.
    rewrite Hc in Hsum.
    pose proof (sum_fold_insert (λ e : PeerEntry, size (peers e)) a ea' rc) as Hin.
    rewrite Hea in Hin. fold (roomConnectionCount (<[a := ea']> rc)) in Hin.
    fold (roomConnectionCount rc) in Hin.
    assert (size (peers ea') =
            match peers ea !! b with Some _ => size (peers ea) | None => S (size (peers ea)) end)
      as Hsz.
    { unfold ea'. simpl. rewrite map_size_insert. by destruct (peers ea !! b). }
    destruct (peers ea !! b); simpl; lia.
Qed.

(** X28 on the two-peer tracker: a first offer, then the same offer again. *)
Lemma handleOffer_stats_witness :
  Stats.totalConnections (getStats (handleOffer "R" "A" "B" "sdp" 5 5 twoPeers).1) = 1%nat ∧
  Stats.totalConnections (getStats (handleOffer "R" "A" "B" "sdp" 9 9 twoOffers).1) = 2%nat.
Proof.
  destruct (handleOffer_stats "R" "A" "B" "sdp" 5 5 twoPeers) as (_ & _ & H1);
    [vm_compute; reflexivity..|].
  destruct (handleOffer_stats "R" "A" "B" "sdp" 9 9 twoOffers) as (_ & _ & H2);
    [vm_compute; reflexivity..|].
  rewrite H1, H2. split; vm_compute; reflexivity.
Defined.

(** X29. What [addUser] and [removeUser] do to [getStats]. Adding a
    participant the tracker does not hold raises the participant total by
    one and keeps the connection total. Removing a tracked participant
    lowers the participant total by one and the connection total by the
    number of links that participant held itself; links others hold towards
    it stay counted. *)
Theorem tracker_membership_stats rid uid sid w :
  (entryOf rid uid w = None →
   Stats.totalUsers (getStats (addUser rid uid sid w).1) =
     S (Stats.totalUsers (getStats w)) ∧
   Stats.totalConnections (getStats (addUser rid uid sid w).1) =
     Stats.totalConnections (getStats w)) ∧
  (∀ e, entryOf rid uid w = Some e →
   S (Stats.totalUsers (getStats (removeUser rid uid w).1)) =
     Stats.totalUsers (getStats w) ∧
   (Stats.totalConnections (getStats (removeUser rid uid w).1) + size (peers e))%nat =
     Stats.totalConnections (getStats w)).
Proof.
  split.
  - unfold entryOf, addUser, initializeRoom.
    destruct (connections w !! rid) as [rc|] eqn:Hc.
    + intros He. rewrite Hc. simpl. rewrite He.
      cbn [fst snd getStats connections Stats.totalUsers Stats.totalConnections].
      pose proof (sum_fold_insert (λ rc0 : gmap string PeerEntry, size rc0) rid
                    (<[uid := newEntry sid]> rc) (connections w)) as Hu.
      pose proof (sum_fold_insert roomConnectionCount rid
                    (<[uid := newEntry sid]> rc) (connections w)) as Hcn.
      rewrite Hc in Hu, Hcn.
      rewrite (map_size_insert_None uid _ rc He) in Hu.
      pose proof (sum_fold_insert (λ e : PeerEntry, size (peers e)) uid (newEntry sid) rc)
        as Hin.
      rewrite He in Hin. fold (roomConnectionCount (<[uid := newEntry sid]> rc)) in Hin.
      fold (roomConnectionCount rc) in Hin. simpl in Hin.
      rewrite map_size_empty in Hin. lia.
    + intros _. simpl. rewrite lookup_insert_eq. simpl. rewrite lookup_empty.
      cbn [fst snd getStats connections Stats.totalUsers Stats.totalConnections].
      rewrite insert_insert_eq.
      pose proof (sum_fold_insert (λ rc0 : gmap string PeerEntry, size rc0) rid
                    (<[uid := newEntry sid]> ∅) (connections w)) as Hu.
      pose proof (sum_fold_insert roomConnectionCount rid
                    (<[uid := newEntry sid]> ∅) (connections w)) as Hcn.
      rewrite Hc in Hu, Hcn.
      rewrite map_size_insert_None, map_size_empty in Hu by apply lookup_empty.
      pose proof (sum_fold_insert (λ e : PeerEntry, size (peers e)) uid (newEntry sid) ∅)
        as Hin.
      rewrite lookup_empty, map_fold_empty in Hin.
      fold (roomConnectionCount (<[uid := newEntry sid]> ∅)) in Hin. simpl in Hin.
      rewrite map_size_empty in Hin. lia.
  - intros e. unfold entryOf, removeUser.
    destruct (connections w !! rid) as [rc|] eqn:Hc; [|done].
    intros He. rewrite He.
    pose proof (sum_fold_delete (λ e0 : PeerEntry, size (peers e0)) uid e rc He) as Hin.
    fold (roomConnectionCount (delete uid rc)) in Hin.
    fold (roomConnectionCount rc) in Hin.
    assert (S (size (delete uid rc)) = size rc) as Hsz.
    { rewrite <- (insert_delete_id rc uid e He) at 2.
      rewrite map_size_insert_None; [done | apply lookup_delete_eq]. }
    cbn [fst snd getStats connections Stats.totalUsers Stats.totalConnections].
    destruct (Nat.eqb_spec (size (delete uid rc)) 0) as [Hz|Hnz].
    + pose proof (sum_fold_delete (λ rc0 : gmap string PeerEntry, size rc0) rid rc
                    (connections w) Hc) as Hu.
      pose proof (sum_fold_delete roomConnectionCount rid rc (connections w) Hc) as Hcn.
      apply map_size_empty_inv in Hz as Hemp. rewrite Hemp in Hin.
      unfold roomConnectionCount in *. cbn beta in *. rewrite map_fold_empty in Hin.
      rewrite Hemp, map_size_empty in Hsz. lia.
    + pose proof (sum_fold_insert (λ rc0 : gmap string PeerEntry, size rc0) rid
                    (delete uid rc) (connections w)) as Hu.
      pose proof (sum_fold_insert roomConnectionCount rid (delete uid rc)
                    (connections w)) as Hcn.
      rewrite Hc in Hu, Hcn. unfold roomConnectionCount in *. cbn beta in *. lia.
Qed.

(** X29 on the tracker with two links: removing A takes away A's own link
    and leaves the link of B towards A counted. *)
Lemma tracker_membership_stats_witness :
  Stats.totalUsers (getStats (removeUser "R" "A" twoOffers).1) = 1%nat ∧
  Stats.totalConnections (getStats (removeUser "R" "A" twoOffers).1) = 1%nat.
Proof.
  destruct (tracker_membership_stats "R" "A" "sA" twoOffers) as [_ Hrem].
  destruct (entryOf "R" "A" twoOffers) as [e|] eqn:He; [|by vm_compute in He].
  destruct (Hrem e eq_refl) as [Hu Hc].
  assert (size (peers e) = 1%nat) as Hp.
  { vm_compute in He. injection He as <-. vm_compute. reflexivity. }
  assert (Stats.totalUsers (getStats twoOffers) = 2%nat) as H1 by (vm_compute; reflexivity).
  assert (Stats.totalConnections (getStats twoOffers) = 2%nat) as H2
    by (vm_compute; reflexivity).
  lia.
Defined.
End tracker_stats.

(** ** What the room manager never changes *)

Section manager_stable.
Implicit Types (m : RoomManager) (uid rid : string) (ref : nat) (room : Room).

Lemma roomAttributes_set_users us room :
  roomAttributes (set_users us room) = roomAttributes room.
Proof. done. Qed.

Lemma removeUser_attributes uid room :
  roomAttributes (RoomM.removeUser uid room).1 = roomAttributes room.
Proof. unfold RoomM.removeUser. by destruct (OMap.get uid (users room)). Qed.

Lemma leaveRoom_attributes uid m ref room :
  RoomManagerM.deref ref m = Some room →
  ∃ room', RoomManagerM.deref ref (RoomManagerM.leaveRoom uid m).1 = Some room' ∧
           roomAttributes room' = roomAttributes room.
Proof.
  intros Hh. unfold RoomManagerM.deref in *.
  destruct (leaveRoom_spec uid m)
    as [[-> _]|(r & ref0 & room0 & _ & _ & _ & Hh0 & ->)]; [by exists room|].
  simpl. destruct (decide (ref = ref0)) as [->|Hne].
  - rewrite list_lookup_insert_eq by (by eapply lookup_lt_Some).
    eexists. split; [done|]. rewrite removeUser_attributes. congruence.
  - rewrite list_lookup_insert_ne by done. by exists room.
Qed.

(** X30. No operation of the room manager changes a room's identifier,
    creation data, active flag, capacity or settings (password included):
    whatever the state, a room object has the same attributes after the
    operation as before; only its participants change. *)
Theorem room_attributes_stable op m ref room :
  RoomManagerM.deref ref m = Some room →
  ∃ room', RoomManagerM.deref ref (run op m) = Some room' ∧
           roomAttributes room' = roomAttributes room.
Proof.
  intros Hh. destruct op as [uuid now by_ [|opts]|rid uid info pw now|uid|uid mt en|];
    simpl.
  - by exists room.
  - exists room. split; [|done]. unfold RoomManagerM.deref in *. simpl.
    apply lookup_app_l_Some. done.
  - destruct (leaveRoom_attributes uid m ref room Hh) as (room1 & Hh1 & Hattr).
    destruct (RoomManagerM.joinRoom rid uid info pw now m) as [m' [[ref0 u]|e]] eqn:Hj.
    + apply joinRoom_Ok in Hj as (r0 & r1 & r2 & _ & _ & _ & Hr1 & Ha & ->).
      simpl. unfold RoomManagerM.deref in *. simpl.
      destruct (decide (ref = ref0)) as [->|Hne].
      * rewrite list_lookup_insert_eq by (by eapply lookup_lt_Some).
        eexists. split; [done|].
        apply addUser_Ok in Ha as (_ & _ & _ & _ & ->).
        rewrite roomAttributes_set_users. congruence.
      * rewrite list_lookup_insert_ne by done. by exists room1.
    + apply joinRoom_Err in Hj as [[-> _]|[[-> _]|[-> _]]]; simpl;
        [by exists room | by exists room1..].
  - by apply leaveRoom_attributes.
  - unfold RoomManagerM.updateUserMedia.
    destruct (RoomManagerM.getUserRoom uid m) as [ref0|]; [|by exists room].
    destruct (RoomManagerM.deref ref0 m) as [room0|] eqn:Hh0; [|by exists room].
    destruct (RoomM.updateUserMedia uid mt en room0) as [room0' ou] eqn:Hup.
    unfold RoomManagerM.deref in *. simpl.
    destruct (decide (ref = ref0)) as [->|Hne].
    + rewrite list_lookup_insert_eq by (by eapply lookup_lt_Some).
      eexists. split; [done|].
      assert (room0 = room) as -> by congruence.
      unfold RoomM.updateUserMedia in Hup.
      destruct (OMap.get uid (users room)); by injection Hup as <- _.
    + rewrite list_lookup_insert_ne by done. by exists room.
  - by exists room.
Qed.

(** X30 on the scenario: the capacity of r1 after C was refused. *)
Lemma room_attributes_stable_witness :
  (maxUsers <$> RoomManagerM.deref 0 Scenario.m4) = Some (Num.of_Z 2) ∧
  (maxUsers <$> RoomManagerM.deref 0 (RoomManagerM.leaveRoom "A" Scenario.m3).1)
    = Some (Num.of_Z 2).
Proof.
  destruct (RoomManagerM.deref 0 Scenario.m3) as [room|] eqn:Hroom;
    [|by vm_compute in Hroom].
  assert (maxUsers room = Num.of_Z 2) as Hmax.
  { vm_compute in Hroom. by injection Hroom as <-. }
  destruct (room_attributes_stable
              (OpJoinRoom "r1" "C" (Scenario.info "C") PwUndefined 3)
              Scenario.m3 0 room Hroom) as (r1 & H1 & Ha1).
  destruct (room_attributes_stable (OpLeaveRoom "A") Scenario.m3 0 room Hroom)
    as (r2 & H2 & Ha2).
  simpl in H1, H2. unfold Scenario.m4. rewrite H1, H2. simpl.
  unfold roomAttributes in Ha1, Ha2. split; congruence.
Defined.
End manager_stable.
